(** * Image Watermarking App: the two Tk windows as a state machine

    Shallow embedding of [ui.py] (class [ImageWindowMaker]) and
    [text_menu_ui.py] (class [TextMenu]).

    The program is event driven: every method is the handler of a button and
    mutates the attributes of the window object, the Tk widget tree and, when
    saving, the file system.  The embedding therefore threads one [World]
    through a small state-and-exception monad; a Python exception leaves the
    mutations made before it in place, exactly as in the interpreter.

    Conventions.
    - An instance attribute that has not been assigned yet is [unset]; reading
      it raises [AttributeError], as [self.x] does.
    - Widgets live in a store ([widgets]); attributes such as [self.canvas]
      hold references (indices) into it, so that a widget that is no longer
      referenced by the object but still managed by the grid stays visible in
      the model, as it does on screen.
    - Values built by the imaging library are kept symbolic ([Image], [Font]):
      a saved file records which operations produced it.
    - Behaviour of the platform that the sources do not determine (path
      normalisation, whether a file can be opened for writing, whether a font
      resource loads, whether the imaging library can write at a path) is a
      parameter, [Platform]. *)

From Stdlib Require Import ZArith Lia Ascii String.
From stdpp Require Import base option list gmap strings pretty.

Local Open Scope Z_scope.
Local Open Scope string_scope.

(** ** Python exceptions *)

Inductive exn : Type :=
| AttributeError (name : string)
| IOError          (* [OSError] and its subclasses; [IOError] is an alias *)
| ValueError
| TclError
| ImportError.     (* raised by PIL when built without FreeType support *)

Global Instance exn_eq_dec : EqDecision exn.
Proof. solve_decision. Defined.

(** An instance attribute: absent until first assigned. *)
Inductive attr (A : Type) : Type :=
| unset
| bound (a : A).
Arguments unset {A}.
Arguments bound {A} a.

(** ** Values of the imaging library (PIL) *)

Inductive Font : Type :=
| FreeTypeFont (path : string) (size : Z)   (* [ImageFont.truetype(path, size)] *)
| DefaultFont.                              (* [ImageFont.load_default()] *)

Inductive Image : Type :=
| raster (width height : Z) (data : list Z)
| resize (size : Z * Z) (im : Image)
| draw_text (xy : Z * Z) (text : string) (fill : option string)
            (font : Font) (anchor : string) (im : Image).

Inductive file : Type :=
| empty_file                 (* created or truncated, nothing written *)
| image_file (im : Image)
| data_file.                 (* any content that is not a decodable image *)

(** ** Tk values *)

(** [tk.PhotoImage(file=...)] and [ImageTk.PhotoImage(image)]. *)
Inductive photo : Type :=
| PhotoImage (file_name : string) (content : Image)
| ImageTk_PhotoImage (im : Image).

(** A Tk font description [(family, size, style)]; Tk receives all three as
    strings. *)
Definition tk_font : Type := string * string * string.

Inductive canvas_item : Type :=
| text_item (x y : Z) (width : option Z) (text : string)
            (fill : option string) (font : option tk_font)
| image_item (x y : Z) (image : photo).

(** A canvas.  Item ids are handed out from 1 upwards and never reused:
    item [S i] is slot [i] of [items], [None] once deleted. *)
Record Canvas : Type := {
  cv_width : Z;
  cv_height : Z;
  cv_bg : option string;
  cv_highlightthickness : option Z;
  items : list (option canvas_item)
}.

(** The bound methods used as button commands. *)
Inductive command : Type :=
| cmd_change_menu
| cmd_open_text_settings
| cmd_save_image
| cmd_return_to_principal.

Global Instance command_eq_dec : EqDecision command.
Proof. solve_decision. Defined.

Record grid_opts : Type := {
  row : Z; column : Z; columnspan : Z; padx : Z; pady : Z
}.

Inductive widget_kind : Type :=
| CanvasW (c : Canvas)
| Button (text : string) (highlightthickness : Z) (cmd : command) (width : Z)
| Label (text : string) (fg : string) (font : tk_font).

(** A widget of the main window and how the grid manages it ([None]: not
    managed, hence not shown). *)
Record widget : Type := {
  kind : widget_kind;
  grid_info : option grid_opts
}.

(** ** The two window objects *)

(** The callables ever passed as [callback=]: the program registers only the
    bound method [self.values_received]. *)
Inductive callable : Type :=
| bound_values_received.

(** A [TextMenu] window: its callback and the current content of its four
    input widgets ([''] until the user fills them). *)
Record TextMenu : Type := {
  callback : option callable;
  text_entry : string;
  color_box : string;
  spinbox : string;
  font_box : string;
  destroyed : bool
}.

(** The attributes of the [ImageWindowMaker] instance. *)
Record ImageWindowMaker : Type := {
  in_principal : bool;
  canvas : attr nat;
  app_title : attr nat;
  app_image : attr photo;
  logo : attr nat;
  select_file_button : attr nat;
  credit_label : attr nat;
  search_file : attr string;
  text_watermarker : attr nat;
  new_image : attr photo;
  insert_text_button : attr nat;
  save_button : attr nat;
  return_button : attr nat;
  text_window : attr nat;
  watermark_text : attr string;
  text_color : attr (option string);
  font_size : attr string;
  font_value : attr string
}.

(** The trace of a run: what the user gets to see or read besides the
    windows, and each invocation of a dialog's callback with its arguments
    (kept to count them). *)
Inductive effect : Type :=
| showinfo (title message : string)   (* [tkinter.messagebox.showinfo] *)
| print (line : string)               (* standard output *)
| callback_called (d : nat) (text : string) (color : option string)
                  (size family : string)   (* window [d] called its callback *)
| traceback (e : exn).                (* Tk reports a handler's exception *)

Record World : Type := {
  self : ImageWindowMaker;
  in_use : bool;                 (* the class attribute [TextMenu.in_use] *)
  widgets : list widget;
  text_menus : list TextMenu;    (* every [TextMenu] created so far *)
  grab : option nat;             (* the window holding the input grab *)
  fs : gmap string file;
  out : list effect              (* oldest first *)
}.

(** *** Attribute assignment *)

Definition set_in_principal (v : bool) (o : ImageWindowMaker) : ImageWindowMaker :=
  {|
     in_principal := v; canvas := canvas o; app_title := app_title o;
     app_image := app_image o; logo := logo o; select_file_button :=
     select_file_button o; credit_label := credit_label o; search_file :=
     search_file o; text_watermarker := text_watermarker o; new_image :=
     new_image o; insert_text_button := insert_text_button o; save_button :=
     save_button o; return_button := return_button o; text_window :=
     text_window o; watermark_text := watermark_text o; text_color :=
     text_color o; font_size := font_size o; font_value := font_value o
  |}.

Definition set_canvas (v : attr nat) (o : ImageWindowMaker) : ImageWindowMaker :=
  {|
     in_principal := in_principal o; canvas := v; app_title := app_title o;
     app_image := app_image o; logo := logo o; select_file_button :=
     select_file_button o; credit_label := credit_label o; search_file :=
     search_file o; text_watermarker := text_watermarker o; new_image :=
     new_image o; insert_text_button := insert_text_button o; save_button :=
     save_button o; return_button := return_button o; text_window :=
     text_window o; watermark_text := watermark_text o; text_color :=
     text_color o; font_size := font_size o; font_value := font_value o
  |}.

Definition set_app_title (v : attr nat) (o : ImageWindowMaker) : ImageWindowMaker :=
  {|
     in_principal := in_principal o; canvas := canvas o; app_title := v;
     app_image := app_image o; logo := logo o; select_file_button :=
     select_file_button o; credit_label := credit_label o; search_file :=
     search_file o; text_watermarker := text_watermarker o; new_image :=
     new_image o; insert_text_button := insert_text_button o; save_button :=
     save_button o; return_button := return_button o; text_window :=
     text_window o; watermark_text := watermark_text o; text_color :=
     text_color o; font_size := font_size o; font_value := font_value o
  |}.

Definition set_app_image (v : attr photo) (o : ImageWindowMaker) : ImageWindowMaker :=
  {|
     in_principal := in_principal o; canvas := canvas o; app_title :=
     app_title o; app_image := v; logo := logo o; select_file_button :=
     select_file_button o; credit_label := credit_label o; search_file :=
     search_file o; text_watermarker := text_watermarker o; new_image :=
     new_image o; insert_text_button := insert_text_button o; save_button :=
     save_button o; return_button := return_button o; text_window :=
     text_window o; watermark_text := watermark_text o; text_color :=
     text_color o; font_size := font_size o; font_value := font_value o
  |}.

Definition set_logo (v : attr nat) (o : ImageWindowMaker) : ImageWindowMaker :=
  {|
     in_principal := in_principal o; canvas := canvas o; app_title :=
     app_title o; app_image := app_image o; logo := v; select_file_button :=
     select_file_button o; credit_label := credit_label o; search_file :=
     search_file o; text_watermarker := text_watermarker o; new_image :=
     new_image o; insert_text_button := insert_text_button o; save_button :=
     save_button o; return_button := return_button o; text_window :=
     text_window o; watermark_text := watermark_text o; text_color :=
     text_color o; font_size := font_size o; font_value := font_value o
  |}.

Definition set_select_file_button (v : attr nat) (o : ImageWindowMaker) : ImageWindowMaker :=
  {|
     in_principal := in_principal o; canvas := canvas o; app_title :=
     app_title o; app_image := app_image o; logo := logo o;
     select_file_button := v; credit_label := credit_label o; search_file :=
     search_file o; text_watermarker := text_watermarker o; new_image :=
     new_image o; insert_text_button := insert_text_button o; save_button :=
     save_button o; return_button := return_button o; text_window :=
     text_window o; watermark_text := watermark_text o; text_color :=
     text_color o; font_size := font_size o; font_value := font_value o
  |}.

Definition set_credit_label (v : attr nat) (o : ImageWindowMaker) : ImageWindowMaker :=
  {|
     in_principal := in_principal o; canvas := canvas o; app_title :=
     app_title o; app_image := app_image o; logo := logo o;
     select_file_button := select_file_button o; credit_label := v;
     search_file := search_file o; text_watermarker := text_watermarker o;
     new_image := new_image o; insert_text_button := insert_text_button o;
     save_button := save_button o; return_button := return_button o;
     text_window := text_window o; watermark_text := watermark_text o;
     text_color := text_color o; font_size := font_size o; font_value :=
     font_value o
  |}.

Definition set_search_file (v : attr string) (o : ImageWindowMaker) : ImageWindowMaker :=
  {|
     in_principal := in_principal o; canvas := canvas o; app_title :=
     app_title o; app_image := app_image o; logo := logo o;
     select_file_button := select_file_button o; credit_label :=
     credit_label o; search_file := v; text_watermarker := text_watermarker
     o; new_image := new_image o; insert_text_button := insert_text_button
     o; save_button := save_button o; return_button := return_button o;
     text_window := text_window o; watermark_text := watermark_text o;
     text_color := text_color o; font_size := font_size o; font_value :=
     font_value o
  |}.

Definition set_text_watermarker (v : attr nat) (o : ImageWindowMaker) : ImageWindowMaker :=
  {|
     in_principal := in_principal o; canvas := canvas o; app_title :=
     app_title o; app_image := app_image o; logo := logo o;
     select_file_button := select_file_button o; credit_label :=
     credit_label o; search_file := search_file o; text_watermarker := v;
     new_image := new_image o; insert_text_button := insert_text_button o;
     save_button := save_button o; return_button := return_button o;
     text_window := text_window o; watermark_text := watermark_text o;
     text_color := text_color o; font_size := font_size o; font_value :=
     font_value o
  |}.

Definition set_new_image (v : attr photo) (o : ImageWindowMaker) : ImageWindowMaker :=
  {|
     in_principal := in_principal o; canvas := canvas o; app_title :=
     app_title o; app_image := app_image o; logo := logo o;
     select_file_button := select_file_button o; credit_label :=
     credit_label o; search_file := search_file o; text_watermarker :=
     text_watermarker o; new_image := v; insert_text_button :=
     insert_text_button o; save_button := save_button o; return_button :=
     return_button o; text_window := text_window o; watermark_text :=
     watermark_text o; text_color := text_color o; font_size := font_size o;
     font_value := font_value o
  |}.

Definition set_insert_text_button (v : attr nat) (o : ImageWindowMaker) : ImageWindowMaker :=
  {|
     in_principal := in_principal o; canvas := canvas o; app_title :=
     app_title o; app_image := app_image o; logo := logo o;
     select_file_button := select_file_button o; credit_label :=
     credit_label o; search_file := search_file o; text_watermarker :=
     text_watermarker o; new_image := new_image o; insert_text_button := v;
     save_button := save_button o; return_button := return_button o;
     text_window := text_window o; watermark_text := watermark_text o;
     text_color := text_color o; font_size := font_size o; font_value :=
     font_value o
  |}.

Definition set_save_button (v : attr nat) (o : ImageWindowMaker) : ImageWindowMaker :=
  {|
     in_principal := in_principal o; canvas := canvas o; app_title :=
     app_title o; app_image := app_image o; logo := logo o;
     select_file_button := select_file_button o; credit_label :=
     credit_label o; search_file := search_file o; text_watermarker :=
     text_watermarker o; new_image := new_image o; insert_text_button :=
     insert_text_button o; save_button := v; return_button := return_button
     o; text_window := text_window o; watermark_text := watermark_text o;
     text_color := text_color o; font_size := font_size o; font_value :=
     font_value o
  |}.

Definition set_return_button (v : attr nat) (o : ImageWindowMaker) : ImageWindowMaker :=
  {|
     in_principal := in_principal o; canvas := canvas o; app_title :=
     app_title o; app_image := app_image o; logo := logo o;
     select_file_button := select_file_button o; credit_label :=
     credit_label o; search_file := search_file o; text_watermarker :=
     text_watermarker o; new_image := new_image o; insert_text_button :=
     insert_text_button o; save_button := save_button o; return_button := v;
     text_window := text_window o; watermark_text := watermark_text o;
     text_color := text_color o; font_size := font_size o; font_value :=
     font_value o
  |}.

Definition set_text_window (v : attr nat) (o : ImageWindowMaker) : ImageWindowMaker :=
  {|
     in_principal := in_principal o; canvas := canvas o; app_title :=
     app_title o; app_image := app_image o; logo := logo o;
     select_file_button := select_file_button o; credit_label :=
     credit_label o; search_file := search_file o; text_watermarker :=
     text_watermarker o; new_image := new_image o; insert_text_button :=
     insert_text_button o; save_button := save_button o; return_button :=
     return_button o; text_window := v; watermark_text := watermark_text o;
     text_color := text_color o; font_size := font_size o; font_value :=
     font_value o
  |}.

Definition set_watermark_text (v : attr string) (o : ImageWindowMaker) : ImageWindowMaker :=
  {|
     in_principal := in_principal o; canvas := canvas o; app_title :=
     app_title o; app_image := app_image o; logo := logo o;
     select_file_button := select_file_button o; credit_label :=
     credit_label o; search_file := search_file o; text_watermarker :=
     text_watermarker o; new_image := new_image o; insert_text_button :=
     insert_text_button o; save_button := save_button o; return_button :=
     return_button o; text_window := text_window o; watermark_text := v;
     text_color := text_color o; font_size := font_size o; font_value :=
     font_value o
  |}.

Definition set_text_color (v : attr (option string)) (o : ImageWindowMaker) : ImageWindowMaker :=
  {|
     in_principal := in_principal o; canvas := canvas o; app_title :=
     app_title o; app_image := app_image o; logo := logo o;
     select_file_button := select_file_button o; credit_label :=
     credit_label o; search_file := search_file o; text_watermarker :=
     text_watermarker o; new_image := new_image o; insert_text_button :=
     insert_text_button o; save_button := save_button o; return_button :=
     return_button o; text_window := text_window o; watermark_text :=
     watermark_text o; text_color := v; font_size := font_size o; font_value
     := font_value o
  |}.

Definition set_font_size (v : attr string) (o : ImageWindowMaker) : ImageWindowMaker :=
  {|
     in_principal := in_principal o; canvas := canvas o; app_title :=
     app_title o; app_image := app_image o; logo := logo o;
     select_file_button := select_file_button o; credit_label :=
     credit_label o; search_file := search_file o; text_watermarker :=
     text_watermarker o; new_image := new_image o; insert_text_button :=
     insert_text_button o; save_button := save_button o; return_button :=
     return_button o; text_window := text_window o; watermark_text :=
     watermark_text o; text_color := text_color o; font_size := v;
     font_value := font_value o
  |}.

Definition set_font_value (v : attr string) (o : ImageWindowMaker) : ImageWindowMaker :=
  {|
     in_principal := in_principal o; canvas := canvas o; app_title :=
     app_title o; app_image := app_image o; logo := logo o;
     select_file_button := select_file_button o; credit_label :=
     credit_label o; search_file := search_file o; text_watermarker :=
     text_watermarker o; new_image := new_image o; insert_text_button :=
     insert_text_button o; save_button := save_button o; return_button :=
     return_button o; text_window := text_window o; watermark_text :=
     watermark_text o; text_color := text_color o; font_size := font_size o;
     font_value := v
  |}.

Definition set_callback (v : option callable) (d : TextMenu) : TextMenu :=
  {|
     callback := v; text_entry := text_entry d; color_box := color_box d;
     spinbox := spinbox d; font_box := font_box d; destroyed := destroyed d
  |}.

Definition set_text_entry (v : string) (d : TextMenu) : TextMenu :=
  {|
     callback := callback d; text_entry := v; color_box := color_box d;
     spinbox := spinbox d; font_box := font_box d; destroyed := destroyed d
  |}.

Definition set_color_box (v : string) (d : TextMenu) : TextMenu :=
  {|
     callback := callback d; text_entry := text_entry d; color_box := v;
     spinbox := spinbox d; font_box := font_box d; destroyed := destroyed d
  |}.

Definition set_spinbox (v : string) (d : TextMenu) : TextMenu :=
  {|
     callback := callback d; text_entry := text_entry d; color_box :=
     color_box d; spinbox := v; font_box := font_box d; destroyed :=
     destroyed d
  |}.

Definition set_font_box (v : string) (d : TextMenu) : TextMenu :=
  {|
     callback := callback d; text_entry := text_entry d; color_box :=
     color_box d; spinbox := spinbox d; font_box := v; destroyed :=
     destroyed d
  |}.

Definition set_destroyed (v : bool) (d : TextMenu) : TextMenu :=
  {|
     callback := callback d; text_entry := text_entry d; color_box :=
     color_box d; spinbox := spinbox d; font_box := font_box d; destroyed :=
     v
  |}.

Definition set_self (v : ImageWindowMaker) (w : World) : World :=
  {|
     self := v; in_use := in_use w; widgets := widgets w; text_menus :=
     text_menus w; grab := grab w; fs := fs w; out := out w
  |}.

Definition set_in_use (v : bool) (w : World) : World :=
  {|
     self := self w; in_use := v; widgets := widgets w; text_menus :=
     text_menus w; grab := grab w; fs := fs w; out := out w
  |}.

Definition set_widgets (v : list widget) (w : World) : World :=
  {|
     self := self w; in_use := in_use w; widgets := v; text_menus :=
     text_menus w; grab := grab w; fs := fs w; out := out w
  |}.

Definition set_text_menus (v : list TextMenu) (w : World) : World :=
  {|
     self := self w; in_use := in_use w; widgets := widgets w; text_menus :=
     v; grab := grab w; fs := fs w; out := out w
  |}.

Definition set_grab (v : option nat) (w : World) : World :=
  {|
     self := self w; in_use := in_use w; widgets := widgets w; text_menus :=
     text_menus w; grab := v; fs := fs w; out := out w
  |}.

Definition set_fs (v : gmap string file) (w : World) : World :=
  {|
     self := self w; in_use := in_use w; widgets := widgets w; text_menus :=
     text_menus w; grab := grab w; fs := v; out := out w
  |}.

Definition set_out (v : list effect) (w : World) : World :=
  {|
     self := self w; in_use := in_use w; widgets := widgets w; text_menus :=
     text_menus w; grab := grab w; fs := fs w; out := v
  |}.

(** Assignments compute as soon as they are applied. *)
Arguments set_in_principal v _ /.
Arguments set_canvas v _ /.
Arguments set_app_title v _ /.
Arguments set_app_image v _ /.
Arguments set_logo v _ /.
Arguments set_select_file_button v _ /.
Arguments set_credit_label v _ /.
Arguments set_search_file v _ /.
Arguments set_text_watermarker v _ /.
Arguments set_new_image v _ /.
Arguments set_insert_text_button v _ /.
Arguments set_save_button v _ /.
Arguments set_return_button v _ /.
Arguments set_text_window v _ /.
Arguments set_watermark_text v _ /.
Arguments set_text_color v _ /.
Arguments set_font_size v _ /.
Arguments set_font_value v _ /.
Arguments set_callback v _ /.
Arguments set_text_entry v _ /.
Arguments set_color_box v _ /.
Arguments set_spinbox v _ /.
Arguments set_font_box v _ /.
Arguments set_destroyed v _ /.
Arguments set_self v _ /.
Arguments set_in_use v _ /.
Arguments set_widgets v _ /.
Arguments set_text_menus v _ /.
Arguments set_grab v _ /.
Arguments set_fs v _ /.
Arguments set_out v _ /.

(** ** The state-and-exception monad *)

Inductive result (A : Type) : Type :=
| Ok (a : A)
| Raise (e : exn).
Arguments Ok {A} a.
Arguments Raise {A} e.

Definition M (A : Type) : Type := World → result A * World.

Global Instance M_ret : MRet M := λ A a w, (Ok a, w).

Global Instance M_bind : MBind M := λ A B f m w,
  match m w with
  | (Ok a, w') => f a w'
  | (Raise e, w') => (Raise e, w')
  end.

Definition raise {A} (e : exn) : M A := λ w, (Raise e, w).
Definition gets {A} (f : World → A) : M A := λ w, (Ok (f w), w).
Definition modify (f : World → World) : M unit := λ w, (Ok tt, f w).

(** [try: body / except IOError: handler]. *)
Definition try_except_IOError {A} (body handler : M A) : M A := λ w,
  match body w with
  | (Raise IOError, w') => handler w'
  | r => r
  end.

(** [self.name], for the attribute read by [proj]. *)
Definition getattr {A} (name : string) (proj : ImageWindowMaker → attr A) : M A :=
  λ w, match proj (self w) with
       | bound a => (Ok a, w)
       | unset => (Raise (AttributeError name), w)
       end.

(** [self.name = v], with the setter of that attribute. *)
Definition setattr {A} (set : attr A → ImageWindowMaker → ImageWindowMaker)
    (v : A) : M unit :=
  modify (λ w, set_self (set (bound v) (self w)) w).

Definition emit (e : effect) : M unit :=
  modify (λ w, set_out (out w ++ [e]) w).

(** ** Builtins and library calls *)

(** White space as [str.isspace] sees it, for ASCII. *)
Definition is_space (a : ascii) : bool :=
  let n := nat_of_ascii a in
  ((9 <=? n)%nat && (n <=? 13)%nat) || ((28 <=? n)%nat && (n <=? 32)%nat).

(** *** [int(str)]

    A character of the model is a code point below 256.  [int] drops the
    white space around the number, then reads an optional sign and decimal
    digits with single underscores between them.  The white space it drops
    is narrower than [str.isspace]: tab to carriage return and the space,
    and, of the code points above ASCII, the two Unicode spaces below 256
    (next line and no-break space); the separators 28 to 31 are not dropped.
    No code point from 128 to 255 is a decimal digit.  A number of more than
    [max_str_digits] digits is refused (the default of
    [sys.set_int_max_str_digits], which the program does not change);
    leading zeros count, underscores and the sign do not.  (A string taken
    as UTF-8 bytes instead, if well formed and accepted here, is ASCII: the
    value is [int]'s under that reading as well.) *)

Definition int_space (a : ascii) : bool :=
  let n := nat_of_ascii a in
  ((9 <=? n)%nat && (n <=? 13)%nat) || (n =? 32)%nat
  || (n =? 133)%nat || (n =? 160)%nat.

Definition max_str_digits : Z := 4300.

Definition digit_value (a : ascii) : option Z :=
  let n := nat_of_ascii a in
  if ((48 <=? n)%nat && (n <=? 57)%nat) then Some (Z.of_nat n - 48) else None.

Fixpoint lstrip (s : string) : string :=
  match s with
  | String a s' => if int_space a then lstrip s' else s
  | EmptyString => EmptyString
  end.

Fixpoint rstrip (s : string) : string :=
  match s with
  | String a s' =>
      let r := rstrip s' in
      if int_space a && bool_decide (r = "") then "" else String a r
  | EmptyString => EmptyString
  end.

(** The digits of [s] after [count] digits worth [acc]; [after_digit] says
    that the character before was a digit, as the one before an underscore
    and the last one must be. *)
Fixpoint digits (s : string) (acc count : Z) (after_digit : bool) : option Z :=
  match s with
  | EmptyString =>
      if after_digit && (count <=? max_str_digits)%Z then Some acc else None
  | String a s' =>
      match digit_value a with
      | Some d => digits s' (10 * acc + d) (count + 1) true
      | None =>
          if bool_decide (a = "_"%char) && after_digit
          then digits s' acc count false
          else None
      end
  end.

Definition py_int (s : string) : option Z :=
  match rstrip (lstrip s) with
  | String "+" r => digits r 0 0 false
  | String "-" r => Z.opp <$> digits r 0 0 false
  | t => digits t 0 0 false
  end.

Definition int (s : string) : M Z :=
  match py_int s with
  | Some n => mret n
  | None => raise ValueError
  end.

(** *** What the sources leave to the platform *)

Record Platform : Type := {
  (** [os.path.abspath], under the working directory of the process; files
      are stored in [fs] under their absolute path. *)
  abspath : string → string;
  (** Whether [open(path, 'w')] fails on the given files (the directory does
      not exist, the file may not be written, ...); it then raises
      [OSError]. *)
  open_fails : gmap string file → string → bool;
  (** The exception [ImageFont.truetype(path, size)] raises, if any ([IOError]
      when the resource cannot be read, [ImportError] when the library lacks
      FreeType support). *)
  truetype_raises : gmap string file → string → Z → option exn;
  (** The exception [Image.save(path)] raises, if any (for instance on an
      extension it knows no format for). *)
  save_raises : Image → string → option exn
}.

(** ** Constants of the two modules *)

Definition BACKGROUND_COLOR : string := "#fcf3cf".
Definition FRONT_COLOR : string := "#f6ddcc".

Definition FONTS : list string :=
  [ "Arial"; "Verdana"; "Times New Roman"; "Courier New"; "Georgia";
    "Comic Sans MS"; "Trebuchet MS"; "Impact"; "Lucida Console"; "Tahoma" ].

Definition COLORS_AND_CODE : gmap string string :=
  list_to_map
    [ ("Red", "#a32424"); ("Blue", "#2424a3"); ("Yellow", "#e8ff00");
      ("Black", "#000000"); ("White", "#ffffff") ].

(** The spinbox offers [from_=30] to [to=80]. *)
Definition spinbox_from : Z := 30.
Definition spinbox_to : Z := 80.

Definition missing_values_message : string :=
  "Please do not leave blank spaces." +:+ String "010"%char "Complete all fields.".

Definition font_path : string := "path_to_font.ttf".

(** ** Tk widgets *)

Definition new_widget (k : widget_kind) : M nat := λ w,
  (Ok (length (widgets w)),
   set_widgets (widgets w ++ [{| kind := k; grid_info := None |}]) w).

Definition grid (r : nat) (o : grid_opts) : M unit :=
  modify (λ w,
    set_widgets
      (alter (λ x, {| kind := kind x; grid_info := Some o |}) r (widgets w)) w).

Definition grid_forget (r : nat) : M unit :=
  modify (λ w,
    set_widgets
      (alter (λ x, {| kind := kind x; grid_info := None |}) r (widgets w)) w).

Definition set_items (its : list (option canvas_item)) (c : Canvas) : Canvas :=
  {| cv_width := cv_width c; cv_height := cv_height c; cv_bg := cv_bg c;
     cv_highlightthickness := cv_highlightthickness c; items := its |}.

Arguments set_items its _ /.

(** Run a canvas command on widget [r]. *)
Definition with_canvas {A} (r : nat) (f : Canvas → result A * Canvas) : M A :=
  λ w,
    match widgets w !! r with
    | Some {| kind := CanvasW c; grid_info := g |} =>
        let '(res, c') := f c in
        (res,
         set_widgets (<[r := {| kind := CanvasW c'; grid_info := g |}]> (widgets w)) w)
    | _ => (Raise TclError, w)
    end.

Definition create_item (r : nat) (it : canvas_item) : M nat :=
  with_canvas r (λ c,
    (Ok (S (length (items c))), set_items (items c ++ [Some it]) c)).

Definition create_text (r : nat) (x y : Z) (width : option Z) (text : string)
    (font : option tk_font) : M nat :=
  create_item r (text_item x y width text None font).

Definition create_image (r : nat) (x y : Z) (image : photo) : M nat :=
  create_item r (image_item x y image).

(** [canvas.delete(id)]; an id that names no item is ignored. *)
Definition canvas_delete (r id : nat) : M unit :=
  with_canvas r (λ c,
    match id with
    | O => (Ok tt, c)
    | S i => (Ok tt, set_items (<[i := None]> (items c)) c)
    end).

Definition item_at (c : Canvas) (id : nat) : option canvas_item :=
  match id with
  | O => None
  | S i => mjoin (items c !! i)
  end.

(** [canvas.itemconfig(id, image=...)]: no item, nothing happens; an item
    without that option is a Tk error. *)
Definition itemconfig_image (r id : nat) (image : photo) : M unit :=
  with_canvas r (λ c,
    match item_at c id with
    | Some (image_item x y _) =>
        (Ok tt, set_items (<[pred id := Some (image_item x y image)]> (items c)) c)
    | Some (text_item _ _ _ _ _ _) => (Raise TclError, c)
    | None => (Ok tt, c)
    end).

(** [canvas.itemconfig(id, text=..., fill=..., font=...)]; tkinter drops an
    option whose value is [None], so [fill=None] keeps the old colour. *)
Definition itemconfig_text (r id : nat) (text : string) (fill : option string)
    (font : tk_font) : M unit :=
  with_canvas r (λ c,
    match item_at c id with
    | Some (text_item x y wd _ old_fill _) =>
        let fill' := match fill with Some f => Some f | None => old_fill end in
        (Ok tt,
         set_items
           (<[pred id := Some (text_item x y wd text fill' (Some font))]> (items c)) c)
    | Some (image_item _ _ _) => (Raise TclError, c)
    | None => (Ok tt, c)
    end).

(** [canvas.itemcget(id, "text")]; [''] when there is no such item. *)
Definition itemcget_text (r id : nat) : M string :=
  with_canvas r (λ c,
    match item_at c id with
    | Some (text_item _ _ _ text _ _) => (Ok text, c)
    | Some (image_item _ _ _) => (Raise TclError, c)
    | None => (Ok "", c)
    end).

Definition canvas_config (r : nat) (bg : string) (hl : Z) : M unit :=
  with_canvas r (λ c,
    (Ok tt,
     {| cv_width := cv_width c; cv_height := cv_height c; cv_bg := Some bg;
        cv_highlightthickness := Some hl; items := items c |})).

Section Program.

Context (P : Platform).

(** ** Files, images and fonts *)

(** [tk.PhotoImage(file=p)] *)
Definition PhotoImage_file (p : string) : M photo := λ w,
  match fs w !! abspath P p with
  | Some (image_file im) => (Ok (PhotoImage p im), w)
  | _ => (Raise TclError, w)
  end.

(** [Image.open(p)] *)
Definition Image_open (p : string) : M Image := λ w,
  match fs w !! abspath P p with
  | Some (image_file im) => (Ok im, w)
  | _ => (Raise IOError, w)
  end.

(** [ImageFont.truetype(path, size)] *)
Definition truetype (path : string) (size : Z) : M Font := λ w,
  match truetype_raises P (fs w) path size with
  | Some e => (Raise e, w)
  | None => (Ok (FreeTypeFont path size), w)
  end.

(** [im.save(path)], for a [path] that is absolute already, as the one the
    program passes. *)
Definition Image_save (im : Image) (path : string) : M unit := λ w,
  match save_raises P im path with
  | Some e => (Raise e, w)
  | None => (Ok tt, set_fs (<[path := image_file im]> (fs w)) w)
  end.

(** [tkinter.filedialog.asksaveasfile(mode='w', ...)], given what the user
    did in the picker: [None] when cancelled; otherwise the picker itself
    does [open(name, 'w')], which raises and leaves the files as they are
    when the file cannot be opened, and creates or truncates it when it can.
    The result stands for the file object through its [name]. *)
Definition asksaveasfile (picked : option string) : M (option string) :=
  match picked with
  | None => mret None
  | Some name => λ w,
      if open_fails P (fs w) (abspath P name) then (Raise IOError, w)
      else (Ok (Some name), set_fs (<[abspath P name := empty_file]> (fs w)) w)
  end.

(** ** [ImageWindowMaker] *)

Definition menu_start : M unit :=
  c ← new_widget (CanvasW {| cv_width := 600; cv_height := 600; cv_bg := None;
                             cv_highlightthickness := None; items := [] |});
  setattr set_canvas c;;
  c ← getattr "canvas" canvas;
  t ← create_text c 300 100 None "Add a Watermark" (Some ("TkMenuFont", "30", "bold"));
  setattr set_app_title t;;
  im ← PhotoImage_file "images/watermaker_icon.png";
  setattr set_app_image im;;
  c ← getattr "canvas" canvas;
  im ← getattr "app_image" app_image;
  l ← create_image c 300 300 im;
  setattr set_logo l;;
  c ← getattr "canvas" canvas;
  canvas_config c FRONT_COLOR 0;;
  c ← getattr "canvas" canvas;
  grid c {| row := 0; column := 0; columnspan := 2; padx := 0; pady := 0 |};;
  b ← new_widget (Button "Select File" 0 cmd_change_menu 10);
  setattr set_select_file_button b;;
  b ← getattr "select_file_button" select_file_button;
  grid b {| row := 1; column := 0; columnspan := 2; padx := 0; pady := 15 |};;
  l ← new_widget (Label "Desktop App Made by Gerardo-HG" "white" ("Ariel", "20", "bold"));
  setattr set_credit_label l;;
  l ← getattr "credit_label" credit_label;
  grid l {| row := 2; column := 0; columnspan := 2; padx := 0; pady := 25 |}.

Definition setting_buttons (state : bool) : M unit :=
  if negb state then
    b ← getattr "select_file_button" select_file_button;
    grid_forget b;;
    b ← new_widget (Button "Insert a text" 0 cmd_open_text_settings 10);
    setattr set_insert_text_button b;;
    b ← getattr "insert_text_button" insert_text_button;
    grid b {| row := 1; column := 0; columnspan := 1; padx := 15; pady := 15 |};;
    b ← new_widget (Button "Save Image" 0 cmd_save_image 10);
    setattr set_save_button b;;
    b ← getattr "save_button" save_button;
    grid b {| row := 1; column := 1; columnspan := 1; padx := 15; pady := 15 |};;
    b ← new_widget (Button "Return" 0 cmd_return_to_principal 10);
    setattr set_return_button b;;
    b ← getattr "return_button" return_button;
    grid b {| row := 0; column := 2; columnspan := 1; padx := 15; pady := 0 |}
  else mret tt.

Definition add_image : M unit :=
  c ← getattr "canvas" canvas;
  t ← create_text c 300 500 (Some 500) "" None;
  setattr set_text_watermarker t;;
  f ← getattr "search_file" search_file;
  new_image_ ← Image_open f;
  let resized_image := resize (600, 600) new_image_ in
  setattr set_new_image (ImageTk_PhotoImage resized_image);;
  c ← getattr "canvas" canvas;
  l ← getattr "logo" logo;
  ph ← getattr "new_image" new_image;
  itemconfig_image c l ph.

(** [change_menu], with the answer of the open-file picker: the chosen path,
    or [''] when the user cancelled. *)
Definition change_menu (picked : string) : M unit :=
  setattr set_search_file picked;;
  in_p ← gets (λ w, in_principal (self w));
  f ← getattr "search_file" search_file;
  if in_p && bool_decide (f ≠ "") then
    modify (λ w, set_self (set_in_principal false (self w)) w);;
    c ← getattr "canvas" canvas;
    t ← getattr "app_title" app_title;
    canvas_delete c t;;
    l ← getattr "credit_label" credit_label;
    grid_forget l;;
    in_p ← gets (λ w, in_principal (self w));
    setting_buttons in_p;;
    add_image
  else mret tt.

(** [save_image], with the answer of the save-file picker. *)
Definition save_image (picked : option string) : M unit :=
  file_to_save ← asksaveasfile picked;
  match file_to_save with
  | Some name =>
      let abs_path := abspath P name in
      f ← getattr "search_file" search_file;
      opened ← Image_open f;
      let editable_image := resize (600, 600) opened in
      c ← getattr "canvas" canvas;
      t ← getattr "text_watermarker" text_watermarker;
      text_value ← itemcget_text c t;
      font ← try_except_IOError
                (s ← getattr "font_size" font_size;
                 n ← int s;
                 truetype font_path n)
                (mret DefaultFont);
      fill ← getattr "text_color" text_color;
      let editable_image :=
        draw_text (300, 500) text_value fill font "ms" editable_image in
      Image_save editable_image abs_path;;
      emit (showinfo "Image saved" "File saved correctly.");;
      emit (print ("Image saved in: " +:+ abs_path))
  | None => mret tt
  end.

Definition return_to_principal : M unit :=
  modify (λ w, set_self (set_in_principal true (self w)) w);;
  b ← getattr "insert_text_button" insert_text_button;
  grid_forget b;;
  b ← getattr "return_button" return_button;
  grid_forget b;;
  b ← getattr "save_button" save_button;
  grid_forget b;;
  menu_start.

Definition values_received (r_text : string) (r_color_text : option string)
    (r_font_size r_font_value : string) : M unit :=
  setattr set_watermark_text r_text;;
  setattr set_text_color r_color_text;;
  setattr set_font_size r_font_size;;
  setattr set_font_value r_font_value;;
  c ← getattr "canvas" canvas;
  t ← getattr "text_watermarker" text_watermarker;
  itemconfig_text c t r_text r_color_text (r_font_value, r_font_size, "bold").

(** ** [TextMenu] *)

(** [TextMenu(callback=cb)]: a new window with four empty inputs; it takes
    the focus and the input grab. *)
Definition TextMenu_new (cb : option callable) : M nat := λ w,
  let d := length (text_menus w) in
  (Ok d,
   set_grab (Some d)
     (set_text_menus
        (text_menus w ++
           [{| callback := cb; text_entry := ""; color_box := "";
               spinbox := ""; font_box := ""; destroyed := false |}]) w)).

(** [close_window]: [self.destroy()]; destroying the window that holds the
    grab releases it. *)
Definition close_window (d : nat) : M unit :=
  modify (λ w,
    set_grab (if bool_decide (grab w = Some d) then None else grab w)
      (set_text_menus (alter (set_destroyed true) d (text_menus w)) w)).

Definition call (cb : callable) (text : string) (color : option string)
    (size family : string) : M unit :=
  match cb with
  | bound_values_received => values_received text color size family
  end.

(** [apply_changes] of window [d].  Reading an input of a destroyed window
    is a Tk error. *)
Definition apply_changes (d : nat) : M unit :=
  tm ← (λ w, match text_menus w !! d with
             | Some tm => if destroyed tm then (Raise TclError, w) else (Ok tm, w)
             | None => (Raise TclError, w)
             end);
  let font_size_value := spinbox tm in
  let color_value := color_box tm in
  let text_value := text_entry tm in
  let font_value_ := font_box tm in
  if bool_decide (font_size_value ≠ "") && bool_decide (color_value ≠ "")
     && bool_decide (text_value ≠ "") && bool_decide (font_value_ ≠ "")
  then
    match callback tm with
    | Some cb =>
        emit (callback_called d text_value (COLORS_AND_CODE !! color_value)
                font_size_value font_value_);;
        call cb text_value (COLORS_AND_CODE !! color_value)
          font_size_value font_value_
    | None => mret tt
    end;;
    close_window d
  else
    emit (showinfo "Missing Values" missing_values_message).

Definition open_text_settings : M unit :=
  busy ← gets in_use;
  if negb busy then
    d ← TextMenu_new (Some bound_values_received);
    setattr set_text_window d
  else mret tt.

(** [ImageWindowMaker()] up to [self.mainloop()], on a given file system. *)
Definition blank : ImageWindowMaker :=
  {| in_principal := true; canvas := unset; app_title := unset;
     app_image := unset; logo := unset; select_file_button := unset;
     credit_label := unset; search_file := unset; text_watermarker := unset;
     new_image := unset; insert_text_button := unset; save_button := unset;
     return_button := unset; text_window := unset; watermark_text := unset;
     text_color := unset; font_size := unset; font_value := unset |}.

Definition launch (files : gmap string file) : result unit * World :=
  menu_start
    {| self := blank; in_use := false; widgets := []; text_menus := [];
       grab := None; fs := files; out := [] |}.

(** ** The event loop

    What the user can do: press a button that the grid shows, answer the file
    picker it opens, fill the inputs of a dialog that still exists, confirm
    or close it.  The two comboboxes and the spinbox are read-only, so they
    only ever hold one of their listed values. *)

Inductive event : Type :=
| SelectFile (picked : string)          (* [''] : picker cancelled *)
| InsertText
| SaveImage (picked : option string)    (* [None] : picker cancelled *)
| Return
| EnterText (d : nat) (s : string)
| PickColor (d : nat) (c : string)
| PickSize (d : nat) (n : Z)
| PickFont (d : nat) (f : string)
| ApplyChanges (d : nat)
| CloseDialog (d : nat).

Definition shows_button (c : command) (w : World) : bool :=
  existsb
    (λ x, match kind x, grid_info x with
          | Button _ _ c' _, Some _ => bool_decide (c' = c)
          | _, _ => false
          end)
    (widgets w).

Definition dialog_open (d : nat) (w : World) : bool :=
  match text_menus w !! d with
  | Some tm => negb (destroyed tm)
  | None => false
  end.

Definition enabled (e : event) (w : World) : bool :=
  match e with
  | SelectFile _ => shows_button cmd_change_menu w
  | InsertText => shows_button cmd_open_text_settings w
  | SaveImage _ => shows_button cmd_save_image w
  | Return => shows_button cmd_return_to_principal w
  | EnterText d _ => dialog_open d w
  | PickColor d c => dialog_open d w && bool_decide (is_Some (COLORS_AND_CODE !! c))
  | PickSize d n => dialog_open d w && (spinbox_from <=? n)%Z && (n <=? spinbox_to)%Z
  | PickFont d f => dialog_open d w && bool_decide (f ∈ FONTS)
  | ApplyChanges d => dialog_open d w
  | CloseDialog d => dialog_open d w
  end.

Definition edit (d : nat) (f : TextMenu → TextMenu) : M unit :=
  modify (λ w, set_text_menus (alter f d (text_menus w)) w).

Definition handler (e : event) : M unit :=
  match e with
  | SelectFile picked => change_menu picked
  | InsertText => open_text_settings
  | SaveImage picked => save_image picked
  | Return => return_to_principal
  | EnterText d s => edit d (set_text_entry s)
  | PickColor d c => edit d (set_color_box c)
  | PickSize d n => edit d (set_spinbox (pretty n))
  | PickFont d f => edit d (set_font_box f)
  | ApplyChanges d => apply_changes d
  | CloseDialog d => close_window d
  end.

(** One turn of [mainloop]: an event that cannot happen changes nothing; an
    exception escaping a handler is reported and the loop goes on with the
    state the handler left. *)
Definition dispatch (w : World) (e : event) : World :=
  if enabled e w then
    match handler e w with
    | (Ok _, w') => w'
    | (Raise x, w') => set_out (out w' ++ [traceback x]) w'
    end
  else w.

Definition run (es : list event) (w : World) : World := foldl dispatch w es.

End Program.

(** ** Predicates and sample data used by the statements *)

(** The callback [values_received] can run to completion: the window object
    knows its canvas and its watermark item, and that item is not an image
    (Tk would refuse the text options).  This is the situation in which the
    "Insert a text" button exists. *)
Definition callback_ready (w : World) : bool :=
  match canvas (self w), text_watermarker (self w) with
  | bound c, bound t =>
      match widgets w !! c with
      | Some {| kind := CanvasW cv |} =>
          match item_at cv t with
          | Some (image_item _ _ _) => false
          | _ => true
          end
      | _ => false
      end
  | _, _ => false
  end.

(** The callback invocations of window [d] recorded in a trace. *)
Fixpoint calls_of (d : nat) (tr : list effect)
    : list (string * option string * string * string) :=
  match tr with
  | [] => []
  | callback_called d' t c s f :: tr' =>
      if bool_decide (d' = d) then (t, c, s, f) :: calls_of d tr'
      else calls_of d tr'
  | _ :: tr' => calls_of d tr'
  end.

(** Events of the dialogs, as opposed to the four buttons of the main
    window. *)
Definition dialog_event (e : event) : bool :=
  match e with
  | SelectFile _ | InsertText | SaveImage _ | Return => false
  | _ => true
  end.

Definition all_filled (tm : TextMenu) : bool :=
  bool_decide (spinbox tm ≠ "") && bool_decide (color_box tm ≠ "")
  && bool_decide (text_entry tm ≠ "") && bool_decide (font_box tm ≠ "").

(** A text made of white space only. *)
Fixpoint only_whitespace (s : string) : bool :=
  match s with
  | EmptyString => true
  | String a s' => is_space a && only_whitespace s'
  end.

(** What makes a recorded call a legitimate one: it carries a text, a size
    and a family that are not empty, and the code of a colour whose name is
    not empty. *)
Definition valid_call (c : string * option string * string * string) : Prop :=
  let '(text, color, size, family) := c in
  text ≠ "" ∧ size ≠ "" ∧ family ≠ "" ∧
  ∃ name, name ≠ "" ∧ color = COLORS_AND_CODE !! name.

(** The invariant of a dialog's life: the callback can run, and window [d]
    has either not called yet or has called once and is gone. *)
Definition lifetime_inv (d : nat) (w : World) : Prop :=
  callback_ready w = true ∧
  Forall valid_call (calls_of d (out w)) ∧
  (calls_of d (out w) = [] ∨
   (length (calls_of d (out w)) = 1%nat ∧ dialog_open d w = false)).

(** *** A sample installation

    The program sits in [/app] next to its icon; one photograph is at hand.
    The font resource [path_to_font.ttf] is not shipped with the program, so
    on [no_font] loading it raises; [with_font] is the same machine with the
    resource installed, [no_freetype] the same with an imaging library that
    cannot load any font file.  There is no directory [/missing], so no file
    can be opened in it. *)

Definition demo_abspath (p : string) : string :=
  match p with
  | String "/" _ => p
  | _ => "/app/" +:+ p
  end.

Definition demo_open_fails (files : gmap string file) (p : string) : bool :=
  String.prefix "/missing/" p.

Definition no_font : Platform :=
  {| abspath := demo_abspath;
     open_fails := demo_open_fails;
     truetype_raises := λ _ _ _, Some IOError;
     save_raises := λ _ _, None |}.

Definition with_font : Platform :=
  {| abspath := demo_abspath;
     open_fails := demo_open_fails;
     truetype_raises := λ _ _ _, None;
     save_raises := λ _ _, None |}.

Definition no_freetype : Platform :=
  {| abspath := demo_abspath;
     open_fails := demo_open_fails;
     truetype_raises := λ _ _ _, Some ImportError;
     save_raises := λ _ _, None |}.

Definition icon : Image := raster 64 64 [].
Definition cat : Image := raster 800 600 [].

Definition demo_fs : gmap string file :=
  list_to_map
    [ ("/app/images/watermaker_icon.png", image_file icon);
      ("/photos/cat.png", image_file cat) ].

(** The landing screen right after launch, and the editing screen after
    choosing the photograph. *)
Definition launched (P : Platform) : World := (launch P demo_fs).2.

Definition editing (P : Platform) : World :=
  run P [SelectFile "/photos/cat.png"] (launched P).

(** The editing screen after one watermark has been confirmed in dialog 0. *)
Definition watermarked (P : Platform) (size : Z) (family : string) : World :=
  run P
    [ InsertText; EnterText 0 "hello"; PickColor 0 "Red"; PickSize 0 size;
      PickFont 0 family; ApplyChanges 0 ]
    (editing P).

(** The editing screen with dialog 0 open and its four inputs filled, not yet
    confirmed. *)
Definition dialog_filled (P : Platform) (text : string) : World :=
  run P
    [ InsertText; EnterText 0 text; PickColor 0 "Red"; PickSize 0 40;
      PickFont 0 "Arial" ]
    (editing P).

Definition filled_inputs (text : string) : TextMenu :=
  {| callback := Some bound_values_received; text_entry := text;
     color_box := "Red"; spinbox := "40"; font_box := "Arial";
     destroyed := false |}.

(** Back on the landing screen after choosing the photograph and pressing
    "Return". *)
Definition returned (P : Platform) : World :=
  run P [SelectFile "/photos/cat.png"; Return] (launched P).

(** The text of canvas item [t], as [itemcget] reads it. *)
Definition overlay_text (cv : Canvas) (t : nat) : string :=
  match item_at cv t with
  | Some (text_item _ _ _ text _ _) => text
  | _ => ""
  end.

(** The picture [save_image] composes from the re-opened original. *)
Definition composed (orig : Image) (text : string) (fill : option string)
    (font : Font) : Image :=
  draw_text (300, 500) text fill font "ms" (resize (600, 600) orig).

(** The size a font was loaded at; the default font is not given one. *)
Definition loaded_size (f : Font) : option Z :=
  match f with
  | FreeTypeFont _ n => Some n
  | DefaultFont => None
  end.

Definition font_of (im : Image) : option Font :=
  match im with
  | draw_text _ _ _ font _ _ => Some font
  | _ => None
  end.

(** The canvas of a world, when the window object has one. *)
Definition canvas_of (w : World) : Canvas :=
  match canvas (self w) with
  | bound c =>
      match widgets w !! c with
      | Some {| kind := CanvasW cv |} => cv
      | _ => {| cv_width := 0; cv_height := 0; cv_bg := None;
                cv_highlightthickness := None; items := [] |}
      end
  | unset => {| cv_width := 0; cv_height := 0; cv_bg := None;
                cv_highlightthickness := None; items := [] |}
  end.

Definition landing_grid : option grid_opts :=
  Some {| row := 0; column := 0; columnspan := 2; padx := 0; pady := 0 |}.

(** The widget an attribute of the window refers to. *)
Definition widget_of (a : attr nat) (w : World) : option widget :=
  match a with
  | bound r => widgets w !! r
  | unset => None
  end.

(** The session state as the specification lists it: the screen flag, the
    image path, the preview, and the four watermark parameters. *)
Definition session_state (w : World) :
    bool * attr string * attr photo * attr string * attr (option string)
    * attr string * attr string :=
  (in_principal (self w), search_file (self w), new_image (self w),
   watermark_text (self w), text_color (self w), font_size (self w),
   font_value (self w)).

(** The widgets the grid currently manages, in creation order. *)
Definition shown (w : World) : list widget :=
  filter (λ x, is_Some (grid_info x)) (widgets w).

(** *** Worlds that differ in the font family only

    [world_sim] relates two worlds that agree on everything except the places
    where a font family is kept: the attribute [font_value], the family of
    the font of a canvas text item, the content of a dialog's font box (which
    must be filled in both worlds or empty in both) and the family recorded
    with a callback invocation. *)

Definition font_sim (f1 f2 : tk_font) : Prop :=
  f1.1.2 = f2.1.2 ∧ f1.2 = f2.2.

Inductive item_sim : canvas_item → canvas_item → Prop :=
| text_sim x y wd text fill ft1 ft2 :
    option_Forall2 font_sim ft1 ft2 →
    item_sim (text_item x y wd text fill ft1) (text_item x y wd text fill ft2)
| image_sim x y ph :
    item_sim (image_item x y ph) (image_item x y ph).

Definition canvas_sim (c1 c2 : Canvas) : Prop :=
  cv_width c1 = cv_width c2 ∧ cv_height c1 = cv_height c2 ∧
  cv_bg c1 = cv_bg c2 ∧ cv_highlightthickness c1 = cv_highlightthickness c2 ∧
  Forall2 (option_Forall2 item_sim) (items c1) (items c2).

Inductive kind_sim : widget_kind → widget_kind → Prop :=
| canvas_kind_sim c1 c2 : canvas_sim c1 c2 → kind_sim (CanvasW c1) (CanvasW c2)
| button_kind_sim t h c wd : kind_sim (Button t h c wd) (Button t h c wd)
| label_kind_sim t fg ft : kind_sim (Label t fg ft) (Label t fg ft).

Definition widget_sim (x1 x2 : widget) : Prop :=
  kind_sim (kind x1) (kind x2) ∧ grid_info x1 = grid_info x2.

Definition menu_sim (d1 d2 : TextMenu) : Prop :=
  callback d1 = callback d2 ∧ text_entry d1 = text_entry d2 ∧
  color_box d1 = color_box d2 ∧ spinbox d1 = spinbox d2 ∧
  destroyed d1 = destroyed d2 ∧
  (font_box d1 = "" ↔ font_box d2 = "").

Inductive effect_sim : effect → effect → Prop :=
| call_sim d t c s f1 f2 :
    effect_sim (callback_called d t c s f1) (callback_called d t c s f2)
| same_effect e : effect_sim e e.

Definition self_sim (s1 s2 : ImageWindowMaker) : Prop :=
  set_font_value unset s1 = set_font_value unset s2.

Record world_sim (w1 w2 : World) : Prop := {
  sim_self : self_sim (self w1) (self w2);
  sim_in_use : in_use w1 = in_use w2;
  sim_widgets : Forall2 widget_sim (widgets w1) (widgets w2);
  sim_menus : Forall2 menu_sim (text_menus w1) (text_menus w2);
  sim_grab : grab w1 = grab w2;
  sim_fs : fs w1 = fs w2;
  sim_out : Forall2 effect_sim (out w1) (out w2)
}.

Definition outcome_sim {A} (R : A → A → Prop) (o1 o2 : result A * World) : Prop :=
  match o1.1, o2.1 with
  | Ok a1, Ok a2 => R a1 a2
  | Raise e1, Raise e2 => e1 = e2
  | _, _ => False
  end ∧ world_sim o1.2 o2.2.

(** The same for a command run inside a canvas. *)
Definition canvas_outcome_sim {A} (R : A → A → Prop)
    (o1 o2 : result A * Canvas) : Prop :=
  match o1.1, o2.1 with
  | Ok a1, Ok a2 => R a1 a2
  | Raise e1, Raise e2 => e1 = e2
  | _, _ => False
  end ∧ canvas_sim o1.2 o2.2.

(** Two computations that, from related worlds, end the same way in related
    worlds. *)
Definition rel_M {A} (R : A → A → Prop) (m1 m2 : M A) : Prop :=
  ∀ w1 w2, world_sim w1 w2 → outcome_sim R (m1 w1) (m2 w2).

(** Two events that are the same, or the choice of two families in the same
    font box. *)
Inductive event_sim : event → event → Prop :=
| same_event e : event_sim e e
| other_family d f1 f2 :
    f1 ∈ FONTS → f2 ∈ FONTS → event_sim (PickFont d f1) (PickFont d f2).

(** A computation that leaves one component of the world as it found it,
    however it ends. *)
Definition keeps {A B} (proj : World → B) (m : M A) : Prop :=
  ∀ w, proj (m w).2 = proj w.

(** The four watermark attributes of the window. *)
Definition watermark_attrs (w : World) :
    attr string * attr (option string) * attr string * attr string :=
  (watermark_text (self w), text_color (self w), font_size (self w),
   font_value (self w)).

(** What the read-only inputs of a dialog can hold: nothing yet, or one of
    the values listed for them. *)
Definition input_ok (tm : TextMenu) : Prop :=
  (color_box tm = "" ∨ is_Some (COLORS_AND_CODE !! color_box tm)) ∧
  (spinbox tm = "" ∨ ∃ n : Z, (spinbox_from ≤ n ≤ spinbox_to)%Z ∧ spinbox tm = pretty n) ∧
  (font_box tm = "" ∨ font_box tm ∈ FONTS).

(** The stored watermark: nothing yet, or a text that is not empty, the code
    of a palette colour, a size of the spinbox's range and a listed family. *)
Definition stored_ok (a : attr string * attr (option string) * attr string * attr string)
    : Prop :=
  a = (unset, unset, unset, unset) ∨
  ∃ (text name hex : string) (n : Z) (family : string),
    a = (bound text, bound (Some hex), bound (pretty n), bound family) ∧
    text ≠ "" ∧ COLORS_AND_CODE !! name = Some hex ∧
    (spinbox_from ≤ n ≤ spinbox_to)%Z ∧ py_int (pretty n) = Some n ∧
    family ∈ FONTS.

(** A computation that maintains a property of the world, however it ends. *)
Definition preserves {A} (I : World → Prop) (m : M A) : Prop :=
  ∀ w, I w → I (m w).2.

(** Window [d] exists and has been destroyed. *)
Definition gone (d : nat) (w : World) : Prop :=
  ∃ tm, text_menus w !! d = Some tm ∧ destroyed tm = true.

(** *** The shape the widget store keeps

    An attribute has been assigned; a button with command [c] is shown at
    index [i]; one of the two editing buttons "Insert a text" and "Save
    Image" exists, shown or not; the only image item a canvas may hold is its
    second item, the logo. *)
Definition is_bound {A} (a : attr A) : Prop := ∃ v, a = bound v.

Definition shown_at (c : command) (ws : list widget) (i : nat) : Prop :=
  ∃ t h wd g, ws !! i = Some {| kind := Button t h c wd; grid_info := Some g |}.

Definition has_editing (ws : list widget) : Prop :=
  ∃ i t h c wd g,
    ws !! i = Some {| kind := Button t h c wd; grid_info := g |} ∧
    (c = cmd_open_text_settings ∨ c = cmd_save_image).

Definition canvas_at (ws : list widget) (c : nat) (cv : Canvas) : Prop :=
  ∃ g, ws !! c = Some {| kind := CanvasW cv; grid_info := g |}.

Definition only_logo (cv : Canvas) : Prop :=
  ∀ id x y ph, item_at cv id = Some (image_item x y ph) → id = 2%nat.

(** The second item of the canvas is an image: the logo is in place. *)
Definition logo_in_place (cv : Canvas) : Prop :=
  ∃ x y ph, item_at cv 2 = Some (image_item x y ph).

(** The canvas while [menu_start] builds it: [n] items, none an image. *)
Definition fresh_canvas (n : nat) (cv : Canvas) : Prop :=
  length (items cv) = n ∧ ∀ id x y ph, item_at cv id ≠ Some (image_item x y ph).

(** The button of the main window that runs command [c], as the window
    object refers to it. *)
Definition button_ref (o : ImageWindowMaker) (c : command) : attr nat :=
  match c with
  | cmd_change_menu => select_file_button o
  | cmd_open_text_settings => insert_text_button o
  | cmd_save_image => save_button o
  | cmd_return_to_principal => return_button o
  end.

(** The three buttons of the editing screen. *)
Definition editing_button (x : widget) : bool :=
  match kind x with
  | Button _ _ c _ => negb (bool_decide (c = cmd_change_menu))
  | _ => false
  end.

(** The invariant of the main window, on the parts of the world it depends
    on.  The canvas attribute refers to a canvas of the given [shape], with
    the logo in place whenever "Select File" is shown; the
    watermark item, once created, has an id of 3 or more, and it exists, and
    a file has been [chosen], as soon as an editing button or a dialog does;
    "Select File" is never shown together with a button of the editing
    screen; a button that is shown is the one the window refers to ([ref]);
    "Return" is only shown together with "Insert a text" and "Save Image";
    while "Select File" is shown the [landing] attributes are assigned,
    while "Return" is shown the [editing] ones are.
    In the middle of a handler some of this is suspended or sharpened:
    [sel = false] and [ret = false] say that no "Select File" button, no
    button of the editing screen is shown at all; [dok = false] suspends the
    clause on the editing buttons. *)
Record stage (landing editing chosen : Prop) (sel ret dok : bool)
    (shape : Canvas → Prop) (cnv tw : attr nat) (ref : command → attr nat)
    (ws : list widget) (tms : list TextMenu) : Prop := {
  st_canvas : ∃ c cv, cnv = bound c ∧ canvas_at ws c cv ∧ shape cv ∧
    ((∃ i, shown_at cmd_change_menu ws i) → logo_in_place cv);
  st_item : ∀ t, tw = bound t → (3 ≤ t)%nat;
  st_editing : dok = true → has_editing ws → (∃ t, tw = bound t) ∧ chosen;
  st_menus : tms ≠ [] → ∃ t, tw = bound t;
  st_excl : ∀ c i j, c ≠ cmd_change_menu →
                     shown_at cmd_change_menu ws i → shown_at c ws j → False;
  st_ref : ∀ c i, shown_at c ws i → ref c = bound i;
  st_trio : (∃ j, shown_at cmd_return_to_principal ws j) →
            (∃ i, shown_at cmd_open_text_settings ws i) ∧
            (∃ i, shown_at cmd_save_image ws i);
  st_landing : (∃ i, shown_at cmd_change_menu ws i) → landing;
  st_buttons : (∃ j, shown_at cmd_return_to_principal ws j) → editing;
  st_no_select : sel = false → ∀ i, ¬ shown_at cmd_change_menu ws i;
  st_no_editing : ret = false →
                  ∀ c i, c ≠ cmd_change_menu → ¬ shown_at c ws i
}.

(** What [change_menu] relies on on the landing screen: the flag is set, the
    title and the logo are the first two items of the canvas, the credit
    label exists; and on the editing screen: the flag is cleared and the
    buttons [return_to_principal] hides exist. *)
Definition landing_attrs (o : ImageWindowMaker) : Prop :=
  in_principal o = true ∧ app_title o = bound 1%nat ∧ logo o = bound 2%nat ∧
  is_bound (credit_label o).

Definition editing_attrs (o : ImageWindowMaker) : Prop :=
  in_principal o = false ∧
  is_bound (insert_text_button o) ∧ is_bound (save_button o).

Definition staged (sel ret dok : bool) (shape : Canvas → Prop) (w : World) : Prop :=
  stage (landing_attrs (self w)) (editing_attrs (self w))
    (is_bound (search_file (self w))) sel ret dok shape
    (canvas (self w)) (text_watermarker (self w)) (button_ref (self w))
    (widgets w) (text_menus w).

Definition sound (w : World) : Prop := staged true true true only_logo w.

(** What the event loop keeps true from launch on: the window is [sound],
    the four watermark attributes are assigned together, and every dialog
    has either not called back yet, or has called once, with arguments from
    four filled inputs, and is gone. *)
Definition steady (w : World) : Prop :=
  sound w ∧
  (Forall input_ok (text_menus w) ∧ stored_ok (watermark_attrs w)) ∧
  ∀ d, Forall valid_call (calls_of d (out w)) ∧
       (calls_of d (out w) = [] ∨
        (length (calls_of d (out w)) = 1%nat ∧ gone d w)).

(** The three widgets [menu_start] builds, as it leaves them, when the icon
    holds the image [ico]. *)
Definition icon_path : string := "images/watermaker_icon.png".

Definition landing_canvas (ico : Image) : Canvas :=
  {| cv_width := 600; cv_height := 600; cv_bg := Some FRONT_COLOR;
     cv_highlightthickness := Some 0;
     items :=
       [ Some (text_item 300 100 None "Add a Watermark" None
                 (Some ("TkMenuFont", "30", "bold")));
         Some (image_item 300 300 (PhotoImage icon_path ico)) ] |}.

Definition landing_widgets (ico : Image) : list widget :=
  [ {| kind := CanvasW (landing_canvas ico);
       grid_info := Some {| row := 0; column := 0; columnspan := 2;
                            padx := 0; pady := 0 |} |};
    {| kind := Button "Select File" 0 cmd_change_menu 10;
       grid_info := Some {| row := 1; column := 0; columnspan := 2;
                            padx := 0; pady := 15 |} |};
    {| kind := Label "Desktop App Made by Gerardo-HG" "white"
                 ("Ariel", "20", "bold");
       grid_info := Some {| row := 2; column := 0; columnspan := 2;
                            padx := 0; pady := 25 |} |} ].

(** The file at path [p] can be read as an image. *)
Definition readable (P : Platform) (w : World) (p : string) : Prop :=
  ∃ im, fs w !! abspath P p = Some (image_file im).

(** The imaging library does not raise [AttributeError] of its own. *)
Definition library_errors (P : Platform) : Prop :=
  (∀ files path n name, truetype_raises P files path n ≠ Some (AttributeError name)) ∧
  (∀ im path name, save_raises P im path ≠ Some (AttributeError name)).

(** * Properties *)

(** ** Reasoning about monadic code *)

Ltac break_world w :=
  let s := fresh "s" in
  destruct w as [s ? ? ? ? ? ?]; destruct s; cbn in *.

Ltac munfold :=
  unfold mbind, M_bind, mret, M_ret, setattr, modify, gets, getattr, raise,
    emit; cbn.

#[global] Arguments COLORS_AND_CODE : simpl never.
#[global] Arguments callback_ready : simpl never.
#[global] Arguments missing_values_message : simpl never.

Ltac mcases := repeat (case_match; simplify_eq; cbn in * ).

(** Decide the closed tests of a goal by computation. *)
Ltac decide_closed :=
  repeat match goal with
    | |- context [@bool_decide ?Q ?D] =>
        let b := eval vm_compute in (@bool_decide Q D) in
        match b with
        | true => change (@bool_decide Q D) with true
        | false => change (@bool_decide Q D) with false
        end
    end.

Lemma bind_ok {A B} (m : M A) (f : A → M B) w a w' :
  m w = (Ok a, w') → (m ≫= f) w = f a w'.
Proof. intros H. unfold mbind, M_bind. by rewrite H. Qed.

Lemma bind_raise {A B} (m : M A) (f : A → M B) w e w' :
  m w = (Raise e, w') → (m ≫= f) w = (Raise e, w').
Proof. intros H. unfold mbind, M_bind. by rewrite H. Qed.

(** ** Canvas commands *)

Lemma with_canvas_run {A} r (f : Canvas → result A * Canvas) w c g :
  widgets w !! r = Some {| kind := CanvasW c; grid_info := g |} →
  with_canvas r f w =
    ((f c).1,
     set_widgets (<[r := {| kind := CanvasW (f c).2; grid_info := g |}]> (widgets w)) w).
Proof.
  intros H. unfold with_canvas. rewrite H. by destruct (f c).
Qed.

Lemma with_canvas_fail {A} r (f : Canvas → result A * Canvas) w :
  (∀ c g, widgets w !! r ≠ Some {| kind := CanvasW c; grid_info := g |}) →
  with_canvas r f w = (Raise TclError, w).
Proof.
  intros H. unfold with_canvas.
  destruct (widgets w !! r) as [[[c| |] g]|] eqn:E; try reflexivity.
  by destruct (H c g).
Qed.

Lemma with_canvas_frame {A} r (f : Canvas → result A * Canvas) w :
  let w' := (with_canvas r f w).2 in
  self w' = self w ∧ in_use w' = in_use w ∧ text_menus w' = text_menus w ∧
  grab w' = grab w ∧ fs w' = fs w ∧ out w' = out w.
Proof.
  unfold with_canvas.
  destruct (widgets w !! r) as [[[c| |] g]|]; cbn; try done.
  by destruct (f c).
Qed.

Lemma item_at_set c id it old :
  item_at c id = Some old →
  item_at (set_items (<[pred id := Some it]> (items c)) c) id = Some it.
Proof.
  destruct id as [|i]; cbn; [done|].
  intros H. destruct (items c !! i) as [o|] eqn:E; [|done].
  rewrite list_lookup_insert_eq; [done|]. by eapply lookup_lt_Some.
Qed.

(** ** [values_received] *)

Lemma values_received_self a b c d w :
  self (values_received a b c d w).2 =
  set_font_value (bound d) (set_font_size (bound c)
    (set_text_color (bound b) (set_watermark_text (bound a) (self w)))).
Proof.
  break_world w. unfold values_received, itemconfig_text, with_canvas. munfold.
  mcases; reflexivity.
Qed.

Lemma values_received_frame a b c d w :
  let w' := (values_received a b c d w).2 in
  in_use w' = in_use w ∧ text_menus w' = text_menus w ∧ grab w' = grab w ∧
  fs w' = fs w ∧ out w' = out w.
Proof.
  break_world w. unfold values_received, itemconfig_text, with_canvas. munfold.
  mcases; done.
Qed.

Lemma values_received_ok a b c d w :
  callback_ready w = true → (values_received a b c d w).1 = Ok tt.
Proof.
  unfold callback_ready.
  break_world w. unfold values_received, itemconfig_text, with_canvas. munfold.
  intros H. mcases; done.
Qed.

Lemma values_received_ready a b c d w :
  callback_ready w = true →
  callback_ready (values_received a b c d w).2 = true.
Proof.
  unfold callback_ready.
  destruct w as [[inp cnv atl aim lg sb cl sf tw ni ib svb rb twin wt tc fsz fv]
                 iu ws tms gr files tr]; cbn in *.
  destruct cnv as [|r]; [done|].
  destruct tw as [|t]; [done|].
  destruct (ws !! r) as [[[cv| |] g]|] eqn:Ew; try done.
  assert (Hlt : (r < length ws)%nat) by by eapply lookup_lt_Some.
  intros H. unfold values_received, itemconfig_text. munfold.
  erewrite with_canvas_run by (cbn; exact Ew).
  cbn. rewrite list_lookup_insert_eq by done.
  destruct (item_at cv t) as [[x y wd tx fl ft | x y ph]|] eqn:Ei; cbn.
  - destruct t as [|i]; [done|]. cbn in *.
    destruct (items cv !! i) as [o|] eqn:Eo; [|done].
    rewrite list_lookup_insert_eq by by eapply lookup_lt_Some.
    done.
  - done.
  - by rewrite Ei.
Qed.

(** ** [TextMenu] *)

Lemma apply_changes_blank w d tm :
  text_menus w !! d = Some tm → destroyed tm = false →
  all_filled tm = false →
  apply_changes d w =
    (Ok tt, set_out (out w ++ [showinfo "Missing Values" missing_values_message]) w).
Proof.
  intros Hd Ha Hf. unfold apply_changes. munfold.
  rewrite Hd, Ha. unfold all_filled in Hf. by rewrite Hf.
Qed.

Lemma apply_changes_gone w d :
  dialog_open d w = false → apply_changes d w = (Raise TclError, w).
Proof.
  unfold dialog_open, apply_changes. munfold.
  destruct (text_menus w !! d) as [tm|]; [|done].
  by destruct (destroyed tm).
Qed.

(** The world after a confirmation with all inputs filled, when the callback
    can run. *)
Lemma apply_changes_filled w d tm :
  text_menus w !! d = Some tm → destroyed tm = false →
  all_filled tm = true →
  callback tm = Some bound_values_received →
  callback_ready w = true →
  ∃ w', apply_changes d w = (Ok tt, w') ∧
    out w' = (out w ++ [callback_called d (text_entry tm)
                          (COLORS_AND_CODE !! color_box tm) (spinbox tm) (font_box tm)])%list ∧
    text_menus w' = alter (set_destroyed true) d (text_menus w) ∧
    self w' =
      set_font_value (bound (font_box tm)) (set_font_size (bound (spinbox tm))
        (set_text_color (bound (COLORS_AND_CODE !! color_box tm))
          (set_watermark_text (bound (text_entry tm)) (self w)))) ∧
    fs w' = fs w ∧ in_use w' = in_use w ∧
    callback_ready w' = true.
Proof.
  intros Hd Ha Hf Hcb Hr.
  set (ev := callback_called d (text_entry tm) (COLORS_AND_CODE !! color_box tm)
               (spinbox tm) (font_box tm)).
  set (w1 := set_out (out w ++ [ev]) w).
  assert (Hr1 : callback_ready w1 = true) by exact Hr.
  pose proof (values_received_ok (text_entry tm) (COLORS_AND_CODE !! color_box tm)
                (spinbox tm) (font_box tm) w1 Hr1) as Hok.
  pose proof (values_received_ready (text_entry tm) (COLORS_AND_CODE !! color_box tm)
                (spinbox tm) (font_box tm) w1 Hr1) as Hrd.
  pose proof (values_received_self (text_entry tm) (COLORS_AND_CODE !! color_box tm)
                (spinbox tm) (font_box tm) w1) as Hself.
  pose proof (values_received_frame (text_entry tm) (COLORS_AND_CODE !! color_box tm)
                (spinbox tm) (font_box tm) w1) as (Hu & Htm & Hg & Hfs & Hout).
  destruct (values_received (text_entry tm) (COLORS_AND_CODE !! color_box tm)
              (spinbox tm) (font_box tm) w1) as [r w2] eqn:E.
  cbn in *. subst r.
  eexists. split.
  - unfold apply_changes. munfold. rewrite Hd, Ha.
    unfold all_filled in Hf. rewrite Hf, Hcb. cbn.
    fold ev. fold w1. rewrite E. cbn. reflexivity.
  - cbn. repeat split; try done. by rewrite Htm.
Qed.

(** The same confirmation, as the run of the callback on the world in which
    the call has been recorded, followed by [close_window]. *)
Lemma apply_changes_runs_callback w d tm :
  text_menus w !! d = Some tm → destroyed tm = false →
  all_filled tm = true →
  callback tm = Some bound_values_received →
  callback_ready w = true →
  ∃ w1,
    values_received (text_entry tm) (COLORS_AND_CODE !! color_box tm)
      (spinbox tm) (font_box tm)
      (set_out (out w ++ [callback_called d (text_entry tm)
                            (COLORS_AND_CODE !! color_box tm) (spinbox tm)
                            (font_box tm)]) w) = (Ok tt, w1) ∧
    apply_changes d w = (Ok tt, (close_window d w1).2).
Proof.
  intros Hd Ha Hf Hcb Hr.
  set (ev := callback_called d (text_entry tm) (COLORS_AND_CODE !! color_box tm)
               (spinbox tm) (font_box tm)).
  set (w1 := set_out (out w ++ [ev]) w).
  assert (Hr1 : callback_ready w1 = true) by exact Hr.
  pose proof (values_received_ok (text_entry tm) (COLORS_AND_CODE !! color_box tm)
                (spinbox tm) (font_box tm) w1 Hr1) as Hok.
  destruct (values_received (text_entry tm) (COLORS_AND_CODE !! color_box tm)
              (spinbox tm) (font_box tm) w1) as [r w2] eqn:E.
  cbn in *. subst r. exists w2. split; [done|].
  unfold apply_changes. munfold. rewrite Hd, Ha.
  unfold all_filled in Hf. rewrite Hf, Hcb. cbn.
  fold ev. fold w1. rewrite E. reflexivity.
Qed.

Lemma apply_changes_unregistered w d tm :
  text_menus w !! d = Some tm → destroyed tm = false →
  all_filled tm = true → callback tm = None →
  apply_changes d w = close_window d w.
Proof.
  intros Hd Ha Hf Hcb. unfold apply_changes. munfold.
  rewrite Hd, Ha. unfold all_filled in Hf. by rewrite Hf, Hcb.
Qed.

Lemma callback_ready_ext w w' :
  self w' = self w → widgets w' = widgets w →
  callback_ready w' = callback_ready w.
Proof. unfold callback_ready. by intros -> ->. Qed.

Lemma dialog_open_alter_ne d d' f w :
  d ≠ d' →
  dialog_open d (set_text_menus (alter f d' (text_menus w)) w) = dialog_open d w.
Proof.
  intros Hne. unfold dialog_open. cbn.
  by rewrite list_lookup_alter_ne.
Qed.

Lemma dialog_open_alter_keep d d' f w :
  (∀ tm, destroyed (f tm) = destroyed tm) →
  dialog_open d (set_text_menus (alter f d' (text_menus w)) w) = dialog_open d w.
Proof.
  intros Hf. destruct (decide (d = d')) as [->|Hne].
  - unfold dialog_open. cbn. rewrite list_lookup_alter_eq.
    destruct (text_menus w !! d') as [tm|]; cbn; [by rewrite Hf|done].
  - by apply dialog_open_alter_ne.
Qed.

Lemma dialog_open_destroy d w :
  dialog_open d (set_text_menus (alter (set_destroyed true) d (text_menus w)) w) = false.
Proof.
  unfold dialog_open. cbn. rewrite list_lookup_alter_eq.
  by destruct (text_menus w !! d).
Qed.

Lemma calls_of_snoc d tr e :
  calls_of d (tr ++ [e]) = (calls_of d tr ++ calls_of d [e])%list.
Proof.
  induction tr as [|x tr IH]; [done|].
  destruct x; cbn; try done.
  case_bool_decide; cbn; by rewrite IH.
Qed.

Lemma all_filled_fields tm :
  all_filled tm = true →
  spinbox tm ≠ "" ∧ color_box tm ≠ "" ∧ text_entry tm ≠ "" ∧ font_box tm ≠ "".
Proof.
  unfold all_filled. rewrite !andb_true_iff, !bool_decide_eq_true. tauto.
Qed.

Lemma edit_step d' f d w :
  (∀ tm, destroyed (f tm) = destroyed tm) →
  lifetime_inv d w →
  lifetime_inv d (set_text_menus (alter f d' (text_menus w)) w).
Proof.
  intros Hf (Hr & Hv & Hc). split; [|split].
  - by rewrite <- Hr.
  - done.
  - destruct Hc as [Hc|[Hc Hd]]; [by left|right]. split; [done|].
    by rewrite dialog_open_alter_keep.
Qed.

Lemma close_step d' d w :
  lifetime_inv d w → lifetime_inv d (close_window d' w).2.
Proof.
  intros (Hr & Hv & Hc). unfold close_window. munfold. split; [|split].
  - by rewrite <- Hr.
  - done.
  - destruct Hc as [Hc|[Hc Hd]]; [by left|right]. split; [done|].
    destruct (decide (d = d')) as [->|Hne].
    + apply dialog_open_destroy.
    + unfold dialog_open in *. cbn. by rewrite list_lookup_alter_ne.
Qed.

Lemma apply_step d' d w :
  dialog_open d' w = true →
  lifetime_inv d w →
  ∃ w', apply_changes d' w = (Ok tt, w') ∧ lifetime_inv d w'.
Proof.
  intros Hopen Hinv. pose proof Hinv as (Hr & Hv & Hc).
  unfold dialog_open in Hopen.
  destruct (text_menus w !! d') as [tm|] eqn:Hd; [|done].
  destruct (destroyed tm) eqn:Ha; [done|].
  destruct (all_filled tm) eqn:Hf.
  - destruct (callback tm) as [[]|] eqn:Hcb.
    + destruct (apply_changes_filled w d' tm Hd Ha Hf Hcb Hr)
        as (w' & Hrun & Hout & Htm & _ & _ & _ & Hr').
      exists w'. split; [done|].
      apply all_filled_fields in Hf as (Hs & Hcol & Ht & Hfm).
      unfold lifetime_inv. rewrite Hout, calls_of_snoc. cbn.
      destruct (decide (d' = d)) as [->|Hne].
      * rewrite bool_decide_eq_true_2 by done.
        destruct Hc as [Hc|[_ Hclosed]].
        -- rewrite Hc. cbn. split; [done|]. split.
           ++ repeat constructor; try done. by exists (color_box tm).
           ++ right. split; [done|].
              unfold dialog_open. rewrite Htm, list_lookup_alter_eq, Hd. done.
        -- unfold dialog_open in Hclosed. by rewrite Hd, Ha in Hclosed.
      * rewrite bool_decide_eq_false_2 by done. rewrite app_nil_r.
        split; [done|]. split; [done|].
        destruct Hc as [Hc|[Hc Hclosed]]; [by left|right]. split; [done|].
        unfold dialog_open in *. rewrite Htm, list_lookup_alter_ne; done.
    + rewrite (apply_changes_unregistered w d' tm) by done.
      exists (close_window d' w).2. split; [done|]. by apply close_step.
  - rewrite (apply_changes_blank w d' tm) by done.
    eexists. split; [done|].
    unfold lifetime_inv. cbn. rewrite calls_of_snoc. cbn. rewrite app_nil_r.
    split; [by rewrite <- Hr|]. split; [done|].
    destruct Hc as [Hc|[Hc Hclosed]]; [by left|by right].
Qed.

Lemma dialog_event_step P d w e :
  dialog_event e = true → lifetime_inv d w → lifetime_inv d (dispatch P w e).
Proof.
  intros He Hinv. unfold dispatch.
  destruct (enabled e w) eqn:Hen; [|done].
  destruct e; try done; cbn in *.
  - by apply edit_step.
  - by apply edit_step.
  - by apply edit_step.
  - by apply edit_step.
  - destruct (apply_step d0 d w) as (w' & -> & Hinv'); done.
  - by apply close_step.
Qed.

Lemma dialog_events_run P d es w :
  Forall (λ e, dialog_event e = true) es →
  lifetime_inv d w → lifetime_inv d (run P es w).
Proof.
  intros Hes. revert w. induction Hes as [|e es He _ IH]; intros w Hinv; [done|].
  cbn. apply IH. by apply dialog_event_step.
Qed.

Lemma all_filled_false tm :
  spinbox tm = "" ∨ color_box tm = "" ∨ text_entry tm = "" ∨ font_box tm = "" →
  all_filled tm = false.
Proof.
  intros H. apply not_true_is_false. intros Hf.
  apply all_filled_fields in Hf as (Hs & Hc & Ht & Hb).
  destruct H as [H|[H|[H|H]]]; congruence.
Qed.

Lemma all_filled_true tm :
  spinbox tm ≠ "" → color_box tm ≠ "" → text_entry tm ≠ "" → font_box tm ≠ "" →
  all_filled tm = true.
Proof.
  intros. unfold all_filled. by rewrite !bool_decide_eq_true_2.
Qed.

Lemma only_callable tm cb : callback tm = Some cb → callback tm = Some bound_values_received.
Proof. by destruct cb. Qed.

(** ** The dialog's confirmation *)

(** C3.  Whatever the four inputs of an open dialog hold: if one of them is
    the empty string, [apply_changes] shows the "Missing Values" notice, calls
    nothing and leaves the world, hence the open dialog, as it was.  If none
    is empty, it records one call and runs the registered callback [cb] once,
    on the text, the code of the colour, the size and the family; the callback
    returns, the dialog is then destroyed, and the world that results is the
    one the callback left, with the dialog closed: the four values are now the
    watermark attributes of the main window.  Over any sequence of dialog
    events, a dialog that has not called yet calls at most once, and only with
    arguments from four non-empty inputs. *)
Theorem apply_changes_validates (P : Platform) (w : World) (d : nat) (tm : TextMenu)
    (cb : callable) :
  text_menus w !! d = Some tm → destroyed tm = false →
  callback tm = Some cb →
  callback_ready w = true →
  (spinbox tm = "" ∨ color_box tm = "" ∨ text_entry tm = "" ∨ font_box tm = "" →
     ∃ w', apply_changes d w = (Ok tt, w') ∧
       w' = set_out (out w ++ [showinfo "Missing Values" missing_values_message]) w ∧
       calls_of d (out w') = calls_of d (out w) ∧
       dialog_open d w' = true) ∧
  (spinbox tm ≠ "" ∧ color_box tm ≠ "" ∧ text_entry tm ≠ "" ∧ font_box tm ≠ "" →
     let color := COLORS_AND_CODE !! color_box tm in
     let called :=
       set_out (out w ++ [callback_called d (text_entry tm) color
                            (spinbox tm) (font_box tm)]) w in
     ∃ w1 w',
       call cb (text_entry tm) color (spinbox tm) (font_box tm) called = (Ok tt, w1) ∧
       apply_changes d w = (Ok tt, w') ∧
       w' = (close_window d w1).2 ∧
       out w' = (out w ++ [callback_called d (text_entry tm) color
                             (spinbox tm) (font_box tm)])%list ∧
       calls_of d (out w') =
         (calls_of d (out w) ++
            [(text_entry tm, color, spinbox tm, font_box tm)])%list ∧
       watermark_attrs w' =
         (bound (text_entry tm), bound color, bound (spinbox tm),
          bound (font_box tm)) ∧
       dialog_open d w' = false) ∧
  (∀ es, Forall (λ e, dialog_event e = true) es →
     calls_of d (out w) = [] →
     (length (calls_of d (out (run P es w))) ≤ 1)%nat ∧
     Forall valid_call (calls_of d (out (run P es w)))).
Proof.
  intros Hd Ha Hcb Hr. apply only_callable in Hcb as Hcb'.
  assert (cb = bound_values_received) as -> by by destruct cb.
  split; [|split].
  - intros Hempty. apply all_filled_false in Hempty.
    eexists. split; [by apply (apply_changes_blank w d tm)|].
    split; [done|]. cbn. split.
    + rewrite calls_of_snoc. cbn. by rewrite app_nil_r.
    + unfold dialog_open. cbn. by rewrite Hd, Ha.
  - intros (Hs & Hc & Ht & Hf) color called.
    assert (Hall : all_filled tm = true) by by apply all_filled_true.
    destruct (apply_changes_filled w d tm Hd Ha Hall Hcb' Hr)
      as (w' & Hrun & Hout & Htm & Hself & _).
    destruct (apply_changes_runs_callback w d tm Hd Ha Hall Hcb' Hr)
      as (w1 & Hcall & Hrun1).
    exists w1, w'. split; [exact Hcall|]. split; [exact Hrun|].
    split; [congruence|]. split; [exact Hout|]. split; [|split].
    + rewrite Hout, calls_of_snoc. cbn. by rewrite bool_decide_eq_true_2.
    + unfold watermark_attrs. rewrite Hself. reflexivity.
    + unfold dialog_open. by rewrite Htm, list_lookup_alter_eq, Hd.
  - intros es Hes Hnone.
    destruct (dialog_events_run P d es w Hes) as (_ & Hv & Hc).
    { split; [done|]. rewrite Hnone. split; [constructor|by left]. }
    split; [|done].
    destruct Hc as [->|[-> _]]; cbn; lia.
Qed.

(** C4.  With all four inputs filled, the callback receives the text exactly as
    entered and whatever the palette [COLORS_AND_CODE] holds for the selected
    colour name; these are also what the window stores.  For the entry "Red"
    that is [#a32424]. *)
Theorem apply_changes_passes_palette_code (w : World) (d : nat) (tm : TextMenu)
    (cb : callable) :
  text_menus w !! d = Some tm → destroyed tm = false →
  callback tm = Some cb →
  callback_ready w = true →
  spinbox tm ≠ "" → color_box tm ≠ "" → text_entry tm ≠ "" → font_box tm ≠ "" →
  ∃ w', apply_changes d w = (Ok tt, w') ∧
    calls_of d (out w') =
      (calls_of d (out w) ++
         [(text_entry tm, COLORS_AND_CODE !! color_box tm, spinbox tm, font_box tm)])%list ∧
    watermark_text (self w') = bound (text_entry tm) ∧
    text_color (self w') = bound (COLORS_AND_CODE !! color_box tm) ∧
    (color_box tm = "Red" → COLORS_AND_CODE !! color_box tm = Some "#a32424") ∧
    (∀ hex, (color_box tm, hex) ∈ map_to_list COLORS_AND_CODE →
            text_color (self w') = bound (Some hex)).
Proof.
  intros Hd Ha Hcb Hr Hs Hc Ht Hf. apply only_callable in Hcb.
  destruct (apply_changes_filled w d tm Hd Ha) as (w' & Hrun & Hout & _ & Hself & _);
    [by apply all_filled_true|done|done|].
  exists w'. split; [done|]. rewrite Hout, calls_of_snoc, Hself. cbn.
  rewrite bool_decide_eq_true_2 by done.
  repeat split; try done.
  - by intros ->.
  - intros hex Hin. apply elem_of_map_to_list in Hin. by rewrite Hin.
Qed.

(** C10.  The validation only compares with the empty string: a text made of
    white space alone, the other three inputs being filled, passes.  The
    callback is called with that text, nothing else is added to the trace (no
    notice), and the dialog is destroyed. *)
Theorem apply_changes_accepts_whitespace (w : World) (d : nat) (tm : TextMenu)
    (cb : callable) :
  text_menus w !! d = Some tm → destroyed tm = false →
  callback tm = Some cb →
  callback_ready w = true →
  only_whitespace (text_entry tm) = true → text_entry tm ≠ "" →
  spinbox tm ≠ "" → color_box tm ≠ "" → font_box tm ≠ "" →
  ∃ w', apply_changes d w = (Ok tt, w') ∧
    out w' = (out w ++ [callback_called d (text_entry tm)
                          (COLORS_AND_CODE !! color_box tm)
                          (spinbox tm) (font_box tm)])%list ∧
    watermark_text (self w') = bound (text_entry tm) ∧
    dialog_open d w' = false.
Proof.
  intros Hd Ha Hcb Hr _ Ht Hs Hc Hf. apply only_callable in Hcb.
  destruct (apply_changes_filled w d tm Hd Ha) as (w' & Hrun & Hout & Htm & Hself & _);
    [by apply all_filled_true|done|done|].
  exists w'. split; [done|]. split; [done|]. split; [by rewrite Hself|].
  unfold dialog_open. by rewrite Htm, list_lookup_alter_eq, Hd.
Qed.

Lemma apply_changes_validates_witness :
  let w := dialog_filled no_font "hello" in
  let called :=
    set_out (out w ++ [callback_called 0 "hello" (Some "#a32424") "40" "Arial"]) w in
  (spinbox (filled_inputs "hello") ≠ "" ∧ color_box (filled_inputs "hello") ≠ "" ∧
   text_entry (filled_inputs "hello") ≠ "" ∧ font_box (filled_inputs "hello") ≠ "" →
   ∃ w1 w',
     call bound_values_received "hello" (Some "#a32424") "40" "Arial" called
       = (Ok tt, w1) ∧
     apply_changes 0 w = (Ok tt, w') ∧
     w' = (close_window 0 w1).2 ∧
     out w' = (out w ++ [callback_called 0 "hello" (Some "#a32424") "40" "Arial"])%list ∧
     calls_of 0 (out w') =
       (calls_of 0 (out w) ++ [("hello", Some "#a32424", "40", "Arial")])%list ∧
     watermark_attrs w' =
       (bound "hello", bound (Some "#a32424"), bound "40", bound "Arial") ∧
     dialog_open 0 w' = false) ∧
  (∀ es, Forall (λ e, dialog_event e = true) es →
     calls_of 0 (out w) = [] →
     (length (calls_of 0 (out (run no_font es w))) ≤ 1)%nat ∧
     Forall valid_call (calls_of 0 (out (run no_font es w)))).
Proof.
  intros w called.
  refine (proj2 (apply_changes_validates no_font w 0 (filled_inputs "hello")
                   bound_values_received _ _ _ _)).
  - vm_compute. reflexivity.
  - reflexivity.
  - reflexivity.
  - vm_compute. reflexivity.
Defined.

Lemma apply_changes_passes_palette_code_witness :
  let w := dialog_filled no_font "hello" in
  let tm := filled_inputs "hello" in
  ∃ w', apply_changes 0 w = (Ok tt, w') ∧
    calls_of 0 (out w') =
      (calls_of 0 (out w) ++
         [(text_entry tm, COLORS_AND_CODE !! color_box tm, spinbox tm, font_box tm)])%list ∧
    watermark_text (self w') = bound (text_entry tm) ∧
    text_color (self w') = bound (COLORS_AND_CODE !! color_box tm) ∧
    (color_box tm = "Red" → COLORS_AND_CODE !! color_box tm = Some "#a32424") ∧
    (∀ hex, (color_box tm, hex) ∈ map_to_list COLORS_AND_CODE →
            text_color (self w') = bound (Some hex)).
Proof.
  intros w tm.
  apply (apply_changes_passes_palette_code w 0 tm bound_values_received).
  - vm_compute. reflexivity.
  - reflexivity.
  - reflexivity.
  - vm_compute. reflexivity.
  - discriminate.
  - discriminate.
  - discriminate.
  - discriminate.
Defined.

Lemma apply_changes_accepts_whitespace_witness :
  let w := dialog_filled no_font "   " in
  let tm := filled_inputs "   " in
  ∃ w', apply_changes 0 w = (Ok tt, w') ∧
    out w' = (out w ++ [callback_called 0 (text_entry tm)
                          (COLORS_AND_CODE !! color_box tm)
                          (spinbox tm) (font_box tm)])%list ∧
    watermark_text (self w') = bound (text_entry tm) ∧
    dialog_open 0 w' = false.
Proof.
  intros w tm.
  apply (apply_changes_accepts_whitespace w 0 tm bound_values_received).
  - vm_compute. reflexivity.
  - reflexivity.
  - reflexivity.
  - vm_compute. reflexivity.
  - reflexivity.
  - discriminate.
  - discriminate.
  - discriminate.
  - discriminate.
Defined.

(** ** Cancelled pickers *)

(** C7, as stated, fails: cancelling the open-file picker overwrites the
    stored image path.  Back on the landing screen the window still holds the
    path of the photograph; after a cancelled "Select File" it holds ['']. *)
Lemma cancelled_open_picker_loses_path :
  let w := returned no_font in
  enabled (SelectFile "") w = true ∧
  search_file (self w) = bound "/photos/cat.png" ∧
  change_menu no_font "" w ≠ (Ok tt, w) ∧
  search_file (self (dispatch no_font w (SelectFile ""))) = bound "".
Proof.
  vm_compute. repeat split; try reflexivity. discriminate.
Qed.

(** C7, amended.  A cancelled save picker changes nothing at all.  A
    cancelled open picker changes exactly one thing: [search_file] becomes
    ['']; the screen, the flag, the widgets, the watermark attributes, the
    files and the trace (so: no message) stay as they were. *)
Theorem cancelled_pickers (P : Platform) (w : World) :
  save_image P None w = (Ok tt, w) ∧
  change_menu P "" w = (Ok tt, set_self (set_search_file (bound "") (self w)) w).
Proof.
  split.
  - reflexivity.
  - unfold change_menu. munfold. by rewrite andb_false_r.
Qed.

(** ** The "in use" guard *)

(** [open_text_settings] never finds the guard set unless the world already
    has it set, and never sets it: with [in_use] false it always creates a
    window. *)
Lemma open_text_settings_opens (w : World) :
  in_use w = false →
  ∃ w', open_text_settings w = (Ok tt, w') ∧
    in_use w' = false ∧
    length (text_menus w') = S (length (text_menus w)) ∧
    dialog_open (length (text_menus w)) w' = true ∧
    (∀ d, dialog_open d w = true → dialog_open d w' = true).
Proof.
  intros Hu. unfold open_text_settings, TextMenu_new. munfold. rewrite Hu. cbn.
  eexists. split; [reflexivity|]. cbn. split; [done|]. split.
  - rewrite length_app. cbn. lia.
  - split.
    + unfold dialog_open. cbn. by rewrite lookup_app_r, Nat.sub_diag.
    + intros d. unfold dialog_open. cbn.
      destruct (text_menus w !! d) as [tm|] eqn:E; [|done].
      by rewrite (lookup_app_l_Some _ _ _ _ E).
Qed.

(** C1 (the code departs from it).  On the editing screen, calling
    [open_text_settings] twice in a row succeeds twice: the class attribute
    [in_use] is still false after the first call, and after the second one two
    dialogs are open. *)
Theorem second_dialog_opens :
  let w := editing no_font in
  let w1 := (open_text_settings w).2 in
  let w2 := (open_text_settings w1).2 in
  (open_text_settings w).1 = Ok tt ∧
  dialog_open 0 w1 = true ∧ in_use w1 = false ∧
  (open_text_settings w1).1 = Ok tt ∧
  w2 ≠ w1 ∧
  dialog_open 0 w2 = true ∧ dialog_open 1 w2 = true ∧
  length (text_menus w2) = 2%nat.
Proof.
  vm_compute. repeat split; try reflexivity. discriminate.
Qed.

(** ** Saving *)

(** As long as [font_size] has never been assigned, a confirmed save cannot
    succeed, whatever else the world holds: when the picker could create the
    file, it is left without an image. *)
Lemma save_image_needs_font_size (P : Platform) (w : World) (name : string) :
  font_size (self w) = unset →
  let r := save_image P (Some name) w in
  r.1 ≠ Ok tt ∧ out r.2 = out w ∧
  (open_fails P (fs w) (abspath P name) = false →
   fs r.2 !! abspath P name = Some empty_file).
Proof.
  intros Hfs. break_world w. subst.
  unfold save_image, asksaveasfile, Image_open, itemcget_text, with_canvas,
    try_except_IOError.
  munfold.
  mcases; rewrite ?lookup_insert_eq; done.
Qed.

(** C2 (the code departs from it).  Launch, choose the photograph, press
    "Save Image" and confirm a path, without ever confirming a dialog: the
    handler raises [AttributeError] on [self.font_size], whether or not the
    font resource is installed.  The chosen path holds an empty file, no
    "Image saved" message appears, and Tk reports the exception. *)
Theorem save_without_watermark_raises :
  let w := editing no_font in
  let r := save_image no_font (Some "/out/marked.png") w in
  calls_of 0 (out w) = [] ∧ font_size (self w) = unset ∧
  enabled (SaveImage (Some "/out/marked.png")) w = true ∧
  r.1 = Raise (AttributeError "font_size") ∧
  fs r.2 !! "/out/marked.png" = Some empty_file ∧
  out r.2 = [] ∧
  out (dispatch no_font w (SaveImage (Some "/out/marked.png"))) =
    [traceback (AttributeError "font_size")] ∧
  (save_image with_font (Some "/out/marked.png") (editing with_font)).1 =
    Raise (AttributeError "font_size").
Proof.
  vm_compute. repeat split; reflexivity.
Qed.

(** A confirmed save once a watermark has been stored.  The picker must be
    able to open the target, and the original must still be readable after
    the picker has created the target file, so the target must not be the
    original itself. *)
Lemma save_image_ok (P : Platform) (w : World) (name f s : string) (orig : Image)
    (c t : nat) (cv : Canvas) (g : option grid_opts) (n : Z)
    (fill : option string) (font : Font) :
  open_fails P (fs w) (abspath P name) = false →
  search_file (self w) = bound f →
  fs w !! abspath P f = Some (image_file orig) →
  abspath P f ≠ abspath P name →
  canvas (self w) = bound c →
  widgets w !! c = Some {| kind := CanvasW cv; grid_info := g |} →
  text_watermarker (self w) = bound t →
  (∀ x y ph, item_at cv t ≠ Some (image_item x y ph)) →
  font_size (self w) = bound s → py_int s = Some n →
  text_color (self w) = bound fill →
  (truetype_raises P (<[abspath P name := empty_file]> (fs w)) font_path n = None
     ∧ font = FreeTypeFont font_path n
   ∨ truetype_raises P (<[abspath P name := empty_file]> (fs w)) font_path n = Some IOError
     ∧ font = DefaultFont) →
  save_raises P (composed orig (overlay_text cv t) fill font) (abspath P name) = None →
  save_image P (Some name) w =
    (Ok tt,
     set_out (out w ++ [showinfo "Image saved" "File saved correctly.";
                        print ("Image saved in: " +:+ abspath P name)])
       (set_fs (<[abspath P name :=
                    image_file (composed orig (overlay_text cv t) fill font)]> (fs w)) w)).
Proof.
  intros Hopen Hsf Hfile Hne Hc Hw Ht Hit Hsz Hint Hcol Hfont Hsave.
  break_world w. subst.
  unfold save_image, asksaveasfile, Image_open, itemcget_text, try_except_IOError,
    int, truetype, Image_save.
  munfold. rewrite Hopen. cbn.
  rewrite lookup_insert_ne by congruence. rewrite Hfile. cbn.
  erewrite with_canvas_run by (cbn; exact Hw).
  unfold overlay_text, composed in *.
  destruct (item_at cv t) as [[x y wd text fl ft|x y ph]|] eqn:E;
    [|by destruct (Hit x y ph)|]; cbn;
    rewrite list_insert_id by done; rewrite Hint; munfold;
    (destruct Hfont as [[Htt ->]|[Htt ->]]; rewrite Htt; cbn;
     rewrite Hsave; cbn; rewrite insert_insert_eq, <- app_assoc; reflexivity).
Qed.

(** ** What a save writes *)

(** C8, as stated, fails: the stored font size need not reach the file.
    Where the font resource does not load (the program ships none), the text
    is drawn with the default font, which is given no size; the files written
    after choosing size 40 and after choosing size 80 are the same. *)
Lemma saved_image_ignores_stored_size :
  let written size :=
    fs (dispatch no_font (watermarked no_font size "Arial")
          (SaveImage (Some "/out/marked.png"))) !! "/out/marked.png" in
  font_size (self (watermarked no_font 40 "Arial")) = bound "40" ∧
  font_size (self (watermarked no_font 80 "Arial")) = bound "80" ∧
  written 40 = Some (image_file (composed cat "hello" (Some "#a32424") DefaultFont)) ∧
  written 40 ≠ Some (image_file (composed cat "hello" (Some "#a32424")
                                   (FreeTypeFont font_path 40))) ∧
  font_of (composed cat "hello" (Some "#a32424") DefaultFont) ≫= loaded_size ≠ Some 40 ∧
  written 40 = written 80.
Proof.
  vm_compute. repeat split; try reflexivity; discriminate.
Qed.

(** C8, amended.  A watermark has been stored, the picker can open the
    chosen file, the original is readable and is not the target, and the
    library can write at the chosen path.  Then the file at the chosen path
    holds the original, re-opened and resized to 600x600, with the text of
    the canvas item drawn at (300, 500), anchor "ms", in the stored colour;
    the font is the hard-coded resource at the stored size when it loads, and
    the default font, without size, when loading raises [IOError].  No other
    file changes. *)
Theorem save_writes_composed_image (P : Platform) (w : World)
    (name f s : string) (orig : Image) (c t : nat) (cv : Canvas)
    (g : option grid_opts) (n : Z) (fill : option string) (font : Font) :
  open_fails P (fs w) (abspath P name) = false →
  search_file (self w) = bound f →
  fs w !! abspath P f = Some (image_file orig) →
  abspath P f ≠ abspath P name →
  canvas (self w) = bound c →
  widgets w !! c = Some {| kind := CanvasW cv; grid_info := g |} →
  text_watermarker (self w) = bound t →
  (∀ x y ph, item_at cv t ≠ Some (image_item x y ph)) →
  font_size (self w) = bound s → py_int s = Some n →
  text_color (self w) = bound fill →
  (truetype_raises P (<[abspath P name := empty_file]> (fs w)) font_path n = None
     ∧ font = FreeTypeFont font_path n
   ∨ truetype_raises P (<[abspath P name := empty_file]> (fs w)) font_path n = Some IOError
     ∧ font = DefaultFont) →
  save_raises P (composed orig (overlay_text cv t) fill font) (abspath P name) = None →
  ∃ w', save_image P (Some name) w = (Ok tt, w') ∧
    fs w' !! abspath P name =
      Some (image_file
              (draw_text (300, 500) (overlay_text cv t) fill font "ms"
                 (resize (600, 600) orig))) ∧
    (∀ p, p ≠ abspath P name → fs w' !! p = fs w !! p) ∧
    self w' = self w ∧ widgets w' = widgets w.
Proof.
  intros Hopen Hsf Hfile Hne Hc Hw Ht Hit Hsz Hint Hcol Hfont Hsave.
  eexists. split.
  - eapply (save_image_ok P w name f s orig c t cv g n fill font); eauto.
  - cbn. split; [by rewrite lookup_insert_eq|]. split; [|done].
    intros p Hp. by rewrite lookup_insert_ne.
Qed.

Lemma save_writes_composed_image_witness :
  ∃ w', save_image with_font (Some "/out/marked.png") (watermarked with_font 40 "Arial")
          = (Ok tt, w') ∧
    fs w' !! "/out/marked.png" =
      Some (image_file
              (draw_text (300, 500) "hello" (Some "#a32424")
                 (FreeTypeFont "path_to_font.ttf" 40) "ms" (resize (600, 600) cat))).
Proof.
  destruct (save_writes_composed_image with_font (watermarked with_font 40 "Arial")
              "/out/marked.png" "/photos/cat.png" "40" cat 0 3
              (canvas_of (watermarked with_font 40 "Arial")) landing_grid 40
              (Some "#a32424") (FreeTypeFont font_path 40))
    as (w' & Hrun & Hfile & _).
  - vm_compute. reflexivity.
  - vm_compute. reflexivity.
  - vm_compute. reflexivity.
  - vm_compute. discriminate.
  - vm_compute. reflexivity.
  - vm_compute. reflexivity.
  - vm_compute. reflexivity.
  - intros x y ph. vm_compute. discriminate.
  - vm_compute. reflexivity.
  - vm_compute. reflexivity.
  - vm_compute. reflexivity.
  - left. split; reflexivity.
  - reflexivity.
  - exists w'. split; [exact Hrun|exact Hfile].
Defined.

(** ** Independence of the font family *)

Lemma font_sim_refl f : font_sim f f.
Proof. done. Qed.

Lemma item_sim_refl it : item_sim it it.
Proof.
  destruct it as [x y wd text fill [ft|]|x y ph]; constructor;
    constructor; apply font_sim_refl.
Qed.

Lemma items_sim_refl its : Forall2 (option_Forall2 item_sim) its its.
Proof.
  induction its as [|[it|] its IH]; constructor; try done;
    constructor; apply item_sim_refl.
Qed.

Lemma canvas_sim_refl c : canvas_sim c c.
Proof. repeat split; apply items_sim_refl. Qed.

Lemma kind_sim_refl k : kind_sim k k.
Proof. destruct k; constructor. apply canvas_sim_refl. Qed.

Lemma widget_sim_refl x : widget_sim x x.
Proof. split; [apply kind_sim_refl|done]. Qed.

Lemma menu_sim_refl d : menu_sim d d.
Proof. by repeat split. Qed.

Lemma Forall2_refl_of {A} (R : A → A → Prop) (l : list A) :
  (∀ x, R x x) → Forall2 R l l.
Proof. intros H. induction l; constructor; auto. Qed.

Lemma world_sim_refl w : world_sim w w.
Proof.
  split; try done.
  - apply Forall2_refl_of, widget_sim_refl.
  - apply Forall2_refl_of, menu_sim_refl.
  - apply Forall2_refl_of. intros e. apply same_effect.
Qed.

(** *** Rules for the monad *)

Lemma rel_ret {A} (R : A → A → Prop) a1 a2 :
  R a1 a2 → rel_M R (mret a1) (mret a2).
Proof. intros H w1 w2 Hw. by split. Qed.

Lemma rel_raise {A} (R : A → A → Prop) e :
  rel_M R (raise e) (raise e).
Proof. intros w1 w2 Hw. by split. Qed.

Lemma rel_bind {A B} (R : A → A → Prop) (S : B → B → Prop)
    (m1 m2 : M A) (f1 f2 : A → M B) :
  rel_M R m1 m2 →
  (∀ a1 a2, R a1 a2 → rel_M S (f1 a1) (f2 a2)) →
  rel_M S (m1 ≫= f1) (m2 ≫= f2).
Proof.
  intros Hm Hf w1 w2 Hw. unfold mbind, M_bind.
  destruct (Hm w1 w2 Hw) as [Hr Hw'].
  destruct (m1 w1) as [[a1|e1] w1'], (m2 w2) as [[a2|e2] w2']; cbn in *; try done.
  by apply Hf.
Qed.

Lemma rel_gets {A} (R : A → A → Prop) (f : World → A) :
  (∀ w1 w2, world_sim w1 w2 → R (f w1) (f w2)) → rel_M R (gets f) (gets f).
Proof. intros H w1 w2 Hw. split; cbn; auto. Qed.

Lemma rel_modify (f1 f2 : World → World) :
  (∀ w1 w2, world_sim w1 w2 → world_sim (f1 w1) (f2 w2)) →
  rel_M eq (modify f1) (modify f2).
Proof. intros H w1 w2 Hw. split; cbn; auto. Qed.

Lemma rel_try {A} (R : A → A → Prop) (b1 b2 h1 h2 : M A) :
  rel_M R b1 b2 → rel_M R h1 h2 →
  rel_M R (try_except_IOError b1 h1) (try_except_IOError b2 h2).
Proof.
  intros Hb Hh w1 w2 Hw. unfold try_except_IOError.
  destruct (Hb w1 w2 Hw) as [Hr Hw'].
  destruct (b1 w1) as [[a1|e1] w1'], (b2 w2) as [[a2|e2] w2']; cbn in *; try done.
  subst e2. destruct e1; try done. by apply Hh.
Qed.

(** *** Attributes *)

Lemma rel_getattr {A} name (proj : ImageWindowMaker → attr A) :
  (∀ s1 s2, self_sim s1 s2 → proj s1 = proj s2) →
  rel_M eq (getattr name proj) (getattr name proj).
Proof.
  intros H w1 w2 Hw. unfold getattr.
  rewrite (H _ _ (sim_self _ _ Hw)).
  destruct (proj (self w2)); by split.
Qed.

Lemma rel_setattr {A} (set : attr A → ImageWindowMaker → ImageWindowMaker) v1 v2 :
  (∀ s1 s2, self_sim s1 s2 → self_sim (set (bound v1) s1) (set (bound v2) s2)) →
  rel_M eq (setattr set v1) (setattr set v2).
Proof.
  intros H. apply rel_modify. intros w1 w2 [].
  split; cbn; auto.
Qed.

Lemma rel_emit e1 e2 : effect_sim e1 e2 → rel_M eq (emit e1) (emit e2).
Proof.
  intros He. apply rel_modify. intros w1 w2 [].
  split; cbn; auto. apply Forall2_app; [done|]. by constructor.
Qed.

Ltac self_sim_tac :=
  let H := fresh in
  intros [] [] H; unfold self_sim in *; cbn in *;
  injection H; intros; subst; reflexivity.

(** *** Widgets *)

Lemma rel_new_widget k1 k2 :
  kind_sim k1 k2 → rel_M eq (new_widget k1) (new_widget k2).
Proof.
  intros Hk w1 w2 Hw. destruct Hw. split; cbn.
  - by eapply Forall2_length.
  - split; cbn; auto. apply Forall2_app; [done|]. by repeat constructor.
Qed.

Lemma rel_grid r o : rel_M eq (grid r o) (grid r o).
Proof.
  apply rel_modify. intros w1 w2 []. split; cbn; auto.
  apply Forall2_alter; [done|]. by intros x y _ _ [].
Qed.

Lemma rel_grid_forget r : rel_M eq (grid_forget r) (grid_forget r).
Proof.
  apply rel_modify. intros w1 w2 []. split; cbn; auto.
  apply Forall2_alter; [done|]. by intros x y _ _ [].
Qed.

Lemma rel_with_canvas {A} (R : A → A → Prop) r
    (f1 f2 : Canvas → result A * Canvas) :
  (∀ c1 c2, canvas_sim c1 c2 → canvas_outcome_sim R (f1 c1) (f2 c2)) →
  rel_M R (with_canvas r f1) (with_canvas r f2).
Proof.
  intros Hf w1 w2 Hw. unfold with_canvas.
  pose proof (sim_widgets _ _ Hw) as Hws.
  rewrite Forall2_lookup in Hws. specialize (Hws r).
  destruct Hws as [x1 x2 [Hk Hg]|]; [|by split].
  destruct x1 as [k1 g1], x2 as [k2 g2]; cbn in *. subst g2.
  destruct Hk as [c1 c2 Hc| |]; try by split.
  destruct (Hf c1 c2 Hc) as [Hr Hc'].
  destruct (f1 c1) as [r1 c1'], (f2 c2) as [r2 c2']; cbn in *.
  split; [done|].
  destruct Hw. split; cbn; auto.
  apply Forall2_insert; [done|]. split; [by constructor|done].
Qed.

Lemma item_at_sim c1 c2 id :
  canvas_sim c1 c2 → option_Forall2 item_sim (item_at c1 id) (item_at c2 id).
Proof.
  intros (_ & _ & _ & _ & Hits). destruct id as [|i]; cbn; [constructor|].
  rewrite Forall2_lookup in Hits. specialize (Hits i).
  destruct Hits as [o1 o2 Ho|]; [|constructor]. exact Ho.
Qed.

Lemma set_items_sim c1 c2 its1 its2 :
  canvas_sim c1 c2 → Forall2 (option_Forall2 item_sim) its1 its2 →
  canvas_sim (set_items its1 c1) (set_items its2 c2).
Proof. intros (Ha & Hb & Hc & Hd & _) Hits. by repeat split. Qed.

Lemma rel_create_item r it1 it2 :
  item_sim it1 it2 → rel_M eq (create_item r it1) (create_item r it2).
Proof.
  intros Hit. apply rel_with_canvas. intros c1 c2 Hc.
  pose proof Hc as (_ & _ & _ & _ & Hits).
  split; cbn.
  - f_equal. by eapply Forall2_length.
  - apply (set_items_sim c1 c2); [done|].
    apply Forall2_app; [done|]. by repeat constructor.
Qed.

Lemma rel_create_text r x y wd text ft :
  rel_M eq (create_text r x y wd text ft) (create_text r x y wd text ft).
Proof. apply rel_create_item, item_sim_refl. Qed.

Lemma rel_create_image r x y ph :
  rel_M eq (create_image r x y ph) (create_image r x y ph).
Proof. apply rel_create_item, item_sim_refl. Qed.

Lemma rel_canvas_delete r id : rel_M eq (canvas_delete r id) (canvas_delete r id).
Proof.
  apply rel_with_canvas. intros c1 c2 Hc.
  pose proof Hc as (_ & _ & _ & _ & Hits).
  destruct id as [|i]; split; cbn; try done.
  apply (set_items_sim c1 c2); [done|].
  apply Forall2_insert; [done|constructor].
Qed.

Lemma rel_itemconfig_image r id ph :
  rel_M eq (itemconfig_image r id ph) (itemconfig_image r id ph).
Proof.
  apply rel_with_canvas. intros c1 c2 Hc.
  pose proof Hc as (_ & _ & _ & _ & Hits).
  destruct (item_at_sim c1 c2 id Hc) as [it1 it2 Hit|]; [|by split].
  destruct Hit; split; cbn; try done.
  apply (set_items_sim c1 c2); [done|].
  apply Forall2_insert; [done|]. repeat constructor.
Qed.

Lemma rel_itemconfig_text r id text fill ft1 ft2 :
  font_sim ft1 ft2 →
  rel_M eq (itemconfig_text r id text fill ft1) (itemconfig_text r id text fill ft2).
Proof.
  intros Hft. apply rel_with_canvas. intros c1 c2 Hc.
  pose proof Hc as (_ & _ & _ & _ & Hits).
  destruct (item_at_sim c1 c2 id Hc) as [it1 it2 Hit|]; [|by split].
  destruct Hit; split; cbn; try done.
  apply (set_items_sim c1 c2); [done|].
  apply Forall2_insert; [done|]. constructor. constructor. by constructor.
Qed.

Lemma rel_itemcget_text r id : rel_M eq (itemcget_text r id) (itemcget_text r id).
Proof.
  apply rel_with_canvas. intros c1 c2 Hc.
  destruct (item_at_sim c1 c2 id Hc) as [it1 it2 Hit|]; [|by split].
  by destruct Hit; split.
Qed.

Lemma rel_canvas_config r bg hl : rel_M eq (canvas_config r bg hl) (canvas_config r bg hl).
Proof.
  apply rel_with_canvas. intros c1 c2 (? & ? & ? & ? & ?). by repeat split.
Qed.

(** *** Files, images and fonts: both worlds hold the same files *)

Lemma rel_PhotoImage_file P p : rel_M eq (PhotoImage_file P p) (PhotoImage_file P p).
Proof.
  intros w1 w2 Hw. unfold PhotoImage_file. rewrite (sim_fs _ _ Hw).
  destruct (fs w2 !! abspath P p) as [[]|]; by split.
Qed.

Lemma rel_Image_open P p : rel_M eq (Image_open P p) (Image_open P p).
Proof.
  intros w1 w2 Hw. unfold Image_open. rewrite (sim_fs _ _ Hw).
  destruct (fs w2 !! abspath P p) as [[]|]; by split.
Qed.

Lemma rel_truetype P path n : rel_M eq (truetype P path n) (truetype P path n).
Proof.
  intros w1 w2 Hw. unfold truetype. rewrite (sim_fs _ _ Hw).
  destruct (truetype_raises P (fs w2) path n); by split.
Qed.

Lemma rel_Image_save P im path : rel_M eq (Image_save P im path) (Image_save P im path).
Proof.
  intros w1 w2 Hw. unfold Image_save.
  destruct (save_raises P im path); split; cbn; try done.
  destruct Hw. split; cbn; auto. congruence.
Qed.

Lemma rel_asksaveasfile P picked :
  rel_M eq (asksaveasfile P picked) (asksaveasfile P picked).
Proof.
  destruct picked as [name|]; cbn; [|by apply rel_ret].
  intros w1 w2 Hw. rewrite (sim_fs _ _ Hw).
  destruct (open_fails P (fs w2) (abspath P name)); [by split|].
  split; [done|]. cbn. destruct Hw. split; cbn; auto.
Qed.

Lemma rel_int s : rel_M eq (int s) (int s).
Proof. unfold int. destruct (py_int s); [by apply rel_ret|apply rel_raise]. Qed.

(** *** The methods *)

Ltac rel_prim :=
  first
    [ apply rel_grid | apply rel_grid_forget | apply rel_create_text
    | apply rel_create_image | apply rel_canvas_delete
    | apply rel_itemconfig_image | apply rel_itemcget_text
    | apply rel_canvas_config | apply rel_PhotoImage_file | apply rel_Image_open
    | apply rel_truetype | apply rel_Image_save | apply rel_asksaveasfile
    | apply rel_int
    | apply rel_new_widget; apply kind_sim_refl
    | apply rel_getattr; self_sim_tac
    | apply rel_setattr; self_sim_tac
    | apply rel_emit; apply same_effect ].

Ltac rel_go :=
  repeat first
    [ apply rel_ret; reflexivity
    | apply rel_raise
    | eapply rel_bind; [ solve [ rel_prim ] | intros ? ? <- ]
    | rel_prim ].

Lemma rel_in_principal :
  rel_M eq (gets (λ w, in_principal (self w))) (gets (λ w, in_principal (self w))).
Proof.
  apply rel_gets. intros w1 w2 Hw. pose proof (sim_self _ _ Hw) as H.
  revert H. generalize (self w1) (self w2). self_sim_tac.
Qed.

Lemma rel_set_in_principal b :
  rel_M eq (modify (λ w, set_self (set_in_principal b (self w)) w))
           (modify (λ w, set_self (set_in_principal b (self w)) w)).
Proof.
  apply rel_modify. intros w1 w2 Hw. destruct Hw as [Hs ? ? ? ? ? ?].
  split; cbn; auto. revert Hs. generalize (self w1) (self w2). self_sim_tac.
Qed.

Lemma rel_menu_start P : rel_M eq (menu_start P) (menu_start P).
Proof. unfold menu_start. rel_go. Qed.

Lemma rel_setting_buttons state :
  rel_M eq (setting_buttons state) (setting_buttons state).
Proof. unfold setting_buttons. destruct state; cbn; rel_go. Qed.

Lemma rel_add_image P : rel_M eq (add_image P) (add_image P).
Proof. unfold add_image. rel_go. Qed.

Tactic Notation "rel_bind_as" ident(x) :=
  eapply rel_bind; [ solve [ rel_prim ] | intros x ? <- ].

Lemma rel_change_menu P picked : rel_M eq (change_menu P picked) (change_menu P picked).
Proof.
  unfold change_menu.
  rel_bind_as u.
  eapply rel_bind; [apply rel_in_principal|intros in_p ? <-].
  rel_bind_as f.
  destruct (in_p && bool_decide (f ≠ "")); [|by apply rel_ret].
  eapply rel_bind; [apply rel_set_in_principal|intros ? ? _].
  rel_bind_as c. rel_bind_as t. rel_bind_as u1. rel_bind_as l. rel_bind_as u2.
  eapply rel_bind; [apply rel_in_principal|intros b ? <-].
  eapply rel_bind; [apply rel_setting_buttons|intros ? ? _].
  apply rel_add_image.
Qed.

Lemma rel_save_image P picked : rel_M eq (save_image P picked) (save_image P picked).
Proof.
  unfold save_image.
  rel_bind_as file_to_save.
  destruct file_to_save as [name|]; [|by apply rel_ret].
  rel_bind_as f. rel_bind_as opened. rel_bind_as c. rel_bind_as t.
  rel_bind_as text_value.
  eapply (rel_bind eq).
  { apply rel_try; [|by apply rel_ret]. rel_go. }
  intros font ? <-. rel_go.
Qed.

Lemma rel_return_to_principal P :
  rel_M eq (return_to_principal P) (return_to_principal P).
Proof.
  unfold return_to_principal.
  eapply rel_bind; [apply rel_set_in_principal|intros ? ? _].
  rel_go.
Qed.

Lemma rel_values_received text color size f1 f2 :
  rel_M eq (values_received text color size f1) (values_received text color size f2).
Proof.
  unfold values_received. rel_go. by apply rel_itemconfig_text.
Qed.

Lemma rel_TextMenu_new cb : rel_M eq (TextMenu_new cb) (TextMenu_new cb).
Proof.
  intros w1 w2 Hw. destruct Hw as [? ? ? Hm ? ? ?].
  pose proof (Forall2_length _ _ _ Hm) as Hlen.
  split; cbn; [done|].
  split; cbn; auto; try (by rewrite Hlen).
  apply Forall2_app; [done|].
  constructor; [|constructor]. apply menu_sim_refl.
Qed.

Lemma rel_close_window d : rel_M eq (close_window d) (close_window d).
Proof.
  apply rel_modify. intros w1 w2 [? ? ? Hm Hg ? ?]. split; cbn; auto.
  - apply Forall2_alter; [done|].
    intros x y _ _ (? & ? & ? & ? & ? & ?).
    unfold menu_sim; cbn; intuition congruence.
  - by rewrite Hg.
Qed.

Lemma rel_open_text_settings : rel_M eq open_text_settings open_text_settings.
Proof.
  unfold open_text_settings.
  eapply rel_bind; [apply rel_gets; intros w1 w2 Hw; apply (sim_in_use _ _ Hw)|].
  intros busy ? <-. destruct busy; cbn; [by apply rel_ret|].
  eapply rel_bind; [apply rel_TextMenu_new|intros d ? <-].
  rel_go.
Qed.

Lemma rel_edit d f1 f2 :
  (∀ x y, menu_sim x y → menu_sim (f1 x) (f2 y)) →
  rel_M eq (edit d f1) (edit d f2).
Proof.
  intros Hf. apply rel_modify. intros w1 w2 []. split; cbn; auto.
  apply Forall2_alter; [done|]. intros x y _ _. apply Hf.
Qed.

Lemma rel_apply_changes d : rel_M eq (apply_changes d) (apply_changes d).
Proof.
  unfold apply_changes.
  eapply (rel_bind menu_sim).
  { intros w1 w2 Hw. pose proof (sim_menus _ _ Hw) as Hm.
    rewrite Forall2_lookup in Hm. specialize (Hm d).
    destruct Hm as [x y Hxy|]; [|by split].
    pose proof Hxy as (_ & _ & _ & _ & Hd & _). rewrite Hd.
    destruct (destroyed y); by split. }
  intros tm1 tm2 (Hcb & Ht & Hc & Hs & Hd & Hf). cbn zeta.
  rewrite Hcb, Ht, Hc, Hs.
  assert (Hb : bool_decide (font_box tm1 ≠ "") = bool_decide (font_box tm2 ≠ ""))
    by (apply bool_decide_ext; tauto).
  rewrite Hb.
  destruct (bool_decide (spinbox tm2 ≠ "") && bool_decide (color_box tm2 ≠ "")
            && bool_decide (text_entry tm2 ≠ "") && bool_decide (font_box tm2 ≠ ""));
    [|by apply rel_emit, same_effect].
  eapply (rel_bind eq); [|intros ? ? _; apply rel_close_window].
  destruct (callback tm2) as [[]|]; [|by apply rel_ret].
  eapply rel_bind; [apply rel_emit, call_sim|intros ? ? _].
  apply rel_values_received.
Qed.

(** *** The event loop *)

Lemma shows_button_sim c w1 w2 :
  world_sim w1 w2 → shows_button c w1 = shows_button c w2.
Proof.
  intros Hw. unfold shows_button.
  induction (sim_widgets _ _ Hw) as [|x y l k [Hk Hg] _ IH]; [done|].
  cbn. rewrite IH, Hg. by destruct Hk.
Qed.

Lemma dialog_open_sim d w1 w2 :
  world_sim w1 w2 → dialog_open d w1 = dialog_open d w2.
Proof.
  intros Hw. unfold dialog_open.
  pose proof (sim_menus _ _ Hw) as Hm. rewrite Forall2_lookup in Hm.
  destruct (Hm d) as [x y (_ & _ & _ & _ & Hd & _)|]; [by rewrite Hd|done].
Qed.

Lemma enabled_sim e1 e2 w1 w2 :
  world_sim w1 w2 → event_sim e1 e2 → enabled e1 w1 = enabled e2 w2.
Proof.
  intros Hw He. destruct He as [e|d f1 f2 H1 H2].
  - destruct e; cbn; rewrite ?(shows_button_sim _ _ _ Hw), ?(dialog_open_sim _ _ _ Hw); done.
  - cbn. rewrite (dialog_open_sim _ _ _ Hw).
    by rewrite !bool_decide_eq_true_2.
Qed.

Lemma FONTS_nonempty f : f ∈ FONTS → f ≠ "".
Proof. intros H ->. vm_compute in H. by repeat (inversion H as [|? ? ? H']; clear H; rename H' into H). Qed.

Lemma rel_handler P e1 e2 :
  event_sim e1 e2 → rel_M eq (handler P e1) (handler P e2).
Proof.
  intros [e|d f1 f2 H1 H2].
  - destruct e; cbn.
    + apply rel_change_menu.
    + apply rel_open_text_settings.
    + apply rel_save_image.
    + apply rel_return_to_principal.
    + apply rel_edit. intros x y (? & ? & ? & ? & ? & ?).
      unfold menu_sim; cbn; intuition congruence.
    + apply rel_edit. intros x y (? & ? & ? & ? & ? & ?).
      unfold menu_sim; cbn; intuition congruence.
    + apply rel_edit. intros x y (? & ? & ? & ? & ? & ?).
      unfold menu_sim; cbn; intuition congruence.
    + apply rel_edit. intros x y (? & ? & ? & ? & ? & ?).
      unfold menu_sim; cbn; intuition congruence.
    + apply rel_apply_changes.
    + apply rel_close_window.
  - cbn. apply rel_edit. intros x y (? & ? & ? & ? & ? & ?).
    apply FONTS_nonempty in H1, H2.
    unfold menu_sim; cbn; intuition congruence.
Qed.

Lemma dispatch_sim P w1 w2 e1 e2 :
  world_sim w1 w2 → event_sim e1 e2 →
  world_sim (dispatch P w1 e1) (dispatch P w2 e2).
Proof.
  intros Hw He. unfold dispatch.
  rewrite (enabled_sim e1 e2 w1 w2 Hw He).
  destruct (enabled e2 w2); [|done].
  destruct (rel_handler P e1 e2 He w1 w2 Hw) as [Hr Hw'].
  destruct (handler P e1 w1) as [[[]|x1] w1'], (handler P e2 w2) as [[[]|x2] w2'];
    cbn in *; try done.
  subst x2. destruct Hw'. split; cbn; auto.
  apply Forall2_app; [done|]. repeat constructor.
Qed.

Lemma run_sim P es1 es2 w1 w2 :
  Forall2 event_sim es1 es2 → world_sim w1 w2 →
  world_sim (run P es1 w1) (run P es2 w2).
Proof.
  intros Hes. revert w1 w2.
  induction Hes as [|e1 e2 es1 es2 He _ IH]; intros w1 w2 Hw; [done|].
  cbn. apply IH. by apply dispatch_sim.
Qed.

(** X14.  Two runs of the program from the same world, fed the same events
    except that wherever one picks a family in a font box the other may pick
    another family of the list, leave the same files behind: every image a
    "Save Image" wrote is identical in both.  Their traces agree up to the
    family recorded with each callback invocation, and the final worlds agree
    up to the places that keep a font family. *)
Theorem saved_files_ignore_font_family (P : Platform) (w : World)
    (es1 es2 : list event) :
  Forall2 event_sim es1 es2 →
  fs (run P es1 w) = fs (run P es2 w) ∧
  Forall2 effect_sim (out (run P es1 w)) (out (run P es2 w)) ∧
  world_sim (run P es1 w) (run P es2 w).
Proof.
  intros Hes.
  pose proof (run_sim P es1 es2 w w Hes (world_sim_refl w)) as Hw.
  split; [apply (sim_fs _ _ Hw)|]. split; [apply (sim_out _ _ Hw)|exact Hw].
Qed.


Lemma saved_files_ignore_font_family_witness :
  let session family :=
    [ InsertText; EnterText 0 "hello"; PickColor 0 "Red"; PickSize 0 40;
      PickFont 0 family; ApplyChanges 0; SaveImage (Some "/out/marked.png") ] in
  font_value (self (run with_font (session "Arial") (editing with_font)))
    ≠ font_value (self (run with_font (session "Impact") (editing with_font))) ∧
  fs (run with_font (session "Arial") (editing with_font))
    = fs (run with_font (session "Impact") (editing with_font)).
Proof.
  intros session. split.
  - vm_compute. discriminate.
  - apply (saved_files_ignore_font_family with_font (editing with_font)
             (session "Arial") (session "Impact")).
    unfold session.
    constructor; [apply same_event|].
    constructor; [apply same_event|].
    constructor; [apply same_event|].
    constructor; [apply same_event|].
    constructor;
      [apply other_family; apply (bool_decide_unpack _); vm_compute; exact I|].
    constructor; [apply same_event|].
    constructor; [apply same_event|].
    constructor.
Defined.

(** C9.  The saved file does not depend on the font family.  Take two
    sessions from the same launch that are the same except for the families
    picked in the font boxes, and press "Save Image" with the same answer to
    the picker in both.  The button is shown in both or in neither, the
    handler ends the same way (it returns in both, or raises the same
    exception in both), and the files are the same afterwards: in particular
    the image written at the chosen path is identical. *)
Theorem saved_image_ignores_font_family (P : Platform) (files : gmap string file)
    (es1 es2 : list event) (picked : option string) :
  Forall2 event_sim es1 es2 →
  let w1 := run P es1 (launch P files).2 in
  let w2 := run P es2 (launch P files).2 in
  enabled (SaveImage picked) w1 = enabled (SaveImage picked) w2 ∧
  (handler P (SaveImage picked) w1).1 = (handler P (SaveImage picked) w2).1 ∧
  fs (dispatch P w1 (SaveImage picked)) = fs (dispatch P w2 (SaveImage picked)) ∧
  (∀ name, picked = Some name →
     fs (dispatch P w1 (SaveImage picked)) !! abspath P name =
     fs (dispatch P w2 (SaveImage picked)) !! abspath P name).
Proof.
  intros Hes w1 w2.
  pose proof (run_sim P es1 es2 _ _ Hes (world_sim_refl (launch P files).2)) as Hw.
  fold w1 w2 in Hw.
  pose proof (dispatch_sim P w1 w2 _ _ Hw (same_event (SaveImage picked))) as Hw'.
  split; [by apply enabled_sim; [|apply same_event]|]. split; [|split].
  - destruct (rel_handler P _ _ (same_event (SaveImage picked)) w1 w2 Hw) as [Hr _].
    destruct (handler P (SaveImage picked) w1) as [[[]|x1] v1],
             (handler P (SaveImage picked) w2) as [[[]|x2] v2]; cbn in *;
      try done. by subst.
  - apply (sim_fs _ _ Hw').
  - intros name _. by rewrite (sim_fs _ _ Hw').
Qed.

Lemma saved_image_ignores_font_family_witness :
  let session family :=
    [ SelectFile "/photos/cat.png"; InsertText; EnterText 0 "hello";
      PickColor 0 "Red"; PickSize 0 40; PickFont 0 family; ApplyChanges 0 ] in
  let w1 := run with_font (session "Arial") (launch with_font demo_fs).2 in
  let w2 := run with_font (session "Impact") (launch with_font demo_fs).2 in
  font_value (self w1) = bound "Arial" ∧ font_value (self w2) = bound "Impact" ∧
  fs (dispatch with_font w1 (SaveImage (Some "/out/marked.png"))) !! "/out/marked.png" =
    Some (image_file (composed cat "hello" (Some "#a32424") (FreeTypeFont font_path 40))) ∧
  fs (dispatch with_font w1 (SaveImage (Some "/out/marked.png"))) !! "/out/marked.png" =
  fs (dispatch with_font w2 (SaveImage (Some "/out/marked.png"))) !! "/out/marked.png".
Proof.
  intros session w1 w2.
  split; [vm_compute; reflexivity|]. split; [vm_compute; reflexivity|].
  split; [vm_compute; reflexivity|].
  destruct (saved_image_ignores_font_family with_font demo_fs
              (session "Arial") (session "Impact") (Some "/out/marked.png"))
    as (_ & _ & _ & Hfile).
  - unfold session.
    constructor; [apply same_event|].
    constructor; [apply same_event|].
    constructor; [apply same_event|].
    constructor; [apply same_event|].
    constructor; [apply same_event|].
    constructor;
      [apply other_family; apply (bool_decide_unpack _); vm_compute; exact I|].
    constructor; [apply same_event|].
    constructor.
  - exact (Hfile "/out/marked.png" eq_refl).
Defined.
(** ** What the handlers leave alone *)

Lemma keeps_ret {A B} (proj : World → B) (a : A) : keeps proj (mret a).
Proof. by intros w. Qed.

Lemma keeps_raise {A B} (proj : World → B) e : keeps proj (raise (A:=A) e).
Proof. by intros w. Qed.

Lemma keeps_bind {A A' B} (proj : World → B) (m : M A) (f : A → M A') :
  keeps proj m → (∀ a, keeps proj (f a)) → keeps proj (m ≫= f).
Proof.
  intros Hm Hf w. unfold mbind, M_bind.
  specialize (Hm w). destruct (m w) as [[a|e] w']; cbn in *; [|done].
  by rewrite Hf.
Qed.

Lemma keeps_reader {A B} (proj : World → B) (f : World → result A) :
  keeps proj (λ w, (f w, w)).
Proof. by intros w. Qed.

Lemma keeps_modify {B} (proj : World → B) (f : World → World) :
  (∀ w, proj (f w) = proj w) → keeps proj (modify f).
Proof. intros H w. apply H. Qed.

Lemma keeps_getattr {A B} (proj : World → B) name (p : ImageWindowMaker → attr A) :
  keeps proj (getattr name p).
Proof. intros w. unfold getattr. by destruct (p (self w)). Qed.

Lemma keeps_try {A B} (proj : World → B) (b h : M A) :
  keeps proj b → keeps proj h → keeps proj (try_except_IOError b h).
Proof.
  intros Hb Hh w. unfold try_except_IOError. specialize (Hb w).
  destruct (b w) as [[a|[]] w']; cbn in *; try done. by rewrite Hh.
Qed.

Lemma keeps_with_canvas {A B} (proj : World → B) r (f : Canvas → result A * Canvas) :
  (∀ w ws, proj (set_widgets ws w) = proj w) → keeps proj (with_canvas r f).
Proof.
  intros H w. unfold with_canvas.
  destruct (widgets w !! r) as [[[c| |] g]|]; try done.
  destruct (f c). apply H.
Qed.

Lemma keeps_new_widget {B} (proj : World → B) k :
  (∀ w ws, proj (set_widgets ws w) = proj w) → keeps proj (new_widget k).
Proof. intros H w. apply H. Qed.

Lemma keeps_PhotoImage_file {B} (proj : World → B) P p :
  keeps proj (PhotoImage_file P p).
Proof. intros w. unfold PhotoImage_file. by destruct (fs w !! abspath P p) as [[]|]. Qed.

Lemma keeps_Image_open {B} (proj : World → B) P p : keeps proj (Image_open P p).
Proof. intros w. unfold Image_open. by destruct (fs w !! abspath P p) as [[]|]. Qed.

Lemma keeps_truetype {B} (proj : World → B) P path n : keeps proj (truetype P path n).
Proof. intros w. unfold truetype. by destruct (truetype_raises P (fs w) path n). Qed.

Lemma keeps_Image_save {B} (proj : World → B) P im path :
  (∀ w files, proj (set_fs files w) = proj w) → keeps proj (Image_save P im path).
Proof. intros H w. unfold Image_save. destruct (save_raises P im path); [done|apply H]. Qed.

Lemma keeps_TextMenu_new {B} (proj : World → B) cb :
  (∀ w g ms, proj (set_grab g (set_text_menus ms w)) = proj w) →
  keeps proj (TextMenu_new cb).
Proof. intros H w. apply H. Qed.

Lemma keeps_int {B} (proj : World → B) s : keeps proj (int s).
Proof. intros w. unfold int. by destruct (py_int s). Qed.

Ltac keeps_unfold :=
  unfold handler, menu_start, setting_buttons, add_image, change_menu, save_image,
    return_to_principal, values_received, close_window, call, apply_changes,
    open_text_settings, edit, asksaveasfile, setattr, emit, gets, grid, grid_forget,
    create_text, create_image, create_item, canvas_delete, itemconfig_image,
    itemconfig_text, itemcget_text, canvas_config.

Ltac keeps_step :=
  first
    [ apply keeps_ret | apply keeps_raise | apply keeps_getattr
    | apply keeps_PhotoImage_file | apply keeps_Image_open | apply keeps_truetype
    | apply keeps_int
    | apply keeps_bind; [|intros ?]
    | apply keeps_try
    | apply keeps_with_canvas; done
    | apply keeps_new_widget; done
    | apply keeps_TextMenu_new; done
    | apply keeps_Image_save; done
    | apply keeps_modify; done
    | apply keeps_reader
    | match goal with |- keeps _ (if ?b then _ else _) => destruct b end
    | match goal with |- keeps _ (match ?x with _ => _ end) => destruct x end
    | progress keeps_unfold
    | solve [ let w := fresh "w" in intros w; cbn; repeat case_match; done ] ].

Ltac keeps_go := keeps_unfold; repeat keeps_step.

Lemma handler_keeps_in_use P e : keeps in_use (handler P e).
Proof. destruct e; keeps_go. Qed.

Lemma dispatch_keeps_in_use P w e : in_use (dispatch P w e) = in_use w.
Proof.
  unfold dispatch. destruct (enabled e w); [|done].
  pose proof (handler_keeps_in_use P e w) as H.
  by destruct (handler P e w) as [[] w'].
Qed.

Lemma run_keeps_in_use P es w : in_use (run P es w) = in_use w.
Proof.
  revert w. induction es as [|e es IH]; intros w; [done|].
  change (run P (e :: es) w) with (run P es (dispatch P w e)).
  by rewrite IH, dispatch_keeps_in_use.
Qed.

(** A component that does not depend on the trace is, after [dispatch], what
    the handler made of it. *)
Lemma dispatch_proj {B} (proj : World → B) P w e :
  (∀ w o, proj (set_out o w) = proj w) →
  proj (dispatch P w e) = if enabled e w then proj (handler P e w).2 else proj w.
Proof.
  intros Ho. unfold dispatch. destruct (enabled e w); [|done].
  destruct (handler P e w) as [[] w']; [done|]. apply Ho.
Qed.

Lemma dispatch_keeps {B} (proj : World → B) P w e :
  keeps proj (handler P e) →
  (∀ w o, proj (set_out o w) = proj w) →
  proj (dispatch P w e) = proj w.
Proof.
  intros Hk Ho. rewrite dispatch_proj by done.
  destruct (enabled e w); [apply Hk|done].
Qed.

(** X1.  Nothing ever assigns the guard [TextMenu.in_use]: after any events
    from launch it is still false, so [open_text_settings] always builds one
    more window, and the windows that were open stay open. *)
Theorem in_use_stays_false (P : Platform) (files : gmap string file)
    (es : list event) :
  let w := run P es (launch P files).2 in
  in_use w = false ∧
  ∃ w', open_text_settings w = (Ok tt, w') ∧
    in_use w' = false ∧
    length (text_menus w') = S (length (text_menus w)) ∧
    dialog_open (length (text_menus w)) w' = true ∧
    (∀ d, dialog_open d w = true → dialog_open d w' = true).
Proof.
  intros w.
  assert (Hu : in_use w = false).
  { unfold w. rewrite run_keeps_in_use. unfold launch.
    assert (Hk : keeps in_use (menu_start P)) by keeps_go.
    by rewrite Hk. }
  split; [done|]. by apply open_text_settings_opens.
Qed.

(** *** Files *)

Lemma keeps_bind_post {A A' B} (proj : World → B) (Q : A → Prop)
    (m : M A) (f : A → M A') :
  keeps proj m →
  (∀ w a w', m w = (Ok a, w') → Q a) →
  (∀ a, Q a → keeps proj (f a)) →
  keeps proj (m ≫= f).
Proof.
  intros Hm HQ Hf w. unfold mbind, M_bind.
  specialize (Hm w). specialize (HQ w).
  destruct (m w) as [[a|e] w']; cbn in *; [|done].
  rewrite Hf; [done|]. by eapply HQ.
Qed.

Lemma save_image_keeps_other_files P picked p :
  (∀ name, picked = Some name → p ≠ abspath P name) →
  keeps (λ w, fs w !! p) (save_image P picked).
Proof.
  intros Hp. destruct picked as [name|]; [|by intros w].
  specialize (Hp name eq_refl).
  assert (Hins : ∀ w x, (fs (set_fs (<[abspath P name := x]> (fs w)) w)) !! p = fs w !! p)
    by (intros w x; cbn; by rewrite lookup_insert_ne).
  unfold save_image.
  apply (keeps_bind_post _ (λ a, a = Some name)).
  - intros w. cbn. destruct (open_fails P _ _); [done|apply Hins].
  - intros w a w' H. cbn in H. destruct (open_fails P _ _); by simplify_eq.
  - intros a ->. repeat keeps_step.
    intros w. unfold Image_save. destruct (save_raises _ _ _); [done|]. apply Hins.
Qed.

(** X2.  Only a confirmed save touches the file system, and only at the
    chosen path: if an event changes what is stored at a path, the event is
    "Save Image" confirmed with a name that resolves to that path. *)
Theorem only_save_writes_files (P : Platform) (w : World) (e : event) (p : string) :
  fs (dispatch P w e) !! p ≠ fs w !! p →
  ∃ name, e = SaveImage (Some name) ∧ p = abspath P name.
Proof.
  intros Hch.
  assert (Hkeep : keeps (λ w, fs w !! p) (handler P e) → False).
  { intros Hk. apply Hch. by apply (dispatch_keeps (λ w, fs w !! p)). }
  destruct e as [| |[name|]| | | | | | |]; try (destruct Hkeep; keeps_go; fail).
  - destruct (decide (p = abspath P name)) as [->|Hne]; [by exists name|].
    destruct Hkeep. apply save_image_keeps_other_files. by intros ? [= <-].
Qed.

(** *** The watermark attributes *)

Lemma apply_changes_attrs d w tm :
  text_menus w !! d = Some tm → destroyed tm = false →
  watermark_attrs (apply_changes d w).2 = watermark_attrs w ∨
  (all_filled tm = true ∧
   watermark_attrs (apply_changes d w).2 =
     (bound (text_entry tm), bound (COLORS_AND_CODE !! color_box tm),
      bound (spinbox tm), bound (font_box tm))).
Proof.
  intros Hd Ha. destruct (all_filled tm) eqn:Hf.
  - destruct (callback tm) as [[]|] eqn:Hcb.
    + right. split; [done|].
      unfold apply_changes. munfold. rewrite Hd, Ha.
      unfold all_filled in Hf. rewrite Hf, Hcb. cbn.
      match goal with |- context [values_received ?a ?b ?c ?e ?w1] =>
        pose proof (values_received_self a b c e w1) as Hs;
        destruct (values_received a b c e w1) as [[] w2] end;
        cbn in *; unfold watermark_attrs; cbn; by rewrite Hs.
    + left. rewrite (apply_changes_unregistered w d tm) by done. done.
  - left. by rewrite (apply_changes_blank w d tm).
Qed.

(** X3.  The four watermark attributes change in one way only: an event
    that changes them is the confirmation of an open dialog whose four inputs
    are filled, and they then hold that dialog's text, the palette's entry
    for its colour, its size and its family.  In particular "Return" and a new
    selection do not reset them. *)
Theorem only_confirmation_sets_watermark (P : Platform) (w : World) (e : event) :
  watermark_attrs (dispatch P w e) ≠ watermark_attrs w →
  ∃ d tm, e = ApplyChanges d ∧ text_menus w !! d = Some tm ∧
    destroyed tm = false ∧
    spinbox tm ≠ "" ∧ color_box tm ≠ "" ∧ text_entry tm ≠ "" ∧ font_box tm ≠ "" ∧
    watermark_attrs (dispatch P w e) =
      (bound (text_entry tm), bound (COLORS_AND_CODE !! color_box tm),
       bound (spinbox tm), bound (font_box tm)).
Proof.
  intros Hch.
  assert (Hkeep : keeps watermark_attrs (handler P e) → False).
  { intros Hk. apply Hch. by apply (dispatch_keeps watermark_attrs). }
  destruct e as [| | | | | | | |d|]; try (destruct Hkeep; keeps_go; fail).
  clear Hkeep. rewrite (dispatch_proj watermark_attrs) in Hch |- * by done.
  cbn in *. unfold dialog_open in *.
  destruct (text_menus w !! d) as [tm|] eqn:Hd; [|done].
  destruct (destroyed tm) eqn:Ha; [done|]. cbn in *.
  destruct (apply_changes_attrs d w tm Hd Ha) as [Hsame|[Hf Hset]]; [done|].
  exists d, tm. apply all_filled_fields in Hf as (? & ? & ? & ?).
  by repeat split.
Qed.

(** *** What the dialog can hand over *)

(** Every size the spinbox offers is read back by [int]. *)
Lemma spinbox_sizes_parse (n : Z) :
  (spinbox_from ≤ n ≤ spinbox_to)%Z → py_int (pretty n) = Some n.
Proof.
  intros Hn.
  assert (Hall : Forall (λ k : Z, py_int (pretty k) = Some k) (seqZ 30 51))
    by (apply (bool_decide_unpack _); vm_compute; exact I).
  rewrite Forall_forall in Hall. apply Hall.
  apply elem_of_seqZ. unfold spinbox_from, spinbox_to in Hn. lia.
Qed.

Lemma apply_changes_menus d w :
  text_menus (apply_changes d w).2 = text_menus w ∨
  text_menus (apply_changes d w).2 = alter (set_destroyed true) d (text_menus w).
Proof.
  unfold apply_changes. munfold.
  destruct (text_menus w !! d) as [tm|] eqn:Hd; [|by left].
  destruct (destroyed tm); [by left|]. cbn.
  destruct (_ && _); [|by left].
  destruct (callback tm) as [[]|]; cbn; [|by right].
  match goal with |- context [values_received ?a ?b ?c ?e ?w1] =>
    pose proof (values_received_frame a b c e w1) as (_ & Hm & _);
    destruct (values_received a b c e w1) as [[] w2] end; cbn in *.
  - right. by rewrite Hm.
  - left. by rewrite Hm.
Qed.

Lemma input_ok_blank cb :
  input_ok {| callback := cb; text_entry := ""; color_box := ""; spinbox := "";
              font_box := ""; destroyed := false |}.
Proof. repeat split; by left. Qed.

Lemma stored_from_inputs tm :
  input_ok tm → all_filled tm = true →
  stored_ok (bound (text_entry tm), bound (COLORS_AND_CODE !! color_box tm),
             bound (spinbox tm), bound (font_box tm)).
Proof.
  intros (Hc & Hs & Hf) Hfill.
  apply all_filled_fields in Hfill as (Hs' & Hc' & Ht' & Hf').
  destruct Hc as [|[hex Hhex]]; [done|].
  destruct Hs as [|(n & Hn & Hsn)]; [done|].
  destruct Hf as [|Hf]; [done|].
  right. exists (text_entry tm), (color_box tm), hex, n, (font_box tm).
  rewrite Hhex, Hsn. repeat split; try done; try apply Hn.
  by apply spinbox_sizes_parse.
Qed.

Lemma dispatch_keeps_validity P w e :
  Forall input_ok (text_menus w) ∧ stored_ok (watermark_attrs w) →
  Forall input_ok (text_menus (dispatch P w e)) ∧
  stored_ok (watermark_attrs (dispatch P w e)).
Proof.
  intros [Hm Hs].
  rewrite (dispatch_proj text_menus), (dispatch_proj watermark_attrs) by done.
  destruct (enabled e w) eqn:Hen; [|done].
  assert (Halter : ∀ d f, (∀ tm, input_ok tm → input_ok (f tm)) →
            Forall input_ok (alter f d (text_menus w))).
  { intros d f Hf. apply Forall_alter; [done|]. intros tm _. apply Hf. }
  destruct e as [p| |p| |d s|d c|d n|d f|d|d].
  - assert (H1 : keeps text_menus (handler P (SelectFile p))) by keeps_go.
    assert (H2 : keeps watermark_attrs (handler P (SelectFile p))) by keeps_go.
    by rewrite H1, H2.
  - assert (H2 : keeps watermark_attrs (handler P InsertText)) by keeps_go.
    rewrite H2. split; [|done].
    cbn. unfold open_text_settings, TextMenu_new. munfold.
    destruct (in_use w); cbn; [done|].
    apply Forall_app. split; [done|]. constructor; [|constructor].
    apply input_ok_blank.
  - assert (H1 : keeps text_menus (handler P (SaveImage p))) by keeps_go.
    assert (H2 : keeps watermark_attrs (handler P (SaveImage p))) by keeps_go.
    by rewrite H1, H2.
  - assert (H1 : keeps text_menus (handler P Return)) by keeps_go.
    assert (H2 : keeps watermark_attrs (handler P Return)) by keeps_go.
    by rewrite H1, H2.
  - split; [|done]. apply Halter. by intros tm (? & ? & ?).
  - split; [|done]. apply Halter. intros tm (? & ? & ?).
    cbn in Hen. apply andb_true_iff in Hen as [_ Hc].
    apply bool_decide_eq_true in Hc. repeat split; try done. by right.
  - split; [|done]. apply Halter. intros tm (? & ? & ?).
    cbn in Hen. apply andb_true_iff in Hen as [Hen Hhi].
    apply andb_true_iff in Hen as [_ Hlo].
    apply Z.leb_le in Hlo, Hhi.
    repeat split; try done. right. by exists n.
  - split; [|done]. apply Halter. intros tm (? & ? & ?).
    cbn in Hen. apply andb_true_iff in Hen as [_ Hf].
    apply bool_decide_eq_true in Hf. repeat split; try done. by right.
  - cbn in Hen |- *. unfold dialog_open in Hen.
    destruct (text_menus w !! d) as [tm|] eqn:Hd; [|done].
    destruct (destroyed tm) eqn:Ha; [done|].
    split.
    + destruct (apply_changes_menus d w) as [->| ->]; [done|].
      apply Halter. by intros ? (? & ? & ?).
    + destruct (apply_changes_attrs d w tm Hd Ha) as [->|[Hf ->]]; [done|].
      apply stored_from_inputs; [|done].
      rewrite Forall_forall in Hm. apply Hm. by eapply list_elem_of_lookup_2.
  - split; [|done]. cbn. apply Halter. by intros ? (? & ? & ?).
Qed.

(** X4.  Whatever the user does after launch, the stored watermark is
    either absent altogether or well formed: a text that is not empty, the
    code the palette holds for some colour name, a size between 30 and 80
    written so that [int] reads it back, and a family of the list. *)
Theorem stored_watermark_is_valid (P : Platform) (files : gmap string file)
    (es : list event) :
  stored_ok (watermark_attrs (run P es (launch P files).2)).
Proof.
  assert (H0 : Forall input_ok (text_menus (launch P files).2) ∧
               stored_ok (watermark_attrs (launch P files).2)).
  { unfold launch.
    assert (H1 : keeps text_menus (menu_start P)) by keeps_go.
    assert (H2 : keeps watermark_attrs (menu_start P)) by keeps_go.
    rewrite H1, H2. split; [constructor|by left]. }
  revert H0. generalize ((launch P files).2).
  induction es as [|e es IH]; intros w Hw; [apply Hw|].
  change (run P (e :: es) w) with (run P es (dispatch P w e)).
  apply IH. by apply dispatch_keeps_validity.
Qed.

(** *** The outcomes of a save *)

(** X5.  [save_image] ends in one of four ways.  Cancelled: nothing changes.
    The picker cannot open the chosen file: [IOError] is raised and nothing
    changes, the files included.  Success: the chosen path holds an image and
    the trace gains the "Image saved" notice and the printed line.  Failure
    after the picker has opened the file: the trace gains nothing (no
    notice), and the chosen path holds an empty file, whatever it held
    before. *)
Theorem save_image_outcomes (P : Platform) (w : World) (picked : option string) :
  let r := save_image P picked w in
  (picked = None ∧ r = (Ok tt, w)) ∨
  (∃ name, picked = Some name ∧
     open_fails P (fs w) (abspath P name) = true ∧ r = (Raise IOError, w)) ∨
  (∃ name im, picked = Some name ∧
     open_fails P (fs w) (abspath P name) = false ∧ r.1 = Ok tt ∧
     fs r.2 !! abspath P name = Some (image_file im) ∧
     out r.2 = (out w ++ [showinfo "Image saved" "File saved correctly.";
                          print ("Image saved in: " +:+ abspath P name)])%list) ∨
  (∃ name e, picked = Some name ∧
     open_fails P (fs w) (abspath P name) = false ∧ r.1 = Raise e ∧
     fs r.2 !! abspath P name = Some empty_file ∧ out r.2 = out w).
Proof.
  destruct picked as [name|]; [right|by left].
  break_world w.
  unfold save_image, asksaveasfile, Image_open, itemcget_text, with_canvas,
    try_except_IOError, int, truetype, Image_save.
  munfold.
  destruct (open_fails P _ _) eqn:Eo; [left; by exists name|right].
  cbn.
  mcases;
    try (right; eexists _, _; rewrite ?lookup_insert_eq; by repeat split);
    left; eexists _, _; rewrite ?lookup_insert_eq, <- ?app_assoc; by repeat split.
Qed.

(** X6.  Choosing the original itself as the target loses it: the picker
    truncates the file before [save_image] re-opens it, so the handler raises
    [IOError] and the original is left empty.  (When the picker cannot even
    open the file, the handler raises [IOError] as well and the files stay as
    they were.) *)
Theorem save_over_original_destroys_it (P : Platform) (w : World) (f name : string) :
  search_file (self w) = bound f →
  abspath P f = abspath P name →
  let r := save_image P (Some name) w in
  r.1 = Raise IOError ∧ out r.2 = out w ∧
  (open_fails P (fs w) (abspath P name) = false →
   fs r.2 !! abspath P f = Some empty_file) ∧
  (open_fails P (fs w) (abspath P name) = true → fs r.2 = fs w).
Proof.
  intros Hsf Heq. break_world w. subst.
  unfold save_image, asksaveasfile, Image_open. munfold.
  destruct (open_fails P _ _) eqn:Eo; cbn; [done|].
  rewrite Heq, lookup_insert_eq. cbn. by rewrite lookup_insert_eq.
Qed.

Lemma save_over_original_destroys_it_witness :
  let w := watermarked no_font 40 "Arial" in
  let r := save_image no_font (Some "/photos/cat.png") w in
  fs w !! "/photos/cat.png" = Some (image_file cat) ∧
  r.1 = Raise IOError ∧ out r.2 = out w ∧
  fs r.2 !! "/photos/cat.png" = Some empty_file.
Proof.
  intros w r. split; [vm_compute; reflexivity|].
  destruct (save_over_original_destroys_it no_font w "/photos/cat.png"
              "/photos/cat.png") as (Hr & Ho & Hf & _).
  - vm_compute. reflexivity.
  - reflexivity.
  - split; [exact Hr|]. split; [exact Ho|]. apply Hf. vm_compute. reflexivity.
Defined.

(** *** Launch *)

(** X7.  The program starts if and only if its icon can be read.  When it
    starts, the landing screen shows the "Select File" button and none of the
    editing buttons, with no file chosen; otherwise [menu_start] raises
    [TclError] out of the constructor. *)
Theorem launch_needs_icon (P : Platform) (files : gmap string file) :
  let r := launch P files in
  ((∃ ico, files !! abspath P "images/watermaker_icon.png" = Some (image_file ico)) ∧
   r.1 = Ok tt ∧ in_principal (self r.2) = true ∧
   shows_button cmd_change_menu r.2 = true ∧
   shows_button cmd_open_text_settings r.2 = false ∧
   shows_button cmd_save_image r.2 = false ∧
   shows_button cmd_return_to_principal r.2 = false ∧
   search_file (self r.2) = unset ∧ text_menus r.2 = [] ∧ fs r.2 = files) ∨
  ((∀ ico, files !! abspath P "images/watermaker_icon.png" ≠ Some (image_file ico)) ∧
   r.1 = Raise TclError ∧ fs r.2 = files ∧
   shows_button cmd_change_menu r.2 = false).
Proof.
  unfold launch, menu_start, PhotoImage_file, create_text, create_image, create_item,
    canvas_config, with_canvas, new_widget, grid.
  munfold.
  destruct (files !! abspath P "images/watermaker_icon.png") as [[|ico|]|] eqn:E;
    cbn; [right|left|right|right]; try (by repeat split).
  split; [by exists ico|]. decide_closed. by repeat split.
Qed.

(** *** Choosing a file *)

Ltac eval_launch Hico :=
  unfold launch, menu_start, PhotoImage_file, create_text, create_image, create_item,
    canvas_config, with_canvas, new_widget, grid;
  munfold; rewrite Hico; cbn.

(** X8.  From the landing screen, choosing a readable image switches to the
    editing screen without error: the flag is cleared, "Select File" is gone
    and the three editing buttons are shown; the canvas has lost its title,
    its logo item now shows the image resized to 600x600, and a new, empty
    text item sits at (300, 500) for the watermark; no watermark is stored
    yet. *)
Theorem select_file_opens_editing_screen (P : Platform) (files : gmap string file)
    (p : string) (ico im : Image) :
  files !! abspath P "images/watermaker_icon.png" = Some (image_file ico) →
  files !! abspath P p = Some (image_file im) →
  p ≠ "" →
  let w1 := dispatch P (launch P files).2 (SelectFile p) in
  out w1 = [] ∧ in_principal (self w1) = false ∧
  shows_button cmd_change_menu w1 = false ∧
  shows_button cmd_open_text_settings w1 = true ∧
  shows_button cmd_save_image w1 = true ∧
  shows_button cmd_return_to_principal w1 = true ∧
  search_file (self w1) = bound p ∧
  new_image (self w1) = bound (ImageTk_PhotoImage (resize (600, 600) im)) ∧
  items (canvas_of w1) =
    [ None;
      Some (image_item 300 300 (ImageTk_PhotoImage (resize (600, 600) im)));
      Some (text_item 300 500 (Some 500) "" None None) ] ∧
  text_watermarker (self w1) = bound 3%nat ∧
  callback_ready w1 = true ∧
  watermark_attrs w1 = (unset, unset, unset, unset) ∧
  fs w1 = files.
Proof.
  intros Hico Hfile Hp. eval_launch Hico.
  match goal with |- context [dispatch P ?w (SelectFile p)] =>
    eassert (E1 : dispatch P w (SelectFile p) = _) end.
  { unfold dispatch. cbn. decide_closed. cbn.
    unfold change_menu. munfold.
    rewrite (bool_decide_eq_true_2 (p ≠ "")) by done. cbn.
    unfold canvas_delete, grid_forget, setting_buttons, add_image, with_canvas,
      new_widget, grid, create_text, create_item, Image_open, itemconfig_image,
      with_canvas.
    munfold. rewrite Hfile. cbn. reflexivity. }
  rewrite E1. clear E1.
  cbn. decide_closed. cbn. repeat split; reflexivity.
Qed.

Lemma select_file_opens_editing_screen_witness :
  let w1 := dispatch no_font (launch no_font demo_fs).2 (SelectFile "/photos/cat.png") in
  out w1 = [] ∧ in_principal (self w1) = false ∧
  shows_button cmd_change_menu w1 = false ∧
  shows_button cmd_open_text_settings w1 = true.
Proof.
  intros w1.
  destruct (select_file_opens_editing_screen no_font demo_fs "/photos/cat.png" icon cat)
    as (H1 & H2 & H3 & H4 & _).
  - vm_compute. reflexivity.
  - vm_compute. reflexivity.
  - discriminate.
  - repeat split; assumption.
Defined.

(** X9.  Choosing a file that cannot be read as an image is reported as an
    [IOError], but only after the screen has been switched: the window is
    left on the editing screen, with its three buttons and an empty watermark
    item, the logo still in place of a preview and the unreadable path
    stored. *)
Theorem select_unreadable_file_still_switches (P : Platform)
    (files : gmap string file) (p : string) (ico : Image) :
  files !! abspath P "images/watermaker_icon.png" = Some (image_file ico) →
  (∀ im, files !! abspath P p ≠ Some (image_file im)) →
  p ≠ "" →
  let w1 := dispatch P (launch P files).2 (SelectFile p) in
  out w1 = [traceback IOError] ∧ in_principal (self w1) = false ∧
  shows_button cmd_change_menu w1 = false ∧
  shows_button cmd_open_text_settings w1 = true ∧
  shows_button cmd_save_image w1 = true ∧
  shows_button cmd_return_to_principal w1 = true ∧
  search_file (self w1) = bound p ∧
  new_image (self w1) = unset ∧
  items (canvas_of w1) =
    [ None;
      Some (image_item 300 300 (PhotoImage "images/watermaker_icon.png" ico));
      Some (text_item 300 500 (Some 500) "" None None) ] ∧
  callback_ready w1 = true ∧
  fs w1 = files.
Proof.
  intros Hico Hfile Hp. eval_launch Hico.
  match goal with |- context [dispatch P ?w (SelectFile p)] =>
    eassert (E1 : dispatch P w (SelectFile p) = _) end.
  { unfold dispatch. cbn. decide_closed. cbn.
    unfold change_menu. munfold.
    rewrite (bool_decide_eq_true_2 (p ≠ "")) by done. cbn.
    unfold canvas_delete, grid_forget, setting_buttons, add_image, with_canvas,
      new_widget, grid, create_text, create_item, Image_open, itemconfig_image,
      with_canvas.
    munfold.
    destruct (files !! abspath P p) as [[|im|]|] eqn:E;
      [|by destruct (Hfile im)| |]; cbn; reflexivity. }
  rewrite E1. clear E1.
  cbn. decide_closed. cbn. repeat split; reflexivity.
Qed.

Lemma select_unreadable_file_still_switches_witness :
  let w1 := dispatch no_font (launch no_font demo_fs).2 (SelectFile "/photos/dog.png") in
  out w1 = [traceback IOError] ∧ in_principal (self w1) = false ∧
  shows_button cmd_change_menu w1 = false ∧
  shows_button cmd_open_text_settings w1 = true.
Proof.
  intros w1.
  destruct (select_unreadable_file_still_switches no_font demo_fs "/photos/dog.png" icon)
    as (H1 & H2 & H3 & H4 & _).
  - vm_compute. reflexivity.
  - intros im. vm_compute. discriminate.
  - discriminate.
  - repeat split; assumption.
Defined.

(** *** A dialog without callback *)

(** X10.  [TextMenu] may be built without a callback (the default).  Its
    confirmation, with the four inputs filled, then calls nothing: the window
    object and the trace are untouched, and the dialog is destroyed all the
    same. *)
Theorem apply_changes_without_callback (w : World) (d : nat) (tm : TextMenu) :
  text_menus w !! d = Some tm → destroyed tm = false →
  callback tm = None →
  spinbox tm ≠ "" → color_box tm ≠ "" → text_entry tm ≠ "" → font_box tm ≠ "" →
  ∃ w', apply_changes d w = (Ok tt, w') ∧
    self w' = self w ∧ widgets w' = widgets w ∧ out w' = out w ∧
    dialog_open d w' = false.
Proof.
  intros Hd Ha Hcb Hs Hc Ht Hf.
  rewrite (apply_changes_unregistered w d tm) by (try done; by apply all_filled_true).
  eexists. split; [reflexivity|]. cbn. repeat split.
  apply dialog_open_destroy.
Qed.

Lemma apply_changes_without_callback_witness :
  let w0 := (TextMenu_new None (editing no_font)).2 in
  let w := run no_font [EnterText 0 "hello"; PickColor 0 "Red"; PickSize 0 40;
                        PickFont 0 "Arial"] w0 in
  ∃ w', apply_changes 0 w = (Ok tt, w') ∧
    self w' = self w ∧ widgets w' = widgets w ∧ out w' = out w ∧
    dialog_open 0 w' = false.
Proof.
  intros w0 w.
  apply (apply_changes_without_callback w 0
           {| callback := None; text_entry := "hello"; color_box := "Red";
              spinbox := "40"; font_box := "Arial"; destroyed := false |}).
  - vm_compute. reflexivity.
  - reflexivity.
  - reflexivity.
  - discriminate.
  - discriminate.
  - discriminate.
  - discriminate.
Defined.

(** *** The font family and the saved file *)

(** X11.  [save_image] reads neither [font_value] nor the font of a canvas
    item: run in two worlds that differ only in the places where a font
    family is kept, it ends the same way in both and leaves the same files. *)
Theorem save_image_ignores_family (P : Platform) (w1 w2 : World)
    (picked : option string) :
  world_sim w1 w2 →
  (save_image P picked w1).1 = (save_image P picked w2).1 ∧
  fs (save_image P picked w1).2 = fs (save_image P picked w2).2.
Proof.
  intros Hw. destruct (rel_save_image P picked w1 w2 Hw) as [Hr Hw'].
  split; [|apply (sim_fs _ _ Hw')].
  destruct (save_image P picked w1) as [[[]|e1] w1'],
           (save_image P picked w2) as [[[]|e2] w2']; cbn in *; try done.
  by subst.
Qed.

Lemma only_save_writes_files_witness :
  let w := watermarked no_font 40 "Arial" in
  fs (dispatch no_font w (SaveImage (Some "/out/marked.png"))) !! "/out/marked.png"
    ≠ fs w !! "/out/marked.png" ∧
  ∃ name, SaveImage (Some "/out/marked.png") = SaveImage (Some name) ∧
          "/out/marked.png" = abspath no_font name.
Proof.
  intros w.
  assert (H : fs (dispatch no_font w (SaveImage (Some "/out/marked.png")))
                !! "/out/marked.png" ≠ fs w !! "/out/marked.png")
    by (vm_compute; discriminate).
  split; [exact H|].
  exact (only_save_writes_files no_font w (SaveImage (Some "/out/marked.png"))
           "/out/marked.png" H).
Defined.

Lemma only_confirmation_sets_watermark_witness :
  let w := dialog_filled no_font "hello" in
  watermark_attrs (dispatch no_font w (ApplyChanges 0)) ≠ watermark_attrs w ∧
  ∃ d tm, ApplyChanges 0 = ApplyChanges d ∧ text_menus w !! d = Some tm ∧
    destroyed tm = false ∧
    spinbox tm ≠ "" ∧ color_box tm ≠ "" ∧ text_entry tm ≠ "" ∧ font_box tm ≠ "" ∧
    watermark_attrs (dispatch no_font w (ApplyChanges 0)) =
      (bound (text_entry tm), bound (COLORS_AND_CODE !! color_box tm),
       bound (spinbox tm), bound (font_box tm)).
Proof.
  intros w.
  assert (H : watermark_attrs (dispatch no_font w (ApplyChanges 0)) ≠ watermark_attrs w)
    by (vm_compute; discriminate).
  split; [exact H|].
  exact (only_confirmation_sets_watermark no_font w (ApplyChanges 0) H).
Defined.

Lemma save_image_ignores_family_witness :
  let w1 := watermarked with_font 40 "Arial" in
  let w2 := watermarked with_font 40 "Impact" in
  font_value (self w1) ≠ font_value (self w2) ∧
  (save_image with_font (Some "/out/marked.png") w1).1
    = (save_image with_font (Some "/out/marked.png") w2).1 ∧
  fs (save_image with_font (Some "/out/marked.png") w1).2
    = fs (save_image with_font (Some "/out/marked.png") w2).2.
Proof.
  intros w1 w2. split; [vm_compute; discriminate|].
  apply (save_image_ignores_family with_font w1 w2 (Some "/out/marked.png")).
  apply run_sim; [|apply world_sim_refl].
  constructor; [apply same_event|].
  constructor; [apply same_event|].
  constructor; [apply same_event|].
  constructor; [apply same_event|].
  constructor;
    [apply other_family; apply (bool_decide_unpack _); vm_compute; exact I|].
  constructor; [apply same_event|].
  constructor.
Defined.

(** *** A dialog that is gone *)

Lemma keeps_emit_calls d e :
  calls_of d [e] = [] → keeps (λ w, calls_of d (out w)) (emit e).
Proof.
  intros He w. unfold emit, modify. cbn. by rewrite calls_of_snoc, He, app_nil_r.
Qed.

Lemma values_received_keeps_out a b c e : keeps out (values_received a b c e).
Proof. intros w. apply values_received_frame. Qed.

Lemma apply_changes_calls d d' w :
  d ≠ d' → calls_of d (out (apply_changes d' w).2) = calls_of d (out w).
Proof.
  intros Hne. unfold apply_changes. munfold.
  destruct (text_menus w !! d') as [tm|]; [|done].
  destruct (destroyed tm); [done|]. cbn.
  destruct (_ && _); cbn; [|by rewrite calls_of_snoc, app_nil_r].
  destruct (callback tm) as [[]|]; cbn; [|done].
  match goal with |- context [values_received ?a ?b ?c ?e ?w1] =>
    pose proof (values_received_keeps_out a b c e w1) as Ho;
    destruct (values_received a b c e w1) as [[] w2] end; cbn in *;
    rewrite Ho, calls_of_snoc; cbn;
    rewrite bool_decide_eq_false_2 by done; by rewrite app_nil_r.
Qed.

Lemma gone_not_open d w : gone d w → dialog_open d w = false.
Proof. intros (tm & Hd & Ha). unfold dialog_open. by rewrite Hd, Ha. Qed.

Lemma gone_alter d d' f w :
  (∀ tm, destroyed tm = true → destroyed (f tm) = true) →
  gone d w → gone d (set_text_menus (alter f d' (text_menus w)) w).
Proof.
  intros Hf (tm & Hd & Ha). unfold gone. cbn.
  destruct (decide (d' = d)) as [->|Hne].
  - exists (f tm). rewrite list_lookup_alter_eq, Hd. split; [done|by apply Hf].
  - exists tm. by rewrite list_lookup_alter_ne.
Qed.

Lemma dispatch_keeps_gone P d w e :
  gone d w →
  gone d (dispatch P w e) ∧ calls_of d (out (dispatch P w e)) = calls_of d (out w).
Proof.
  intros Hg. pose proof (gone_not_open d w Hg) as Hclosed.
  assert (Hext : ∀ w1 w2, text_menus w1 = text_menus w2 → gone d w2 → gone d w1).
  { intros w1 w2 He (tm & Hd & Ha). exists tm. by rewrite He. }
  assert (Hdisp : ∀ (m : M unit),
            gone d (m w).2 → calls_of d (out (m w).2) = calls_of d (out w) →
            let w' := match m w with
                      | (Ok _, w') => w'
                      | (Raise x, w') => set_out (out w' ++ [traceback x]) w'
                      end in
            gone d w' ∧ calls_of d (out w') = calls_of d (out w)).
  { intros m Hg' Hc. destruct (m w) as [[] w']; cbn in *; [done|].
    split; [by apply (Hext _ w')|]. by rewrite calls_of_snoc, app_nil_r. }
  unfold dispatch. destruct (enabled e w) eqn:Hen; [|done].
  apply Hdisp.
  - destruct e as [p| |p| |d' s|d' c|d' n|d' f|d'|d']; cbn.
    + assert (H1 : keeps text_menus (change_menu P p)) by keeps_go.
      by apply (Hext _ w).
    + unfold open_text_settings, TextMenu_new. munfold.
      destruct (in_use w); cbn; [done|].
      destruct Hg as (tm & Hd & Ha). exists tm. split; [|done].
      cbn. by apply lookup_app_l_Some.
    + assert (H1 : keeps text_menus (save_image P p)) by keeps_go.
      by apply (Hext _ w).
    + assert (H1 : keeps text_menus (return_to_principal P)) by keeps_go.
      by apply (Hext _ w).
    + by apply gone_alter.
    + by apply gone_alter.
    + by apply gone_alter.
    + by apply gone_alter.
    + destruct (apply_changes_menus d' w) as [He|He].
      * by apply (Hext _ w).
      * apply (Hext _ (set_text_menus (alter (set_destroyed true) d' (text_menus w)) w));
          [done|]. by apply gone_alter.
    + unfold close_window. munfold. by apply (gone_alter d d' (set_destroyed true) w).
  - destruct e as [p| |p| |d' s|d' c|d' n|d' f|d'|d']; cbn.
    + assert (H1 : keeps out (change_menu P p)) by keeps_go. by rewrite H1.
    + assert (H1 : keeps out open_text_settings) by keeps_go. by rewrite H1.
    + assert (H1 : keeps (λ w, calls_of d (out w)) (save_image P p)).
      { keeps_unfold.
        repeat first [ apply keeps_emit_calls; reflexivity | keeps_step ]. }
      by rewrite H1.
    + assert (H1 : keeps out (return_to_principal P)) by keeps_go. by rewrite H1.
    + done.
    + done.
    + done.
    + done.
    + apply apply_changes_calls. intros ->. cbn in Hen. congruence.
    + done.
Qed.

(** X12.  A dialog that has been destroyed never calls back again: whatever
    events follow, the callback invocations recorded for it stay as they
    were, and it stays closed. *)
Theorem closed_dialog_is_silent (P : Platform) (w : World) (d : nat) (tm : TextMenu)
    (es : list event) :
  text_menus w !! d = Some tm → destroyed tm = true →
  calls_of d (out (run P es w)) = calls_of d (out w) ∧
  dialog_open d (run P es w) = false.
Proof.
  intros Hd Ha. assert (Hg : gone d w) by by exists tm. clear Hd Ha.
  revert w Hg. induction es as [|e es IH]; intros w Hg.
  - split; [done|by apply gone_not_open].
  - change (run P (e :: es) w) with (run P es (dispatch P w e)).
    destruct (dispatch_keeps_gone P d w e Hg) as [Hg' Hc].
    destruct (IH _ Hg') as [Hc' Hclosed]. split; [congruence|done].
Qed.

Lemma closed_dialog_is_silent_witness :
  let w := watermarked no_font 40 "Arial" in
  let es := [ApplyChanges 0; EnterText 0 "again"; InsertText; ApplyChanges 0;
             SaveImage (Some "/out/marked.png")] in
  calls_of 0 (out w) = [("hello", Some "#a32424", "40", "Arial")] ∧
  calls_of 0 (out (run no_font es w)) = calls_of 0 (out w) ∧
  dialog_open 0 (run no_font es w) = false.
Proof.
  intros w es. split; [vm_compute; reflexivity|].
  apply (closed_dialog_is_silent no_font w 0
           {| callback := Some bound_values_received; text_entry := "hello";
              color_box := "Red"; spinbox := "40"; font_box := "Arial";
              destroyed := true |} es).
  - vm_compute. reflexivity.
  - reflexivity.
Defined.

(** *** From the confirmation to the file *)

(** X13.  What a save draws is what was last handed to [values_received].
    Suppose the watermark item exists on the canvas as a text item, the size
    handed over reads as the integer [n], the picker can open the target, the
    original is readable and is not the target, loading the hard-coded font
    at size [n] either succeeds or raises [IOError], and the library can
    write the picture.  Then storing a text, a colour and that size and
    saving right after writes the original, resized, with exactly that text
    in that colour, in the hard-coded font at size [n] or, if it raised, in
    the default font. *)
Theorem confirmed_text_is_what_save_draws (P : Platform) (w : World)
    (name f text size family : string) (color : option string) (orig : Image)
    (c t : nat) (cv : Canvas) (g : option grid_opts) (n : Z) (font : Font)
    (x y : Z) (wd : option Z) (old : string) (fill0 : option string)
    (ft0 : option tk_font) :
  open_fails P (fs w) (abspath P name) = false →
  search_file (self w) = bound f →
  fs w !! abspath P f = Some (image_file orig) →
  abspath P f ≠ abspath P name →
  canvas (self w) = bound c →
  widgets w !! c = Some {| kind := CanvasW cv; grid_info := g |} →
  text_watermarker (self w) = bound t →
  item_at cv t = Some (text_item x y wd old fill0 ft0) →
  py_int size = Some n →
  (truetype_raises P (<[abspath P name := empty_file]> (fs w)) font_path n = None
     ∧ font = FreeTypeFont font_path n
   ∨ truetype_raises P (<[abspath P name := empty_file]> (fs w)) font_path n = Some IOError
     ∧ font = DefaultFont) →
  save_raises P (composed orig text color font) (abspath P name) = None →
  ∃ w1 w2,
    values_received text color size family w = (Ok tt, w1) ∧
    save_image P (Some name) w1 = (Ok tt, w2) ∧
    fs w2 !! abspath P name = Some (image_file (composed orig text color font)).
Proof.
  intros Hopen Hsf Hfile Hne Hc Hw Ht Hit Hint Hfont Hsave.
  assert (Hlt : (c < length (widgets w))%nat) by by eapply lookup_lt_Some.
  break_world w. subst.
  destruct t as [|i]; [done|]. cbn in Hit.
  destruct (items cv !! i) as [o|] eqn:Ei; [|done]. cbn in Hit. subst o.
  assert (Hi : (i < length (items cv))%nat) by by eapply lookup_lt_Some.
  set (fill' := match color with Some k => Some k | None => fill0 end).
  set (cv1 := set_items (<[i := Some (text_item x y wd text fill' (Some (family, size, "bold")))]>
                           (items cv)) cv).
  assert (Hov : overlay_text cv1 (S i) = text).
  { unfold overlay_text, cv1. cbn. by rewrite list_lookup_insert_eq. }
  eexists _, _. split; [|split].
  - unfold values_received, itemconfig_text. munfold.
    erewrite with_canvas_run by (cbn; exact Hw).
    cbn. rewrite Ei. cbn. reflexivity.
  - eapply (save_image_ok P _ name f size orig c (S i) cv1 g n color font); cbn;
      try done.
    + by rewrite list_lookup_insert_eq.
    + intros ? ? ?. by rewrite list_lookup_insert_eq.
    + by rewrite Hov.
  - cbn. rewrite Hov. by rewrite lookup_insert_eq.
Qed.

Lemma confirmed_text_is_what_save_draws_witness :
  ∃ w1 w2,
    values_received "draft" (Some "#2424a3") "55" "Georgia" (editing with_font)
      = (Ok tt, w1) ∧
    save_image with_font (Some "/out/marked.png") w1 = (Ok tt, w2) ∧
    fs w2 !! abspath with_font "/out/marked.png" =
      Some (image_file (composed cat "draft" (Some "#2424a3")
                          (FreeTypeFont font_path 55))).
Proof.
  apply (confirmed_text_is_what_save_draws with_font (editing with_font)
           "/out/marked.png" "/photos/cat.png" "draft" "55" "Georgia"
           (Some "#2424a3") cat 0 3 (canvas_of (editing with_font)) landing_grid 55
           (FreeTypeFont font_path 55) 300 500 (Some 500) "" None None).
  - vm_compute. reflexivity.
  - vm_compute. reflexivity.
  - vm_compute. reflexivity.
  - vm_compute. discriminate.
  - vm_compute. reflexivity.
  - vm_compute. reflexivity.
  - vm_compute. reflexivity.
  - vm_compute. reflexivity.
  - vm_compute. reflexivity.
  - left. split; reflexivity.
  - reflexivity.
Defined.

(** ** The invariant of the main window *)

(** *** Buttons and canvases in the widget store *)

Lemma shown_at_forget c j ws i :
  shown_at c (alter (λ x, {| kind := kind x; grid_info := None |}) j ws) i →
  shown_at c ws i ∧ i ≠ j.
Proof.
  intros (t & h & wd & g & H). destruct (decide (i = j)) as [->|Hne].
  - rewrite list_lookup_alter_eq in H. by destruct (ws !! j).
  - rewrite list_lookup_alter_ne in H by done. split; [|done]. by exists t, h, wd, g.
Qed.

Lemma shown_at_grid c o j ws i :
  shown_at c (alter (λ x, {| kind := kind x; grid_info := Some o |}) j ws) i →
  shown_at c ws i ∨
  (i = j ∧ ∃ x t h wd, ws !! j = Some x ∧ kind x = Button t h c wd).
Proof.
  intros (t & h & wd & g & H). destruct (decide (i = j)) as [->|Hne].
  - right. split; [done|]. rewrite list_lookup_alter_eq in H.
    destruct (ws !! j) as [x|]; [|done]. cbn in H.
    exists x, t, h, wd. split; [done|]. congruence.
  - rewrite list_lookup_alter_ne in H by done. left. by exists t, h, wd, g.
Qed.

Lemma shown_at_snoc c ws k i :
  shown_at c (ws ++ [{| kind := k; grid_info := None |}]) i → shown_at c ws i.
Proof.
  intros (t & h & wd & g & H).
  apply lookup_snoc_Some in H as [[_ H]|[_ H]]; [|done].
  by exists t, h, wd, g.
Qed.

Lemma shown_at_canvas c ws r cv g i :
  shown_at c (<[r := {| kind := CanvasW cv; grid_info := g |}]> ws) i →
  shown_at c ws i.
Proof.
  intros (t & h & wd & g' & H).
  apply list_lookup_insert_Some in H as [(_ & H & _)|[_ H]]; [done|].
  by exists t, h, wd, g'.
Qed.

Lemma has_editing_alter f j ws :
  (∀ x, kind (f x) = kind x) → has_editing (alter f j ws) → has_editing ws.
Proof.
  intros Hf (i & t & h & c & wd & g & H & Hc). destruct (decide (i = j)) as [->|Hne].
  - rewrite list_lookup_alter_eq in H.
    destruct (ws !! j) as [[k g0]|] eqn:E; [|done]. cbn in H.
    injection H as H. specialize (Hf {| kind := k; grid_info := g0 |}).
    rewrite H in Hf. cbn in Hf. subst k. by exists j, t, h, c, wd, g0.
  - rewrite list_lookup_alter_ne in H by done. by exists i, t, h, c, wd, g.
Qed.

Lemma has_editing_snoc ws k g :
  has_editing (ws ++ [{| kind := k; grid_info := g |}]) →
  has_editing ws ∨
  ∃ t h c wd, k = Button t h c wd ∧ (c = cmd_open_text_settings ∨ c = cmd_save_image).
Proof.
  intros (i & t & h & c & wd & g' & H & Hc).
  apply lookup_snoc_Some in H as [[_ H]|[_ H]].
  - left. by exists i, t, h, c, wd, g'.
  - right. exists t, h, c, wd. split; [congruence|done].
Qed.

Lemma has_editing_canvas ws r cv g :
  has_editing (<[r := {| kind := CanvasW cv; grid_info := g |}]> ws) → has_editing ws.
Proof.
  intros (i & t & h & c & wd & g' & H & Hc).
  apply list_lookup_insert_Some in H as [(_ & H & _)|[_ H]]; [done|].
  by exists i, t, h, c, wd, g'.
Qed.

Lemma canvas_at_alter f j ws c cv :
  (∀ x, kind (f x) = kind x) → canvas_at ws c cv → canvas_at (alter f j ws) c cv.
Proof.
  intros Hf [g H]. destruct (decide (c = j)) as [->|Hne].
  - unfold canvas_at. rewrite list_lookup_alter_eq, H. cbn.
    specialize (Hf {| kind := CanvasW cv; grid_info := g |}).
    destruct (f _) as [k g']. cbn in Hf. subst k. by exists g'.
  - exists g. by rewrite list_lookup_alter_ne.
Qed.

Lemma canvas_at_app ws l c cv : canvas_at ws c cv → canvas_at (ws ++ l) c cv.
Proof. intros [g H]. exists g. by apply lookup_app_l_Some. Qed.

Lemma canvas_at_insert ws c cv0 cv g :
  canvas_at ws c cv0 →
  canvas_at (<[c := {| kind := CanvasW cv; grid_info := g |}]> ws) c cv.
Proof.
  intros [g0 H]. exists g. apply list_lookup_insert_eq. by eapply lookup_lt_Some.
Qed.

Lemma canvas_at_new ws cv g :
  canvas_at (ws ++ [{| kind := CanvasW cv; grid_info := g |}]) (length ws) cv.
Proof. exists g. by rewrite list_lookup_middle. Qed.

Lemma canvas_at_inj ws c cv1 cv2 : canvas_at ws c cv1 → canvas_at ws c cv2 → cv1 = cv2.
Proof. intros [g1 H1] [g2 H2]. congruence. Qed.

Lemma shows_button_shown c w :
  shows_button c w = true ↔ ∃ i, shown_at c (widgets w) i.
Proof.
  unfold shows_button. rewrite existsb_exists. split.
  - intros ([k [g|]] & Hin & Hx); destruct k; cbn in Hx; try done.
    apply bool_decide_eq_true in Hx as ->.
    apply list_elem_of_In, list_elem_of_lookup in Hin as [i Hi].
    exists i. by eexists _, _, _, _.
  - intros (i & t & h & wd & g & H). eexists. split.
    + apply list_elem_of_In. by eapply list_elem_of_lookup_2.
    + cbn. by apply bool_decide_eq_true.
Qed.

Lemma shown_at_forget_ne c j ws i :
  shown_at c ws i → i ≠ j →
  shown_at c (alter (λ x, {| kind := kind x; grid_info := None |}) j ws) i.
Proof.
  intros (t & h & wd & g & H) Hne. exists t, h, wd, g.
  by rewrite list_lookup_alter_ne.
Qed.

Lemma shown_at_grid_keep c o j ws i :
  shown_at c ws i →
  shown_at c (alter (λ x, {| kind := kind x; grid_info := Some o |}) j ws) i.
Proof.
  intros (t & h & wd & g & H). destruct (decide (i = j)) as [->|Hne].
  - exists t, h, wd, o. by rewrite list_lookup_alter_eq, H.
  - exists t, h, wd, g. by rewrite list_lookup_alter_ne.
Qed.

Lemma shown_at_grid_new c o j ws t h wd g :
  ws !! j = Some {| kind := Button t h c wd; grid_info := g |} →
  shown_at c (alter (λ x, {| kind := kind x; grid_info := Some o |}) j ws) j.
Proof. intros H. exists t, h, wd, o. by rewrite list_lookup_alter_eq, H. Qed.

Lemma shown_at_app c ws l i : shown_at c ws i → shown_at c (ws ++ l) i.
Proof.
  intros (t & h & wd & g & H). exists t, h, wd, g. by apply lookup_app_l_Some.
Qed.

Lemma shown_at_canvas_keep c ws r cv cv' g i :
  canvas_at ws r cv → shown_at c ws i →
  shown_at c (<[r := {| kind := CanvasW cv'; grid_info := g |}]> ws) i.
Proof.
  intros [g0 Hr] (t & h & wd & g' & H). exists t, h, wd, g'.
  rewrite list_lookup_insert_ne; [done|]. intros ->. congruence.
Qed.

(** *** How the store operations act on the invariant *)

Section stage.

Context (L E F : Prop).

Lemma stage_weaken s r d sh s' r' d' sh' cnv tw ref ws tms :
  stage L E F s r d sh cnv tw ref ws tms →
  (s' = false → s = false) → (r' = false → r = false) → (d' = true → d = true) →
  (∀ cv, sh cv → sh' cv) →
  stage L E F s' r' d' sh' cnv tw ref ws tms.
Proof.
  intros [(c & cv & ? & ? & ? & ?) ? Hed ? ? ? ? ? ? ? ?] Hs Hr Hd Hsh.
  constructor; eauto 10.
Qed.

Lemma stage_props L' E' F' s r d sh cnv tw ref ws tms :
  stage L' E' F' s r d sh cnv tw ref ws tms →
  (L' → L) → (E' → E) → (F' → F) →
  stage L E F s r d sh cnv tw ref ws tms.
Proof.
  intros [? ? Hed ? ? ? ? ? ? ? ?] HL HE HF.
  constructor; eauto.
  intros Hd Hh. destruct (Hed Hd Hh). eauto.
Qed.

(** Fewer buttons are shown, and as long as "Return" is, those that were
    shown before still are. *)
Lemma stage_shrink s r d sh cnv tw ref ws ws' tms :
  stage L E F s r d sh cnv tw ref ws tms →
  (∀ c cv, canvas_at ws c cv → canvas_at ws' c cv) →
  (∀ c i, shown_at c ws' i → shown_at c ws i) →
  (∀ c, (∃ i, shown_at c ws i) →
        (∃ j, shown_at cmd_return_to_principal ws' j) → ∃ i, shown_at c ws' i) →
  (d = true → has_editing ws' → has_editing ws) →
  stage L E F s r d sh cnv tw ref ws' tms.
Proof.
  intros [(c & cv & ? & ? & ? & Hlen) ? Hins ? Hex Href Htrio HL HE Hns Hne]
    Hc Hs Hk Hi.
  constructor; eauto.
  - exists c, cv. repeat split; eauto. intros [i ?]. apply Hlen. eauto.
  - intros [j Hj]. destruct Htrio as [Ht1 Ht2]; [eauto|]. split; apply Hk; eauto.
  - intros [i ?]. apply HL. eauto.
  - intros [i ?]. apply HE. eauto.
  - intros ? i ?. eapply Hns; eauto.
  - intros ? c' i ? ?. eapply Hne; eauto.
Qed.

Lemma stage_forget s d sh cnv tw ref ws tms j :
  stage L E F s false d sh cnv tw ref ws tms →
  stage L E F s false d sh cnv tw ref
    (alter (λ x, {| kind := kind x; grid_info := None |}) j ws) tms.
Proof.
  intros H. pose proof H as [_ _ _ _ _ _ _ _ _ _ Hne].
  eapply stage_shrink; [exact H|..].
  - intros. by apply canvas_at_alter.
  - intros c i Hi. by apply shown_at_forget in Hi as [? _].
  - intros c _ [i Hi]. apply shown_at_forget in Hi as [Hi _].
    exfalso. eapply (Hne eq_refl cmd_return_to_principal i); [done|exact Hi].
  - intros _. by apply has_editing_alter.
Qed.

Lemma stage_forget_select s d sh cnv tw ref ws tms j :
  ref cmd_change_menu = bound j →
  stage L E F s false d sh cnv tw ref ws tms →
  stage L E F false false d sh cnv tw ref
    (alter (λ x, {| kind := kind x; grid_info := None |}) j ws) tms.
Proof.
  intros Hj H. pose proof H as [_ _ _ _ _ Href _ _ _ _ _].
  apply stage_forget with (j := j) in H.
  destruct H as [? ? ? ? ? ? ? ? ? ? ?]. constructor; eauto.
  intros _ i Hi. apply shown_at_forget in Hi as [Hi Hne].
  apply Href in Hi. congruence.
Qed.

(** [return_to_principal] hides the three buttons the window refers to:
    no button of the editing screen is shown any more. *)
Lemma stage_forget_three s r d sh cnv tw ref ws tms b1 j b2 :
  ref cmd_open_text_settings = bound b1 →
  ref cmd_return_to_principal = bound j →
  ref cmd_save_image = bound b2 →
  stage L E F s r d sh cnv tw ref ws tms →
  stage L E F s false d sh cnv tw ref
    (alter (λ x, {| kind := kind x; grid_info := None |}) b2
       (alter (λ x, {| kind := kind x; grid_info := None |}) j
          (alter (λ x, {| kind := kind x; grid_info := None |}) b1 ws))) tms.
Proof.
  intros H1 Hj H2 H. pose proof H as [_ _ _ _ _ Href _ _ _ _ _].
  set (ws' := alter _ b2 _).
  assert (Hback : ∀ c i, shown_at c ws' i →
            shown_at c ws i ∧ i ≠ b1 ∧ i ≠ j ∧ i ≠ b2).
  { intros c i Hi. unfold ws' in Hi.
    apply shown_at_forget in Hi as [Hi ?]. apply shown_at_forget in Hi as [Hi ?].
    by apply shown_at_forget in Hi as [Hi ?]. }
  assert (Hnone : ∀ c i, c ≠ cmd_change_menu → ¬ shown_at c ws' i).
  { intros c i Hc Hi. apply Hback in Hi as (Hi & ? & ? & ?).
    apply Href in Hi. destruct c; [done|congruence..]. }
  assert (H' : stage L E F s r d sh cnv tw ref ws' tms).
  { eapply stage_shrink; [exact H|..].
    - intros. unfold ws'. by do 3 (apply canvas_at_alter; [done|]).
    - intros c i Hi. by apply Hback in Hi as [? _].
    - intros c _ [i Hi]. by destruct (Hnone cmd_return_to_principal i).
    - intros _ Hh. unfold ws' in Hh.
      do 3 (eapply has_editing_alter in Hh; [|done]). done. }
  destruct H' as [? ? ? ? ? ? ? ? ? ? ?]. constructor; eauto.
Qed.

Lemma stage_new s r d sh cnv tw ref ws tms k :
  stage L E F s r d sh cnv tw ref ws tms →
  stage L E F s r false sh cnv tw ref (ws ++ [{| kind := k; grid_info := None |}]) tms.
Proof.
  intros H. eapply stage_shrink.
  - eapply stage_weaken; [exact H|done..].
  - intros. by apply canvas_at_app.
  - intros c i. apply shown_at_snoc.
  - intros c [i Hi] _. exists i. by apply shown_at_app.
  - done.
Qed.

Lemma stage_new_other s r d sh cnv tw ref ws tms k :
  (∀ t h wd, k ≠ Button t h cmd_open_text_settings wd) →
  (∀ t h wd, k ≠ Button t h cmd_save_image wd) →
  stage L E F s r d sh cnv tw ref ws tms →
  stage L E F s r d sh cnv tw ref (ws ++ [{| kind := k; grid_info := None |}]) tms.
Proof.
  intros Hk1 Hk2 H. eapply stage_shrink; [exact H|..].
  - intros. by apply canvas_at_app.
  - intros c i. apply shown_at_snoc.
  - intros c [i Hi] _. exists i. by apply shown_at_app.
  - intros _ Hi. apply has_editing_snoc in Hi as [?|(t & h & c & wd & -> & [->| ->])];
      [done| |].
    + by destruct (Hk1 t h wd).
    + by destruct (Hk2 t h wd).
Qed.

(** Showing a widget that is not a button. *)
Lemma stage_grid s r d sh cnv tw ref ws tms j o x :
  ws !! j = Some x →
  (∀ t h c wd, kind x ≠ Button t h c wd) →
  stage L E F s r d sh cnv tw ref ws tms →
  stage L E F s r d sh cnv tw ref
    (alter (λ x, {| kind := kind x; grid_info := Some o |}) j ws) tms.
Proof.
  intros Hj Hk H. eapply stage_shrink; [exact H|..].
  - intros. by apply canvas_at_alter.
  - intros c i Hi. apply shown_at_grid in Hi as [?|(_ & x' & t & h & wd & Hx & Hk')]; [done|].
    rewrite Hj in Hx. injection Hx as <-. by destruct (Hk t h c wd).
  - intros c [i Hi] _. exists i. by apply shown_at_grid_keep.
  - intros _. by apply has_editing_alter.
Qed.

Lemma stage_grid_select d sh cnv tw ref ws tms j o t h wd g :
  ws !! j = Some {| kind := Button t h cmd_change_menu wd; grid_info := g |} →
  (∀ cv, sh cv → logo_in_place cv) →
  L →
  ref cmd_change_menu = bound j →
  stage L E F false false d sh cnv tw ref ws tms →
  stage L E F true false d sh cnv tw ref
    (alter (λ x, {| kind := kind x; grid_info := Some o |}) j ws) tms.
Proof.
  intros Hj Hsh HL Href [(c & cv & ? & ? & ? & _) ? Hins ? _ _ _ _ _ Hns Hne].
  assert (Hsel : ∀ i, shown_at cmd_change_menu
            (alter (λ x, {| kind := kind x; grid_info := Some o |}) j ws) i → i = j).
  { intros i Hi. apply shown_at_grid in Hi as [Hi|[? _]]; [|done].
    by destruct (Hns eq_refl i). }
  assert (Hnone : ∀ c' i, c' ≠ cmd_change_menu → ¬ shown_at c'
            (alter (λ x, {| kind := kind x; grid_info := Some o |}) j ws) i).
  { intros c' i Hc' Hi.
    apply shown_at_grid in Hi as [Hi|(-> & x & t' & h' & wd' & Hx & Hk)].
    - by destruct (Hne eq_refl c' i).
    - rewrite Hj in Hx. injection Hx as <-. cbn in Hk. congruence. }
  constructor; try done.
  - exists c, cv. split_and!; eauto. by apply canvas_at_alter.
  - intros Hd Hi. apply Hins; [done|]. eapply has_editing_alter; [|exact Hi]. done.
  - intros c' i j' Hc' _ Hr. by destruct (Hnone c' j').
  - intros c' i Hi. destruct (decide (c' = cmd_change_menu)) as [->|Hc'].
    + by rewrite (Hsel i Hi).
    + by destruct (Hnone c' i).
  - intros [i Hi]. by destruct (Hnone cmd_return_to_principal i).
  - intros [i Hi]. by destruct (Hnone cmd_return_to_principal i).
Qed.

(** Showing a button of the editing screen, "Return" last. *)
Lemma stage_grid_button r d sh cnv tw ref ws tms c j o t h wd g :
  c ≠ cmd_change_menu →
  ws !! j = Some {| kind := Button t h c wd; grid_info := g |} →
  ref c = bound j →
  (c = cmd_return_to_principal →
   E ∧ (∃ i, shown_at cmd_open_text_settings ws i) ∧
       (∃ i, shown_at cmd_save_image ws i)) →
  stage L E F false r d sh cnv tw ref ws tms →
  stage L E F false true d sh cnv tw ref
    (alter (λ x, {| kind := kind x; grid_info := Some o |}) j ws) tms.
Proof.
  intros Hc Hj Hrefc Hlast
    [(c0 & cv & ? & ? & ? & _) ? Hins ? _ Href Htrio _ HE Hns _].
  set (ws' := alter _ j ws).
  assert (Hsel : ∀ i, ¬ shown_at cmd_change_menu ws' i).
  { intros i Hi. apply shown_at_grid in Hi as [Hi|(-> & x & t' & h' & wd' & Hx & Hk)].
    - by destruct (Hns eq_refl i).
    - rewrite Hj in Hx. injection Hx as <-. cbn in Hk. congruence. }
  assert (Hold : ∀ c' i, shown_at c' ws' i → shown_at c' ws i ∨ (c' = c ∧ i = j)).
  { intros c' i Hi. apply shown_at_grid in Hi as [Hi|(-> & x & t' & h' & wd' & Hx & Hk)].
    - by left.
    - right. rewrite Hj in Hx. injection Hx as <-. cbn in Hk. split; congruence. }
  constructor; try done.
  - exists c0, cv. split_and!; eauto; [by apply canvas_at_alter|].
    intros [i Hi]. by destruct (Hsel i).
  - intros Hd Hi. apply Hins; [done|]. eapply has_editing_alter; [|exact Hi]. done.
  - intros c' i j' _ Hi _. by destruct (Hsel i).
  - intros c' i Hi. apply Hold in Hi as [Hi|[-> ->]]; [by apply Href|done].
  - intros [i Hi]. apply Hold in Hi as [Hi|[<- ->]].
    + destruct Htrio as [[i1 Ht1] [i2 Ht2]]; [by exists i|].
      split; [exists i1|exists i2]; by apply shown_at_grid_keep.
    + destruct (Hlast eq_refl) as (_ & [i1 Ht1] & [i2 Ht2]).
      split; [exists i1|exists i2]; by apply shown_at_grid_keep.
  - intros [i Hi]. by destruct (Hsel i).
  - intros [i Hi]. apply Hold in Hi as [Hi|[<- ->]].
    + apply HE. by exists i.
    + by destruct (Hlast eq_refl).
Qed.

(** A canvas command on the current canvas: the shape may change, the logo
    stays in place. *)
Lemma stage_canvas s r d sh sh' c cv cv' g tw ref ws tms :
  canvas_at ws c cv →
  stage L E F s r d sh (bound c) tw ref ws tms →
  (sh cv → sh' cv') →
  (logo_in_place cv → logo_in_place cv') →
  stage L E F s r d sh' (bound c) tw ref
    (<[c := {| kind := CanvasW cv'; grid_info := g |}]> ws) tms.
Proof.
  intros Hc [(c0 & cv0 & [= <-] & Hc0 & Hsh & Hlen) ? Hins ? Hex Href Htrio HL HE Hns Hne]
    Hsh' Hle.
  pose proof (canvas_at_inj _ _ _ _ Hc Hc0) as <-.
  constructor; eauto.
  - exists c, cv'. repeat split; eauto; [by eapply canvas_at_insert|].
    intros [i Hi]. apply shown_at_canvas in Hi. eauto.
  - intros ? Hi. apply has_editing_canvas in Hi. eauto.
  - intros c' i j ? Hi Hj. apply shown_at_canvas in Hi, Hj. eauto.
  - intros c' i Hi. apply shown_at_canvas in Hi. eauto.
  - intros [j Hj]. apply shown_at_canvas in Hj.
    destruct Htrio as [[i1 Ht1] [i2 Ht2]]; [by exists j|].
    split; [exists i1|exists i2]; by eapply shown_at_canvas_keep.
  - intros [i Hi]. apply shown_at_canvas in Hi. eauto.
  - intros [i Hi]. apply shown_at_canvas in Hi. eauto.
  - intros ? i Hi. apply shown_at_canvas in Hi. by eapply Hns.
  - intros ? c' i ? Hi. apply shown_at_canvas in Hi. by eapply Hne.
Qed.

(** Attribute assignments. *)
Lemma stage_set_canvas r d sh sh' cnv c cv tw ref ws tms :
  canvas_at ws c cv → sh' cv →
  stage L E F false r d sh cnv tw ref ws tms →
  stage L E F false r d sh' (bound c) tw ref ws tms.
Proof.
  intros Hc Hsh [_ ? ? ? ? ? ? ? ? Hns ?]. constructor; eauto.
  exists c, cv. repeat split; eauto. intros [i Hi]. by destruct (Hns eq_refl i).
Qed.

(** While no button is shown the window may refer to any. *)
Lemma stage_set_refs d sh cnv tw ref ref' ws tms :
  stage L E F false false d sh cnv tw ref ws tms →
  stage L E F false false d sh cnv tw ref' ws tms.
Proof.
  intros [? ? ? ? ? ? ? ? ? Hns Hne]. constructor; eauto.
  intros c i Hi. destruct (decide (c = cmd_change_menu)) as [->|Hc].
  - by destruct (Hns eq_refl i).
  - by destruct (Hne eq_refl c i).
Qed.

Lemma stage_set_item s r d sh cnv tw t ref ws tms :
  (3 ≤ t)%nat → F →
  stage L E F s r d sh cnv tw ref ws tms →
  stage L E F s r true sh cnv (bound t) ref ws tms.
Proof.
  intros Ht HF [? ? ? ? ? ? ? ? ? ? ?]. constructor; eauto.
  by intros ? [= <-].
Qed.

Lemma stage_menus s r d sh cnv tw ref ws tms tms' :
  (tms' ≠ [] → ∃ t, tw = bound t) →
  stage L E F s r d sh cnv tw ref ws tms →
  stage L E F s r d sh cnv tw ref ws tms'.
Proof. intros Ht [? ? ? ? ? ? ? ? ? ? ?]. constructor; eauto. Qed.

Lemma stage_no_editing s r d sh cnv tw ref ws tms i :
  shown_at cmd_change_menu ws i →
  stage L E F s r d sh cnv tw ref ws tms →
  stage L E F s false d (λ cv, sh cv ∧ logo_in_place cv) cnv tw ref ws tms.
Proof.
  intros Hi [(c & cv & ? & ? & ? & Hlen) ? ? ? Hex ? ? ? ? ? ?]. constructor; eauto.
  exists c, cv. split_and!; eauto.
Qed.

Lemma stage_no_select s r d sh cnv tw ref ws tms c j :
  c ≠ cmd_change_menu → shown_at c ws j →
  stage L E F s r d sh cnv tw ref ws tms →
  stage L E F false r d sh cnv tw ref ws tms.
Proof.
  intros Hc Hj [? ? ? ? Hex ? ? ? ? ? ?]. constructor; eauto.
Qed.

(** With no "Select File" button shown nothing is asked of the landing
    attributes, and likewise for the editing screen. *)
Lemma stage_landing_any L' r d sh cnv tw ref ws tms :
  stage L' E F false r d sh cnv tw ref ws tms →
  stage L E F false r d sh cnv tw ref ws tms.
Proof.
  intros [? ? ? ? ? ? ? ? ? Hns ?]. constructor; eauto.
  intros [i Hi]. by destruct (Hns eq_refl i).
Qed.

Lemma stage_buttons_any E' s d sh cnv tw ref ws tms :
  stage L E' F s false d sh cnv tw ref ws tms →
  stage L E F s false d sh cnv tw ref ws tms.
Proof.
  intros [? ? ? ? ? ? ? ? ? ? Hne]. constructor; eauto.
  intros [i Hi]. by destruct (Hne eq_refl cmd_return_to_principal i).
Qed.

End stage.

(** *** Canvas items *)

Lemma item_at_snoc cv it id o :
  item_at (set_items (items cv ++ [Some it]) cv) id = Some o →
  item_at cv id = Some o ∨ o = it.
Proof.
  destruct id as [|i]; cbn; [done|]. intros Hi.
  destruct ((items cv ++ [Some it])%list !! i) as [o'|] eqn:E; [|done].
  cbn in Hi. subst o'.
  apply lookup_app_Some in E as [E|[_ E]].
  - left. by rewrite E.
  - right. destruct (i - length (items cv))%nat as [|[|]]; cbn in E; congruence.
Qed.

Lemma only_logo_snoc_text cv x y wd text fill ft :
  only_logo cv →
  only_logo (set_items (items cv ++ [Some (text_item x y wd text fill ft)]) cv).
Proof.
  intros H id x' y' ph Hi. apply item_at_snoc in Hi as [Hi|Hi]; [|done].
  by apply (H id x' y' ph).
Qed.

Lemma only_logo_insert cv i o :
  only_logo cv →
  (∀ x y ph, o = Some (image_item x y ph) → i = 1%nat) →
  only_logo (set_items (<[i := o]> (items cv)) cv).
Proof.
  intros H Ho [|k] x y ph; cbn; [done|]. intros Hk.
  destruct (<[i := o]> (items cv) !! k) as [o'|] eqn:E; [|done].
  cbn in Hk. subst o'.
  apply list_lookup_insert_Some in E as [(-> & E & _)|[_ E]].
  - f_equal. by eapply Ho.
  - apply (H (S k) x y ph). cbn. by rewrite E.
Qed.

Lemma only_logo_set_text cv k it :
  only_logo cv → (∀ x y ph, it ≠ image_item x y ph) →
  only_logo (set_items (<[k := Some it]> (items cv)) cv).
Proof.
  intros H Hit. apply only_logo_insert; [done|].
  intros x y ph [= ->]. by destruct (Hit x y ph).
Qed.

Lemma logo_in_place_length cv : logo_in_place cv → (2 ≤ length (items cv))%nat.
Proof.
  intros (x & y & ph & H). cbn in H.
  destruct (items cv !! 1%nat) eqn:E; [|done]. by apply lookup_lt_Some in E.
Qed.

Lemma logo_in_place_snoc cv it :
  logo_in_place cv → logo_in_place (set_items (items cv ++ [Some it]) cv).
Proof.
  intros (x & y & ph & H). exists x, y, ph. cbn in *.
  destruct (items cv !! 1%nat) as [o|] eqn:E; [|done].
  by rewrite (lookup_app_l_Some _ _ _ _ E).
Qed.

Lemma logo_in_place_insert cv i o :
  logo_in_place cv →
  (i = 1%nat → ∃ x y ph, o = Some (image_item x y ph)) →
  logo_in_place (set_items (<[i := o]> (items cv)) cv).
Proof.
  intros (x & y & ph & H) Hi. cbn in H.
  destruct (items cv !! 1%nat) as [o'|] eqn:E; [|done]. cbn in H. subst o'.
  destruct (decide (i = 1%nat)) as [->|Hne].
  - destruct (Hi eq_refl) as (x' & y' & ph' & ->). exists x', y', ph'. cbn.
    rewrite list_lookup_insert_eq; [done|]. by eapply lookup_lt_Some.
  - exists x, y, ph. cbn. by rewrite list_lookup_insert_ne, E.
Qed.

Lemma fresh_canvas_only_logo n cv : fresh_canvas n cv → only_logo cv.
Proof. intros [_ H] id x y ph Hi. by destruct (H id x y ph). Qed.

Lemma fresh_canvas_snoc_text n cv x y wd text fill ft :
  fresh_canvas n cv →
  fresh_canvas (S n) (set_items (items cv ++ [Some (text_item x y wd text fill ft)]) cv).
Proof.
  intros [Hn H]. split; [cbn; rewrite length_app; cbn; lia|].
  intros id x' y' ph Hi. apply item_at_snoc in Hi as [Hi|Hi]; [|done].
  by destruct (H id x' y' ph).
Qed.

Lemma fresh_canvas_snoc_image cv x y ph :
  fresh_canvas 1 cv →
  only_logo (set_items (items cv ++ [Some (image_item x y ph)]) cv) ∧
  logo_in_place (set_items (items cv ++ [Some (image_item x y ph)]) cv).
Proof.
  intros [Hn H]. split.
  2: { exists x, y, ph. cbn. destruct (items cv) as [|o [|]]; done. }
  intros id x' y' ph' Hi.
  destruct (decide (id = 2%nat)) as [|Hne]; [done|].
  destruct (H id x' y' ph').
  destruct id as [|i]; [done|]. cbn in *.
  destruct ((items cv ++ [Some (image_item x y ph)])%list !! i) as [o|] eqn:E; [|done].
  cbn in Hi. subst o.
  apply lookup_app_Some in E as [E|[Hle E]]; [by rewrite E|].
  apply lookup_lt_Some in E. cbn in E. lia.
Qed.

(** *** The building blocks of the two screens *)

Ltac open_world w :=
  destruct w as [[inp cnv atl aim lg sb cl sf tw ni ib svb rb twin wt tc fsz fv]
                   iu ws tms gr files tr];
  cbn in *.

(** Attributes that were assigned stay assigned. *)
Ltac props_mono :=
  unfold landing_attrs, editing_attrs, is_bound; cbn; intuition eauto.

Ltac by_props H := eapply stage_props; [exact H|props_mono..].

#[local] Arguments menu_start : simpl never.
#[local] Arguments setting_buttons : simpl never.
#[local] Arguments add_image : simpl never.

Lemma add_image_stage P s r w :
  staged s r false (λ cv, only_logo cv ∧ logo_in_place cv) w →
  is_bound (search_file (self w)) →
  staged s r true only_logo (add_image P w).2.
Proof.
  unfold staged. intros Hs [f Hf].
  pose proof Hs as [(c & cv & Hc & [g Hcv] & [Hlogo Hin] & _) _ _ _ _ _ _ _ _ _ _].
  pose proof (logo_in_place_length cv Hin) as Hlen.
  open_world w. subst.
  assert (Hlt : (c < length ws)%nat) by by eapply lookup_lt_Some.
  unfold add_image, create_text, create_item, Image_open, itemconfig_image. munfold.
  erewrite with_canvas_run by (cbn; exact Hcv). cbn.
  set (cv1 := {| cv_width := _; items := (items cv ++ [_])%list |}).
  match type of Hs with stage ?L ?E ?F _ _ _ _ _ _ ?ref _ _ =>
    assert (H1 : stage L E F s r true (λ cv, only_logo cv)
              (bound c) (bound (S (length (items cv)))) ref
              (<[c := {| kind := CanvasW cv1; grid_info := g |}]> ws) tms) end.
  { eapply stage_set_item; [lia|by eexists|].
    eapply (stage_canvas _ _ _ _ _ _ _ _ _ cv); [by exists g|exact Hs| |].
    - intros _. by apply only_logo_snoc_text.
    - apply logo_in_place_snoc. }
  clearbody cv1.
  destruct (files !! abspath P f) as [[|im|]|]; cbn; try exact H1.
  destruct lg as [|l]; cbn; [exact H1|].
  erewrite with_canvas_run by (cbn; by apply list_lookup_insert_eq). cbn.
  destruct (item_at cv1 l) as [[x y wd tx fl ft|x y ph]|] eqn:El; cbn.
  - eapply (stage_canvas _ _ _ _ _ _ _ _ _ cv1);
      [by eapply canvas_at_insert; exists g|exact H1|done|done].
  - eapply (stage_canvas _ _ _ _ _ _ _ _ _ cv1);
      [by eapply canvas_at_insert; exists g|exact H1| |].
    + intros Hl1. apply only_logo_insert; [done|].
      intros _ _ _ _. by rewrite (Hl1 l x y ph El).
    + intros Hl1. apply logo_in_place_insert; [done|]. intros _. by eexists _, _, _.
  - eapply (stage_canvas _ _ _ _ _ _ _ _ _ cv1);
      [by eapply canvas_at_insert; exists g|exact H1|done|done].
Qed.

(** [add_image] on the landing canvas fails only when the chosen file cannot
    be read. *)
Lemma add_image_result P w c cv f :
  canvas (self w) = bound c → canvas_at (widgets w) c cv → logo_in_place cv →
  search_file (self w) = bound f → logo (self w) = bound 2%nat →
  (readable P w f ∧ (add_image P w).1 = Ok tt) ∨
  (¬ readable P w f ∧ (add_image P w).1 = Raise IOError).
Proof.
  intros Hc [g Hcv] Hin Hf Hl. unfold readable.
  apply (logo_in_place_snoc cv (text_item 300 500 (Some 500) "" None None)) in Hin
    as (x & y & ph & Hin).
  open_world w. subst.
  assert (Hlt : (c < length ws)%nat) by by eapply lookup_lt_Some.
  unfold add_image, create_text, create_item, Image_open, itemconfig_image. munfold.
  erewrite with_canvas_run by (cbn; exact Hcv). cbn.
  destruct (files !! abspath P f) as [[|im|]|]; cbn;
    try (right; split; [by intros [? ?]|done]).
  left. split; [by eexists|].
  erewrite with_canvas_run by (cbn; by apply list_lookup_insert_eq).
  cbn in Hin |- *. by rewrite Hin.
Qed.

Lemma setting_buttons_stage L E d sh w j :
  in_principal (self w) = false →
  select_file_button (self w) = bound j →
  stage L E (is_bound (search_file (self w))) true false d sh
    (canvas (self w)) (text_watermarker (self w)) (button_ref (self w))
    (widgets w) (text_menus w) →
  ∃ w', setting_buttons false w = (Ok tt, w') ∧
    staged false true false sh w' ∧
    shows_button cmd_return_to_principal w' = true ∧
    search_file (self w') = search_file (self w) ∧
    logo (self w') = logo (self w) ∧ fs w' = fs w.
Proof.
  unfold staged. intros Hin Hj Hs. open_world w. subst.
  unfold setting_buttons, grid_forget, new_widget, grid. munfold.
  eexists. split; [reflexivity|]. split; [|split; [|done]].
  - cbn. eapply (stage_grid_button _ _ _ _ _ _ _ _ _ _ _ cmd_return_to_principal);
      [done|by apply list_lookup_middle|reflexivity| |].
    { intros _. split; [split_and!; try done; by eexists|]. split.
      - eexists. apply shown_at_app, shown_at_grid_keep, shown_at_app.
        eapply shown_at_grid_new. by apply list_lookup_middle.
      - eexists. apply shown_at_app.
        eapply shown_at_grid_new. by apply list_lookup_middle. }
    eapply stage_new.
    eapply (stage_grid_button _ _ _ _ _ _ _ _ _ _ _ cmd_save_image);
      [done|by apply list_lookup_middle|reflexivity|done|].
    eapply stage_new.
    eapply (stage_grid_button _ _ _ _ _ _ _ _ _ _ _ cmd_open_text_settings);
      [done|by apply list_lookup_middle|reflexivity|done|].
    eapply stage_new.
    eapply stage_set_refs.
    eapply (stage_landing_any _ _ _ L).
    eapply stage_forget_select; cycle 1.
    { eapply (stage_buttons_any _ _ _ E). exact Hs. }
    reflexivity.
  - apply shows_button_shown. eexists. cbn.
    eapply shown_at_grid_new. by apply list_lookup_middle.
Qed.

Lemma menu_start_stage P sh w :
  in_principal (self w) = true →
  staged false false true sh w → sound (menu_start P w).2.
Proof.
  unfold sound, staged. intros Hin Hs. open_world w. subst.
  unfold menu_start, PhotoImage_file, create_text, create_image, create_item,
    canvas_config, new_widget, grid.
  munfold.
  erewrite with_canvas_run by (cbn; by apply list_lookup_middle). cbn.
  set (cv0 := {| cv_width := 600; cv_height := 600; cv_bg := None;
                 cv_highlightthickness := None; items := [] |}).
  set (title := text_item 300 100 None "Add a Watermark" None
                  (Some ("TkMenuFont", "30", "bold"))).
  set (cv1 := {| cv_width := 600; cv_height := 600; cv_bg := None;
                 cv_highlightthickness := None; items := [Some title] |}).
  set (ws0 := (ws ++ [{| kind := CanvasW cv0; grid_info := None |}])%list).
  set (ws1 := <[length ws := {| kind := CanvasW cv1; grid_info := None |}]> ws0).
  assert (Hlen0 : length ws0 = S (length ws))
    by (unfold ws0; rewrite length_app; cbn; lia).
  assert (H0 : canvas_at ws0 (length ws) cv0) by apply canvas_at_new.
  match type of Hs with stage ?L ?E ?F _ _ _ _ _ _ ?ref _ _ =>
    assert (H1 : stage L E F false false true (fresh_canvas 1) (bound (length ws))
                   tw ref ws1 tms) end.
  { eapply (stage_canvas _ _ _ _ _ _ (fresh_canvas 0) _ _ cv0); [exact H0| | |].
    - eapply (stage_set_canvas _ _ _ _ _ _ _ _ _ cv0); [exact H0| |].
      { split; [done|]. by intros [|i] x y ph. }
      eapply stage_new_other; [done|done|exact Hs].
    - intros Hf. apply (fresh_canvas_snoc_text 0 cv0 300 100 None _ None _ Hf).
    - by intros (x & y & ph & H). }
  assert (Hc1 : canvas_at ws1 (length ws) cv1) by (by eapply canvas_at_insert).
  clearbody ws1.
  destruct (files !! abspath P "images/watermaker_icon.png") as [[|im|]|]; cbn;
    try (eapply stage_weaken;
         [eapply stage_landing_any; exact H1|done|done|done|apply fresh_canvas_only_logo]).
  destruct Hc1 as [g1 Hc1].
  erewrite with_canvas_run by (cbn; exact Hc1). cbn.
  set (logo_ := image_item 300 300 (PhotoImage "images/watermaker_icon.png" im)).
  set (cv2 := {| cv_width := 600; cv_height := 600; cv_bg := None;
                 cv_highlightthickness := None; items := [Some title; Some logo_] |}).
  set (ws2 := <[length ws := {| kind := CanvasW cv2; grid_info := g1 |}]> ws1).
  match type of Hs with stage ?L ?E ?F _ _ _ _ _ _ ?ref _ _ =>
    assert (H2 : stage L E F false false true
                   (λ cv, only_logo cv ∧ logo_in_place cv)
                   (bound (length ws)) tw ref ws2 tms) end.
  { eapply (stage_canvas _ _ _ _ _ _ (fresh_canvas 1) _ _ cv1);
      [by exists g1|exact H1| |].
    - intros Hf. apply (fresh_canvas_snoc_image cv1 300 300 _ Hf).
    - intros _. by eexists _, _, _. }
  assert (Hc2 : ws2 !! length ws = Some {| kind := CanvasW cv2; grid_info := g1 |}).
  { apply list_lookup_insert_eq. by eapply lookup_lt_Some. }
  clearbody ws2.
  erewrite with_canvas_run by (cbn; exact Hc2). cbn.
  set (cv3 := {| cv_width := 600; cv_height := 600; cv_bg := Some FRONT_COLOR;
                 cv_highlightthickness := Some 0; items := [Some title; Some logo_] |}).
  set (ws3 := <[length ws := {| kind := CanvasW cv3; grid_info := g1 |}]> ws2).
  match type of Hs with stage ?L ?E ?F _ _ _ _ _ _ ?ref _ _ =>
    assert (H3 : stage L E F false false true
                   (λ cv, only_logo cv ∧ logo_in_place cv)
                   (bound (length ws)) tw ref ws3 tms) end.
  { eapply (stage_canvas _ _ _ _ _ _ _ _ _ cv2); [by exists g1|exact H2|done|done]. }
  assert (Hc3 : ws3 !! length ws = Some {| kind := CanvasW cv3; grid_info := g1 |}).
  { apply list_lookup_insert_eq. by eapply lookup_lt_Some. }
  clearbody ws3.
  eapply (stage_weaken _ _ _ true false true (λ cv, only_logo cv ∧ logo_in_place cv));
    [|done|done|done|by intros cv [Hcv _]].
  eapply stage_grid; [by apply list_lookup_middle|done|].
  eapply stage_new_other; [done|done|].
  eapply stage_grid_select;
    [by apply list_lookup_middle|by intros cv [_ Hcv]
    |unfold landing_attrs; cbn; split_and!; try done; by eexists
    |reflexivity|].
  eapply stage_set_refs.
  eapply stage_new_other; [done|done|].
  eapply stage_grid; [exact Hc3|done|].
  eapply stage_landing_any. exact H3.
Qed.

(** [menu_start] fails exactly when the icon cannot be read. *)
Lemma menu_start_result P w :
  (readable P w "images/watermaker_icon.png" ∧ (menu_start P w).1 = Ok tt) ∨
  (¬ readable P w "images/watermaker_icon.png" ∧ (menu_start P w).1 = Raise TclError).
Proof.
  unfold readable. open_world w.
  unfold menu_start, PhotoImage_file, create_text, create_image, create_item,
    canvas_config, new_widget, grid.
  munfold.
  erewrite with_canvas_run by (cbn; by apply list_lookup_middle). cbn.
  assert (Hlt : (length ws < length (ws ++ [{| kind := CanvasW
             {| cv_width := 600; cv_height := 600; cv_bg := None;
                cv_highlightthickness := None; items := [] |};
             grid_info := None |}]))%nat)
    by (rewrite length_app; cbn; lia).
  destruct (files !! abspath P "images/watermaker_icon.png") as [[|im|]|]; cbn;
    try (right; split; [by intros [? ?]|done]).
  left. split; [by eexists|].
  erewrite with_canvas_run by (cbn; by apply list_lookup_insert_eq). cbn.
  erewrite with_canvas_run
    by (cbn; apply list_lookup_insert_eq; by rewrite length_insert).
  done.
Qed.

(** *** The handlers keep the invariant *)

Lemma keeps_with_canvas_shows {A} c r (f : Canvas → result A * Canvas) :
  keeps (shows_button c) (with_canvas r f).
Proof.
  intros w. unfold with_canvas.
  destruct (widgets w !! r) as [[[cv| |] g]|] eqn:E; try done.
  destruct (f cv) as [res cv'].
  change (shows_button c
            (set_widgets (<[r := {| kind := CanvasW cv'; grid_info := g |}]> (widgets w)) w)
          = shows_button c w).
  apply eq_true_iff_eq. rewrite !shows_button_shown. cbn. split.
  - intros [i Hi]. exists i. by eapply shown_at_canvas.
  - intros [i Hi]. exists i. eapply shown_at_canvas_keep; [by exists g|done].
Qed.

Lemma add_image_shows P c : keeps (shows_button c) (add_image P).
Proof.
  unfold add_image, create_text, create_item, itemconfig_image.
  repeat first [ apply keeps_with_canvas_shows | keeps_step ].
Qed.

(** "Select File": the invariant is kept, and the handler fails only when a
    file was chosen that cannot be read.  Once a file is chosen "Return" is
    shown, whether or not the file could be read. *)
Lemma change_menu_step P p w :
  sound w → shows_button cmd_change_menu w = true →
  sound (change_menu P p w).2 ∧
  (((change_menu P p w).1 = Ok tt ∧ (p = "" ∨ readable P w p)) ∨
   ((change_menu P p w).1 = Raise IOError ∧ p ≠ "" ∧ ¬ readable P w p)) ∧
  (p ≠ "" → shows_button cmd_return_to_principal (change_menu P p w).2 = true).
Proof.
  unfold sound, staged. intros Hs Hen. apply shows_button_shown in Hen as [i Hi].
  pose proof (st_ref _ _ _ _ _ _ _ _ _ _ _ _ Hs _ i Hi) as Hsb.
  destruct (st_landing _ _ _ _ _ _ _ _ _ _ _ _ Hs (ex_intro _ i Hi))
    as (Hinp & Hatl & Hlg & [l Hcl]).
  pose proof (stage_no_editing _ _ _ _ _ _ _ _ _ _ _ _ i Hi Hs) as Hs1.
  pose proof Hs1 as [(c & cv & Hc & [g Hcv] & [Hlogo Hin] & _) _ _ _ _ _ _ _ _ _ _].
  open_world w. subst.
  unfold change_menu, canvas_delete, grid_forget, readable. munfold.
  destruct (decide (p = "")) as [->|Hp].
  { cbn. split; [by_props Hs|]. split; [|done]. left. split; [done|by left]. }
  rewrite (bool_decide_eq_true_2 (p ≠ "")) by done. cbn.
  erewrite with_canvas_run by (cbn; exact Hcv). cbn.
  set (cv1 := {| cv_width := _; items := <[0%nat := None]> (items cv) |}).
  match type of Hs1 with stage ?L ?E _ _ _ _ _ _ _ ?ref _ _ =>
    assert (H1 : stage L E (is_bound (bound p)) true false true
                   (λ cv, only_logo cv ∧ logo_in_place cv)
                   (bound c) tw ref
                   (<[c := {| kind := CanvasW cv1; grid_info := g |}]> ws) tms) end.
  { eapply (stage_canvas _ _ _ _ _ _ _ _ _ cv); [by exists g|by_props Hs1| |].
    - intros _. split; [by apply only_logo_insert|].
      by apply (logo_in_place_insert cv 0 None).
    - intros _. by apply (logo_in_place_insert cv 0 None). }
  clearbody cv1.
  match goal with |- context [setting_buttons false ?w1] =>
    match type of H1 with stage ?L ?E _ _ _ _ _ _ _ _ _ _ =>
      destruct (setting_buttons_stage L E true
                  (λ cv, only_logo cv ∧ logo_in_place cv) w1 i)
        as (w2 & -> & H2 & Hret & Hsf & Hlg & Hfs) end end.
  { reflexivity. }
  { reflexivity. }
  { cbn. by apply stage_forget. }
  cbn in Hsf, Hlg, Hfs. split; [|split].
  - apply (add_image_stage P) in H2; [|rewrite Hsf; by eexists].
    eapply stage_weaken; [exact H2|done..].
  - destruct H2 as [(c2 & cv2 & Hc2 & Hcv2 & [_ Hin2] & _) _ _ _ _ _ _ _ _ _ _].
    destruct (add_image_result P w2 c2 cv2 p Hc2 Hcv2 Hin2 Hsf Hlg)
      as [[Hr ->]|[Hr ->]]; unfold readable in Hr; rewrite Hfs in Hr.
    + left. split; [done|by right].
    + by right.
  - intros _. by rewrite add_image_shows.
Qed.

(** "Return": the invariant is kept, and the handler fails exactly when the
    icon cannot be read. *)
Lemma return_to_principal_step P w :
  sound w → shows_button cmd_return_to_principal w = true →
  sound (return_to_principal P w).2 ∧
  ((readable P w "images/watermaker_icon.png" ∧ (return_to_principal P w).1 = Ok tt) ∨
   (¬ readable P w "images/watermaker_icon.png" ∧
    (return_to_principal P w).1 = Raise TclError)).
Proof.
  unfold sound, staged. intros Hs Hen. apply shows_button_shown in Hen as [j Hj].
  pose proof (st_ref _ _ _ _ _ _ _ _ _ _ _ _ Hs _ j Hj) as Hrb.
  destruct (st_buttons _ _ _ _ _ _ _ _ _ _ _ _ Hs (ex_intro _ j Hj))
    as (Hinp & [b1 Hib] & [b2 Hsvb]).
  pose proof (stage_no_select _ _ _ _ _ _ _ _ _ _ _ _ cmd_return_to_principal j
                ltac:(done) Hj Hs) as Hs1.
  open_world w. subst.
  unfold return_to_principal, grid_forget. munfold. split.
  - apply (menu_start_stage P only_logo); [done|]. unfold staged. cbn.
    eapply stage_buttons_any. eapply stage_landing_any.
    eapply stage_forget_three; [reflexivity..|]. exact Hs1.
  - match goal with |- context [menu_start P ?w3] =>
      destruct (menu_start_result P w3) as [[Hr ->]|[Hr ->]] end;
      [left|right]; (split; [exact Hr|done]).
Qed.

Lemma open_text_settings_sound w :
  sound w → shows_button cmd_open_text_settings w = true →
  sound (open_text_settings w).2.
Proof.
  unfold sound, staged. intros Hs Hen.
  apply shows_button_shown in Hen as (i & t & h & wd & g & Hi).
  destruct (st_editing _ _ _ _ _ _ _ _ _ _ _ _ Hs eq_refl) as [[t' Ht'] _].
  { exists i, t, h, cmd_open_text_settings, wd, (Some g). split; [done|by left]. }
  open_world w.
  unfold open_text_settings, TextMenu_new. munfold.
  destruct iu; cbn; [exact Hs|].
  eapply stage_menus; [|exact Hs]. by exists t'.
Qed.

Lemma keeps_with_canvas_reader {A} r (f : Canvas → result A * Canvas) :
  (∀ c, (f c).2 = c) → keeps widgets (with_canvas r f).
Proof.
  intros Hf w. unfold with_canvas.
  destruct (widgets w !! r) as [[[c| |] g]|] eqn:E; try done.
  specialize (Hf c). destruct (f c) as [res c']. cbn in *. subst c'.
  by apply list_insert_id.
Qed.

Lemma save_image_sound P picked w : sound w → sound (save_image P picked w).2.
Proof.
  assert (Hself : keeps self (save_image P picked)) by keeps_go.
  assert (Hmenus : keeps text_menus (save_image P picked)) by keeps_go.
  assert (Hws : keeps widgets (save_image P picked)).
  { unfold save_image, asksaveasfile, itemcget_text.
    repeat first
      [ apply keeps_with_canvas_reader; intros c; by repeat case_match
      | keeps_step ]. }
  unfold sound, staged. by rewrite Hself, Hmenus, Hws.
Qed.

Lemma alter_not_nil {A} (f : A → A) d (l : list A) : alter f d l ≠ [] → l ≠ [].
Proof. intros H ->. by destruct d. Qed.

Lemma edit_sound d f w : sound w → sound (edit d f w).2.
Proof.
  unfold sound, staged. intros Hs. open_world w.
  eapply stage_menus; [|exact Hs].
  intros H. apply alter_not_nil in H.
  by apply (st_menus _ _ _ _ _ _ _ _ _ _ _ _ Hs).
Qed.

Lemma close_window_sound d w : sound w → sound (close_window d w).2.
Proof.
  unfold sound, staged. intros Hs. open_world w.
  eapply stage_menus; [|exact Hs].
  intros H. apply alter_not_nil in H.
  by apply (st_menus _ _ _ _ _ _ _ _ _ _ _ _ Hs).
Qed.

Lemma values_received_sound a b c d w :
  sound w → sound (values_received a b c d w).2.
Proof.
  unfold sound, staged. intros Hs.
  pose proof Hs as [(r & cv & Hc & [g Hcv] & Hlogo & _) _ _ _ _ _ _ _ _ _ _].
  open_world w. subst.
  unfold values_received, itemconfig_text. munfold.
  destruct tw as [|t]; cbn; [exact Hs|].
  erewrite with_canvas_run by (cbn; exact Hcv). cbn.
  destruct (item_at cv t) as [[x y wd tx fl ft|x y ph]|] eqn:El; cbn.
  - eapply (stage_canvas _ _ _ _ _ _ _ _ _ cv); [by exists g|exact Hs| |].
    + intros _. by apply only_logo_set_text.
    + intros Hl. destruct (decide (t = 2%nat)) as [->|Hne].
      * destruct Hl as (x' & y' & ph' & Hl). congruence.
      * apply logo_in_place_insert; [done|]. intros Hp. lia.
  - eapply (stage_canvas _ _ _ _ _ _ _ _ _ cv); [by exists g|exact Hs|done|done].
  - eapply (stage_canvas _ _ _ _ _ _ _ _ _ cv); [by exists g|exact Hs|done|done].
Qed.

Lemma sound_ext w w' :
  self w' = self w → widgets w' = widgets w → text_menus w' = text_menus w →
  sound w → sound w'.
Proof. unfold sound, staged. by intros -> -> ->. Qed.

Lemma apply_changes_sound d w : sound w → sound (apply_changes d w).2.
Proof.
  intros Hs. unfold apply_changes. munfold.
  destruct (text_menus w !! d) as [tm|]; [|done].
  destruct (destroyed tm); [done|]. cbn.
  destruct (_ && _); cbn; [|by apply (sound_ext w)].
  destruct (callback tm) as [[]|]; cbn; [|by apply close_window_sound].
  match goal with |- context [values_received ?a ?b ?c ?e ?w1] =>
    assert (H1 : sound (values_received a b c e w1).2)
      by (apply values_received_sound; by apply (sound_ext w));
    destruct (values_received a b c e w1) as [[] w2] end; cbn in *; [|done].
  by apply (close_window_sound d w2).
Qed.

Lemma dispatch_sound P w e : sound w → sound (dispatch P w e).
Proof.
  intros Hs. unfold dispatch. destruct (enabled e w) eqn:Hen; [|done].
  assert (H : sound (handler P e w).2).
  { destruct e; cbn in *.
    - by apply change_menu_step.
    - by apply open_text_settings_sound.
    - by apply save_image_sound.
    - by apply return_to_principal_step.
    - by apply edit_sound.
    - by apply edit_sound.
    - by apply edit_sound.
    - by apply edit_sound.
    - by apply apply_changes_sound.
    - by apply close_window_sound. }
  destruct (handler P e w) as [[] w']; cbn in *; [done|].
  by apply (sound_ext w').
Qed.

Lemma launch_sound P files : sound (launch P files).2.
Proof.
  unfold sound, staged, launch, menu_start, PhotoImage_file, create_text, create_image,
    create_item, canvas_config, with_canvas, new_widget, grid.
  munfold.
  destruct (files !! abspath P "images/watermaker_icon.png") as [[|im|]|]; cbn.
  all: constructor; cbn.
  all: try done.
  all: try (intros c i j Hc _ (t & h & wd & g & H);
            destruct j as [|[|[|]]]; cbn in H; by simplify_eq).
  all: try (intros c i (t & h & wd & g & H);
            destruct i as [|[|[|]]]; cbn in H; by simplify_eq).
  all: try (intros [i (t & h & wd & g & H)]; by destruct i as [|[|[|]]]).
  all: try (intros _ (i & t & h & c & wd & g & H & [->| ->]);
            by destruct i as [|[|[|]]]).
  all: try (intros _; unfold landing_attrs; cbn; split_and!; try done; by eexists).
  all: try (intros _ c i Hc (t & h & wd & g & H);
            destruct i as [|[|[|]]]; cbn in H; by simplify_eq).
  all: eexists 0%nat, _; split; [reflexivity|]; split; [by eexists|].
  all: split; [intros [|[|[|id]]] x y ph; cbn; by rewrite ?lookup_nil|].
  all: try (intros _; by eexists _, _, _).
  all: intros [i (t & h & wd & g & H)]; by destruct i as [|[|]].
Qed.

Lemma run_sound P es w : sound w → sound (run P es w).
Proof.
  revert w. induction es as [|e es IH]; intros w Hs; [done|].
  change (run P (e :: es) w) with (run P es (dispatch P w e)).
  apply IH. by apply dispatch_sound.
Qed.

(** With the watermark item in place the callback can run. *)
Lemma sound_ready w t :
  sound w → text_watermarker (self w) = bound t → callback_ready w = true.
Proof.
  intros [(c & cv & Hc & [g Hcv] & Hlogo & _) Hit _ _ _ _ _ _ _ _ _] Ht.
  unfold callback_ready. rewrite Hc, Ht, Hcv.
  destruct (item_at cv t) as [[|x y ph]|] eqn:E; try done.
  apply Hlogo in E. specialize (Hit t Ht). lia.
Qed.

Lemma open_dialog_ready d w :
  sound w → dialog_open d w = true → callback_ready w = true.
Proof.
  intros Hs Hd.
  destruct (st_menus _ _ _ _ _ _ _ _ _ _ _ _ Hs) as [t Ht].
  { unfold dialog_open in Hd. intros E. by rewrite E in Hd. }
  by eapply sound_ready.
Qed.

(** *** Every dialog calls back at most once *)

Lemma dispatch_calls P d w e :
  e ≠ ApplyChanges d → calls_of d (out (dispatch P w e)) = calls_of d (out w).
Proof.
  intros He. unfold dispatch. destruct (enabled e w); [|done].
  assert (H : calls_of d (out (handler P e w).2) = calls_of d (out w)).
  { destruct e as [p| |p| |d' s|d' c|d' n|d' f|d'|d']; cbn; try done.
    - assert (H1 : keeps out (change_menu P p)) by keeps_go. by rewrite H1.
    - assert (H1 : keeps out open_text_settings) by keeps_go. by rewrite H1.
    - assert (H1 : keeps (λ w, calls_of d (out w)) (save_image P p)).
      { keeps_unfold.
        repeat first [ apply keeps_emit_calls; reflexivity | keeps_step ]. }
      by rewrite H1.
    - assert (H1 : keeps out (return_to_principal P)) by keeps_go. by rewrite H1.
    - apply apply_changes_calls. congruence. }
  destruct (handler P e w) as [[] w']; cbn in *; [done|].
  by rewrite calls_of_snoc, app_nil_r.
Qed.

Lemma dispatch_steady P w e : steady w → steady (dispatch P w e).
Proof.
  intros (Hs & Hval & Hl).
  split; [by apply dispatch_sound|]. split; [by apply dispatch_keeps_validity|].
  intros d. destruct (Hl d) as [Hv [Hc|[Hc Hg]]].
  - assert (He : e = ApplyChanges d ∨ e ≠ ApplyChanges d).
    { destruct e as [| | | | | | | |d'|]; try by right.
      destruct (decide (d' = d)) as [->|Hne]; [by left|right; congruence]. }
    destruct He as [->|Hne].
    + unfold dispatch. destruct (enabled (ApplyChanges d) w) eqn:Hen;
        [|split; [done|by left]].
      cbn in Hen. pose proof (open_dialog_ready d w Hs Hen) as Hr.
      destruct (apply_step d d w Hen) as (w' & Hrun & _ & Hv' & Hc').
      { split; [done|]. split; [done|by left]. }
      cbn. rewrite Hrun. split; [done|].
      destruct Hc' as [Hc'|[Hc' Hclosed]]; [by left|right]. split; [done|].
      unfold dialog_open in Hen, Hclosed.
      destruct (text_menus w !! d) as [tm|] eqn:Hd; [|done].
      assert (Hw' : text_menus w' = text_menus (apply_changes d w).2) by by rewrite Hrun.
      destruct (apply_changes_menus d w) as [Em|Em]; rewrite Em in Hw'.
      * rewrite Hw', Hd in Hclosed. exists tm. rewrite Hw'. split; [done|].
        by destruct (destroyed tm).
      * exists (set_destroyed true tm). rewrite Hw', list_lookup_alter_eq, Hd. done.
    + rewrite (dispatch_calls P d w e Hne). split; [done|by left].
  - destruct (dispatch_keeps_gone P d w e Hg) as [Hg' Hc'].
    rewrite Hc'. split; [done|by right].
Qed.

Lemma launch_steady P files : steady (launch P files).2.
Proof.
  split; [apply launch_sound|].
  assert (H1 : keeps text_menus (menu_start P)) by keeps_go.
  assert (H2 : keeps watermark_attrs (menu_start P)) by keeps_go.
  assert (H3 : keeps out (menu_start P)) by keeps_go.
  unfold launch. rewrite H1, H2, H3. cbn.
  split; [split; [constructor|by left]|].
  intros d. split; [constructor|by left].
Qed.

Lemma run_steady P es w : steady w → steady (run P es w).
Proof.
  revert w. induction es as [|e es IH]; intros w Hs; [done|].
  change (run P (e :: es) w) with (run P es (dispatch P w e)).
  apply IH. by apply dispatch_steady.
Qed.

(** X15.  Whatever the user does after launch, a dialog hands its values
    over at most once: the callback invocations recorded for a window are
    none or exactly one, each made from four inputs that were not empty, and
    a window that has called is closed. *)
Theorem dialog_calls_back_at_most_once (P : Platform) (files : gmap string file)
    (es : list event) (d : nat) :
  let w := run P es (launch P files).2 in
  (length (calls_of d (out w)) ≤ 1)%nat ∧
  Forall valid_call (calls_of d (out w)) ∧
  (calls_of d (out w) ≠ [] → dialog_open d w = false).
Proof.
  intros w.
  destruct (run_steady P es _ (launch_steady P files)) as (_ & _ & Hl).
  destruct (Hl d) as [Hv [Hc|[Hc Hg]]]; fold w in Hv, Hc |- *.
  - rewrite Hc. cbn. split; [lia|]. split; [constructor|done].
  - split; [lia|]. split; [done|]. intros _. by apply gone_not_open.
Qed.

(** X16.  Whatever the user did after launch, confirming a dialog that is
    still open does not fail.  The window object knows its canvas and its
    watermark item, and that item is never the image of the current canvas:
    it is a text item or, on a canvas built after the item was created, no
    item at all, which [itemconfig] ignores.  So [values_received] runs to its
    end and [apply_changes] returns normally. *)
Theorem confirmation_never_raises (P : Platform) (files : gmap string file)
    (es : list event) (d : nat) :
  let w := run P es (launch P files).2 in
  dialog_open d w = true →
  callback_ready w = true ∧ (apply_changes d w).1 = Ok tt.
Proof.
  intros w Hopen.
  destruct (run_steady P es _ (launch_steady P files)) as (Hs & _ & Hl).
  fold w in Hs, Hl.
  pose proof (open_dialog_ready d w Hs Hopen) as Hr. split; [done|].
  destruct (Hl d) as [Hv Hc].
  destruct (apply_step d d w Hopen) as (w' & -> & _); [|done].
  split; [done|]. split; [done|].
  destruct Hc as [Hc|[Hc Hg]]; [by left|right]. split; [done|by apply gone_not_open].
Qed.

Lemma confirmation_never_raises_witness :
  let w := run no_font [SelectFile "/photos/cat.png"; InsertText; Return;
                        SelectFile "/photos/dog.png"; EnterText 0 "hello";
                        PickColor 0 "Red"; PickSize 0 40; PickFont 0 "Arial"]
             (launch no_font demo_fs).2 in
  dialog_open 0 w = true ∧
  callback_ready w = true ∧ (apply_changes 0 w).1 = Ok tt.
Proof.
  intros w. split; [vm_compute; reflexivity|].
  apply (confirmation_never_raises no_font demo_fs
           [SelectFile "/photos/cat.png"; InsertText; Return;
            SelectFile "/photos/dog.png"; EnterText 0 "hello";
            PickColor 0 "Red"; PickSize 0 40; PickFont 0 "Arial"] 0).
  vm_compute. reflexivity.
Defined.

(** X17.  What holds of the main window after any events from launch: its
    canvas attribute refers to a canvas whose only image, if any, is item 2
    (the logo or the preview); the watermark item, once created, has an id
    of 3 or more; "Select File" and "Return" are never shown together, and
    the flag [in_principal] tells which screen is up: it is set while "Select
    File" is shown and cleared while "Return" is; and whenever "Insert a
    text" is shown, the callback it registers can run. *)
Theorem window_stays_consistent (P : Platform) (files : gmap string file)
    (es : list event) :
  let w := run P es (launch P files).2 in
  (∃ c cv g, canvas (self w) = bound c ∧
     widgets w !! c = Some {| kind := CanvasW cv; grid_info := g |} ∧
     ∀ id x y ph, item_at cv id = Some (image_item x y ph) → id = 2%nat) ∧
  (∀ t, text_watermarker (self w) = bound t → (3 ≤ t)%nat) ∧
  shows_button cmd_change_menu w && shows_button cmd_return_to_principal w = false ∧
  (shows_button cmd_change_menu w = true → in_principal (self w) = true) ∧
  (shows_button cmd_return_to_principal w = true → in_principal (self w) = false) ∧
  (shows_button cmd_open_text_settings w = true → callback_ready w = true).
Proof.
  intros w.
  pose proof (run_sound P es _ (launch_sound P files)) as Hs. fold w in Hs.
  pose proof Hs as [(c & cv & Hc & [g Hcv] & Hlogo & _) Hit Hins _ Hex _ _ Hland Hbut _ _].
  split; [by exists c, cv, g|]. split; [done|]. split; [|split; [|split]].
  - destruct (shows_button cmd_change_menu w) eqn:E1; [|done].
    destruct (shows_button cmd_return_to_principal w) eqn:E2; [|done].
    apply shows_button_shown in E1 as [i Hi], E2 as [j Hj].
    by destruct (Hex cmd_return_to_principal i j).
  - intros Es. apply shows_button_shown in Es. by destruct (Hland Es).
  - intros Es. apply shows_button_shown in Es. by destruct (Hbut Es).
  - intros Es. apply shows_button_shown in Es as (i & t & h & wd & g' & Hi).
    destruct (Hins eq_refl) as [[t' Ht'] _].
    { exists i, t, h, cmd_open_text_settings, wd, (Some g'). split; [done|by left]. }
    by eapply sound_ready.
Qed.

(** *** Attributes read before they are assigned *)

Lemma save_image_attribute_error P picked w name :
  library_errors P →
  is_bound (search_file (self w)) → is_bound (canvas (self w)) →
  is_bound (text_watermarker (self w)) →
  (is_bound (font_size (self w)) → is_bound (text_color (self w))) →
  (save_image P picked w).1 = Raise (AttributeError name) →
  is_Some picked ∧ name = "font_size" ∧ font_size (self w) = unset.
Proof.
  intros [Hlib1 Hlib2] [f Hf] [c Hc] [t Ht] Htc. open_world w. subst.
  destruct picked as [target|]; [|done].
  unfold save_image, asksaveasfile, Image_open, itemcget_text, with_canvas,
    try_except_IOError, int, truetype, Image_save.
  munfold.
  destruct fsz as [|z]; [|destruct Htc as [col ->]; [by eexists|]];
    mcases; try done.
  all: try (intros [= <-]; by split).
  all: intros [= ->];
    first [ by edestruct Hlib1 | by edestruct Hlib2 ].
Qed.

Lemma apply_changes_attribute_error d w name :
  is_bound (canvas (self w)) → is_bound (text_watermarker (self w)) →
  (apply_changes d w).1 ≠ Raise (AttributeError name).
Proof.
  intros [c Hc] [t Ht]. open_world w. subst.
  unfold apply_changes, call, values_received, close_window, itemconfig_text, with_canvas.
  munfold. mcases; done.
Qed.

(** X18.  After any events from launch, the only attribute a handler can
    find unassigned is [font_size], and only "Save Image" can: the other
    handlers read attributes that were assigned before their button was
    shown or their dialog opened, while [save_image] reads the watermark
    attributes, which exist only once a dialog was confirmed.  The imaging
    library is assumed not to raise [AttributeError] itself. *)
Theorem only_save_reads_unassigned (P : Platform) (files : gmap string file)
    (es : list event) (e : event) (name : string) :
  library_errors P →
  let w := run P es (launch P files).2 in
  enabled e w = true →
  (handler P e w).1 = Raise (AttributeError name) →
  (∃ target, e = SaveImage (Some target)) ∧ name = "font_size" ∧
  watermark_attrs w = (unset, unset, unset, unset).
Proof.
  intros Hlib w Hen Hraise.
  destruct (run_steady P es _ (launch_steady P files)) as (Hs & [_ Hst] & _).
  fold w in Hs, Hst.
  pose proof Hs as [(c & cv & Hc & _) _ Hed Hmenus _ Hsel Hret Hland Hbut _ _].
  assert (Hcnv : is_bound (canvas (self w))) by by exists c.
  destruct e as [p| |picked| |d s|d k|d n|d f|d|d]; cbn in Hen, Hraise.
  - destruct (change_menu_step P p w Hs Hen) as (_ & [[Hr _]|[Hr _]] & _); congruence.
  - unfold open_text_settings, TextMenu_new in Hraise. revert Hraise. munfold.
    by destruct (in_use w).
  - apply shows_button_shown in Hen as (i & t & h & wd & g & Hi).
    destruct (Hed eq_refl) as [Htw Hsf].
    { exists i, t, h, cmd_save_image, wd, (Some g). split; [done|by right]. }
    destruct (save_image_attribute_error P picked w name) as ([target ->] & -> & Hfs);
      try done.
    { destruct Hst as [Hst|(tx & nm & hex & n & fam & Hst & _)];
        unfold watermark_attrs in Hst; injection Hst as _ Htc Hfs _.
      - rewrite Hfs. by intros [? ?].
      - intros _. rewrite Htc. by eexists. }
    split; [by exists target|]. split; [done|].
    destruct Hst as [Hst|(tx & nm & hex & n & fam & Hst & _)]; [done|].
    unfold watermark_attrs in Hst. injection Hst as _ _ Hfs' _. congruence.
  - destruct (return_to_principal_step P w Hs Hen) as [_ [[_ Hr]|[_ Hr]]]; congruence.
  - done.
  - done.
  - done.
  - done.
  - destruct (apply_changes_attribute_error d w name); [done| |done].
    apply Hmenus. unfold dialog_open in Hen. intros Em. by rewrite Em in Hen.
  - done.
Qed.

Lemma only_save_reads_unassigned_witness :
  let w := run no_font [SelectFile "/photos/cat.png"] (launch no_font demo_fs).2 in
  enabled (SaveImage (Some "/out/marked.png")) w = true ∧
  (handler no_font (SaveImage (Some "/out/marked.png")) w).1
    = Raise (AttributeError "font_size") ∧
  (∃ target, SaveImage (Some "/out/marked.png") = SaveImage (Some target)) ∧
  "font_size" = "font_size" ∧
  watermark_attrs w = (unset, unset, unset, unset).
Proof.
  intros w.
  assert (Hen : enabled (SaveImage (Some "/out/marked.png")) w = true)
    by (vm_compute; reflexivity).
  assert (Hr : (handler no_font (SaveImage (Some "/out/marked.png")) w).1
                 = Raise (AttributeError "font_size"))
    by (vm_compute; reflexivity).
  split; [exact Hen|]. split; [exact Hr|].
  apply (only_save_reads_unassigned no_font demo_fs [SelectFile "/photos/cat.png"]
           (SaveImage (Some "/out/marked.png")) "font_size").
  - split; intros; discriminate.
  - exact Hen.
  - exact Hr.
Defined.

(** *** How the two screen switches can fail *)

(** X19.  After any events from launch, "Select File" fails in one way only:
    a file was chosen and it cannot be read as an image, and the handler then
    raises [IOError].  A cancelled picker or a readable file never fails; no
    attribute is missing, and the logo item that receives the preview is
    still an image. *)
Theorem select_file_fails_only_on_unreadable_file (P : Platform)
    (files : gmap string file) (es : list event) (p : string) :
  let w := run P es (launch P files).2 in
  enabled (SelectFile p) w = true →
  ((handler P (SelectFile p) w).1 = Ok tt ∧ (p = "" ∨ readable P w p)) ∨
  ((handler P (SelectFile p) w).1 = Raise IOError ∧ p ≠ "" ∧ ¬ readable P w p).
Proof.
  intros w Hen.
  pose proof (run_sound P es _ (launch_sound P files)) as Hs. fold w in Hs.
  by destruct (change_menu_step P p w Hs Hen) as (_ & H & _).
Qed.

Lemma select_file_fails_only_on_unreadable_file_witness :
  let es := [SelectFile "/photos/cat.png"; InsertText; Return] in
  let w := run no_font es (launch no_font demo_fs).2 in
  enabled (SelectFile "/photos/dog.png") w = true ∧
  (((handler no_font (SelectFile "/photos/dog.png") w).1 = Ok tt ∧
    ("/photos/dog.png" = "" ∨ readable no_font w "/photos/dog.png")) ∨
   ((handler no_font (SelectFile "/photos/dog.png") w).1 = Raise IOError ∧
    "/photos/dog.png" ≠ "" ∧ ¬ readable no_font w "/photos/dog.png")).
Proof.
  intros es w. split; [vm_compute; reflexivity|].
  apply (select_file_fails_only_on_unreadable_file no_font demo_fs es "/photos/dog.png").
  vm_compute. reflexivity.
Defined.

(** X20.  After any events from launch, "Return" fails exactly when the icon
    can no longer be read, and then with [TclError]: the three buttons it
    hides always exist. *)
Theorem return_fails_only_without_icon (P : Platform) (files : gmap string file)
    (es : list event) :
  let w := run P es (launch P files).2 in
  enabled Return w = true →
  (readable P w "images/watermaker_icon.png" ∧ (handler P Return w).1 = Ok tt) ∨
  (¬ readable P w "images/watermaker_icon.png" ∧
   (handler P Return w).1 = Raise TclError).
Proof.
  intros w Hen.
  pose proof (run_sound P es _ (launch_sound P files)) as Hs. fold w in Hs.
  apply (return_to_principal_step P w Hs Hen).
Qed.

Lemma return_fails_only_without_icon_witness :
  let es := [SelectFile "/photos/cat.png";
             SaveImage (Some "images/watermaker_icon.png")] in
  let w := run no_font es (launch no_font demo_fs).2 in
  enabled Return w = true ∧
  ((readable no_font w "images/watermaker_icon.png" ∧
    (handler no_font Return w).1 = Ok tt) ∨
   (¬ readable no_font w "images/watermaker_icon.png" ∧
    (handler no_font Return w).1 = Raise TclError)).
Proof.
  intros es w. split; [vm_compute; reflexivity|].
  apply (return_fails_only_without_icon no_font demo_fs es).
  vm_compute. reflexivity.
Defined.

(** *** How a save can fail *)

Lemma save_image_failure P target w x c cv t f :
  canvas (self w) = bound c → canvas_at (widgets w) c cv →
  text_watermarker (self w) = bound t →
  (∀ x y ph, item_at cv t ≠ Some (image_item x y ph)) →
  search_file (self w) = bound f →
  stored_ok (watermark_attrs w) →
  (save_image P (Some target) w).1 = Raise x →
  let files := <[abspath P target := empty_file]> (fs w) in
  (x = IOError ∧ open_fails P (fs w) (abspath P target) = true) ∨
  (x = AttributeError "font_size" ∧ watermark_attrs w = (unset, unset, unset, unset)) ∨
  (x = IOError ∧ ∀ im, files !! abspath P f ≠ Some (image_file im)) ∨
  (x ≠ IOError ∧ ∃ n, font_size (self w) = bound (pretty n) ∧
     truetype_raises P files font_path n = Some x) ∨
  (∃ im, save_raises P im (abspath P target) = Some x).
Proof.
  intros Hc [g Hcv] Ht Hit Hf Hst. open_world w. subst.
  unfold save_image, asksaveasfile, Image_open, itemcget_text,
    try_except_IOError, int, truetype, Image_save.
  munfold.
  destruct (open_fails P files (abspath P target)) eqn:Eo; cbn;
    [intros [= <-]; by left|].
  intros Hx. right. revert Hx.
  destruct (<[abspath P target := empty_file]> files !! abspath P f)
    as [[|im|]|] eqn:Ef; cbn;
    try (intros [= <-]; right; left; by split).
  erewrite with_canvas_run by (cbn; exact Hcv). cbn.
  destruct (item_at cv t) as [[x0 y0 wd tx fl ft|x0 y0 ph]|] eqn:Ei; cbn;
    try (by destruct (Hit x0 y0 ph));
    (destruct Hst as [Hst|(txt & nm & hex & n & fam & Hst & _ & _ & _ & Hint & _)];
     unfold watermark_attrs in Hst; cbn in Hst; simplify_eq; cbn;
     [intros [= <-]; by left|rewrite Hint; cbn];
     destruct (truetype_raises P _ font_path n) as [e|] eqn:Et; cbn;
     [destruct e; cbn;
      try (intros [= <-]; right; right; left; split; [done|]; by exists n)|];
     match goal with |- context [save_raises P ?im ?p] =>
       destruct (save_raises P im p) as [e'|] eqn:Es; cbn; [|done];
       intros [= <-]; right; right; right; by exists im end).
Qed.

(** X21.  After any events from launch, a confirmed "Save Image" can fail in
    five ways only.  The picker cannot open the chosen file: [IOError].  No
    watermark was ever confirmed: [AttributeError] on [font_size].  The
    original cannot be read once the target has been truncated, because it
    never could or because it is the target itself: [IOError].  The font
    cannot be loaded for a reason other than [IOError]: that error.  The
    library fails to write: that error.  In particular [int] never rejects
    the stored size, and reading the watermark item never fails.  (Resizing
    the image, drawing the text, the notice and the printed line are taken
    not to fail: the model gives them no way to.) *)
Theorem save_image_failures (P : Platform) (files : gmap string file)
    (es : list event) (target : string) (x : exn) :
  let w := run P es (launch P files).2 in
  enabled (SaveImage (Some target)) w = true →
  (handler P (SaveImage (Some target)) w).1 = Raise x →
  let truncated := <[abspath P target := empty_file]> (fs w) in
  (x = IOError ∧ open_fails P (fs w) (abspath P target) = true) ∨
  (x = AttributeError "font_size" ∧ watermark_attrs w = (unset, unset, unset, unset)) ∨
  (x = IOError ∧ ∃ f, search_file (self w) = bound f ∧
     ∀ im, truncated !! abspath P f ≠ Some (image_file im)) ∨
  (x ≠ IOError ∧ ∃ n, font_size (self w) = bound (pretty n) ∧
     truetype_raises P truncated font_path n = Some x) ∨
  (∃ im, save_raises P im (abspath P target) = Some x).
Proof.
  intros w Hen Hraise.
  destruct (run_steady P es _ (launch_steady P files)) as (Hs & [_ Hst] & _).
  fold w in Hs, Hst.
  pose proof Hs as [(c & cv & Hc & Hcv & Hlogo & _) Hit Hed _ _ _ _ _ _ _ _].
  cbn in Hen, Hraise.
  apply shows_button_shown in Hen as (i & t & h & wd & g & Hi).
  destruct (Hed eq_refl) as [[tw Htw] [f Hf]].
  { exists i, t, h, cmd_save_image, wd, (Some g). split; [done|by right]. }
  destruct (save_image_failure P target w x c cv tw f) as [H|[H|[[H1 H2]|[H|H]]]];
    try done.
  - intros x0 y0 ph Hi0. apply Hlogo in Hi0. specialize (Hit tw Htw). lia.
  - by left.
  - right. by left.
  - right. right. left. split; [done|]. by exists f.
  - right. right. right. by left.
  - right. right. right. by right.
Qed.

Lemma save_image_failures_witness :
  let es := [SelectFile "/photos/cat.png"; InsertText; EnterText 0 "hello";
             PickColor 0 "Red"; PickSize 0 40; PickFont 0 "Arial"; ApplyChanges 0] in
  let w := run no_font es (launch no_font demo_fs).2 in
  let truncated := <[abspath no_font "/missing/out.png" := empty_file]> (fs w) in
  enabled (SaveImage (Some "/missing/out.png")) w = true ∧
  (handler no_font (SaveImage (Some "/missing/out.png")) w).1 = Raise IOError ∧
  ((IOError = IOError ∧
    open_fails no_font (fs w) (abspath no_font "/missing/out.png") = true) ∨
   (IOError = AttributeError "font_size" ∧
    watermark_attrs w = (unset, unset, unset, unset)) ∨
   (IOError = IOError ∧ ∃ f, search_file (self w) = bound f ∧
      ∀ im, truncated !! abspath no_font f ≠ Some (image_file im)) ∨
   (IOError ≠ IOError ∧ ∃ n, font_size (self w) = bound (pretty n) ∧
      truetype_raises no_font truncated font_path n = Some IOError) ∨
   (∃ im, save_raises no_font im (abspath no_font "/missing/out.png") = Some IOError)).
Proof.
  intros es w truncated.
  assert (Hen : enabled (SaveImage (Some "/missing/out.png")) w = true)
    by (vm_compute; reflexivity).
  assert (Hr : (handler no_font (SaveImage (Some "/missing/out.png")) w).1 = Raise IOError)
    by (vm_compute; reflexivity).
  split; [exact Hen|]. split; [exact Hr|].
  exact (save_image_failures no_font demo_fs es "/missing/out.png" IOError Hen Hr).
Defined.


(** ** Returning to the landing screen *)

(** *** What [menu_start] and [return_to_principal] build *)

Lemma insert_at_end {A} (l : list A) x y :
  <[length l := y]> (l ++ [x])%list = (l ++ [y])%list.
Proof. induction l as [|a l IH]; cbn; [done|]. by f_equal. Qed.

Lemma alter_at_end {A} (f : A → A) (l : list A) x :
  alter f (length l) (l ++ [x])%list = (l ++ [f x])%list.
Proof. induction l as [|a l IH]; cbn; [done|]. by f_equal. Qed.

(** With the icon readable, [menu_start] appends the three widgets of the
    landing screen to the store and makes the window refer to them; nothing
    else changes. *)
Lemma menu_start_effect P w ico :
  fs w !! abspath P icon_path = Some (image_file ico) →
  let n := length (widgets w) in
  menu_start P w =
    (Ok tt,
     set_widgets (widgets w ++ landing_widgets ico)%list
       (set_self
          (set_credit_label (bound (S (S n)))
             (set_select_file_button (bound (S n))
                (set_logo (bound 2%nat)
                   (set_app_image (bound (PhotoImage icon_path ico))
                      (set_app_title (bound 1%nat)
                         (set_canvas (bound n) (self w))))))) w)).
Proof.
  intros Hico. open_world w.
  unfold menu_start, PhotoImage_file, create_text, create_image, create_item,
    canvas_config, new_widget, grid, with_canvas.
  munfold.
  rewrite list_lookup_middle by done. cbn.
  unfold icon_path in Hico. rewrite Hico. cbn.
  rewrite !insert_at_end. rewrite list_lookup_middle by done. cbn.
  rewrite !insert_at_end. rewrite list_lookup_middle by done. cbn.
  rewrite !insert_at_end, !alter_at_end. cbn.
  rewrite !length_app, <- !app_assoc. cbn. rewrite !Nat.add_1_r.
  reflexivity.
Qed.

Lemma launch_effect P files ico :
  files !! abspath P icon_path = Some (image_file ico) →
  launch P files =
    (Ok tt,
     {| self :=
          set_credit_label (bound 2%nat)
            (set_select_file_button (bound 1%nat)
               (set_logo (bound 2%nat)
                  (set_app_image (bound (PhotoImage icon_path ico))
                     (set_app_title (bound 1%nat)
                        (set_canvas (bound 0%nat) blank)))));
        in_use := false; widgets := landing_widgets ico; text_menus := [];
        grab := None; fs := files; out := [] |}).
Proof.
  intros Hico. unfold launch. by rewrite (menu_start_effect P _ ico).
Qed.

Lemma return_to_principal_effect P w ico b1 j b2 :
  insert_text_button (self w) = bound b1 →
  return_button (self w) = bound j →
  save_button (self w) = bound b2 →
  fs w !! abspath P icon_path = Some (image_file ico) →
  let hidden :=
    alter (λ x, {| kind := kind x; grid_info := None |}) b2
      (alter (λ x, {| kind := kind x; grid_info := None |}) j
         (alter (λ x, {| kind := kind x; grid_info := None |}) b1 (widgets w))) in
  let n := length (widgets w) in
  return_to_principal P w =
    (Ok tt,
     set_widgets (hidden ++ landing_widgets ico)%list
       (set_self
          (set_credit_label (bound (S (S n)))
             (set_select_file_button (bound (S n))
                (set_logo (bound 2%nat)
                   (set_app_image (bound (PhotoImage icon_path ico))
                      (set_app_title (bound 1%nat)
                         (set_canvas (bound n)
                            (set_in_principal true (self w)))))))) w)).
Proof.
  intros Hb1 Hj Hb2 Hico. open_world w. subst.
  unfold return_to_principal, grid_forget. munfold.
  erewrite menu_start_effect by (cbn; exact Hico).
  cbn. by rewrite !length_alter.
Qed.

(** *** The widgets that stay on screen *)

Lemma lookup_alter_if {A} (f : A → A) (b i : nat) (l : list A) :
  alter f b l !! i = (λ x, if bool_decide (i = b) then f x else x) <$> l !! i.
Proof.
  case_bool_decide as Hi.
  - subst. by rewrite list_lookup_alter_eq.
  - rewrite list_lookup_alter_ne by done. by destruct (l !! i).
Qed.

Lemma forget_three_imap (ws : list widget) b1 j b2 :
  alter (λ x, {| kind := kind x; grid_info := None |}) b2
    (alter (λ x, {| kind := kind x; grid_info := None |}) j
       (alter (λ x, {| kind := kind x; grid_info := None |}) b1 ws)) =
  imap (λ i x, if bool_decide (i = b1 ∨ i = j ∨ i = b2)
               then {| kind := kind x; grid_info := None |} else x) ws.
Proof.
  apply list_eq. intros i. rewrite list_lookup_imap, !lookup_alter_if.
  destruct (ws !! i) as [x|]; cbn; [|done].
  repeat case_bool_decide; first [done | exfalso; tauto].
Qed.

Lemma filter_imap_hide (g : nat → widget → widget) (ws : list widget) :
  (∀ i x, ws !! i = Some x →
     (g i x = x ∧ (is_Some (grid_info x) → editing_button x = false)) ∨
     (g i x = {| kind := kind x; grid_info := None |} ∧
      (is_Some (grid_info x) → editing_button x = true))) →
  filter (λ x, is_Some (grid_info x)) (imap g ws) =
  filter (λ x, editing_button x = false)
    (filter (λ x, is_Some (grid_info x)) ws).
Proof.
  revert g. induction ws as [|x l IH]; intros g Hg; [done|].
  cbn [imap]. specialize (IH (g ∘ S)).
  assert (Hl : ∀ i y, l !! i = Some y →
     ((g ∘ S) i y = y ∧ (is_Some (grid_info y) → editing_button y = false)) ∨
     ((g ∘ S) i y = {| kind := kind y; grid_info := None |} ∧
      (is_Some (grid_info y) → editing_button y = true)))
    by (intros i y Hi; apply (Hg (S i) y Hi)).
  specialize (IH Hl). rewrite !filter_cons.
  destruct (Hg 0%nat x eq_refl) as [[-> Hx]|[-> Hx]].
  - destruct (decide (is_Some (grid_info x))) as [Hgr|Hgr]; [|exact IH].
    rewrite filter_cons, decide_True by auto. by f_equal.
  - rewrite decide_False by (cbn; by intros [? ?]).
    destruct (decide (is_Some (grid_info x))) as [Hgr|Hgr]; [|exact IH].
    rewrite filter_cons, decide_False; [exact IH|].
    rewrite (Hx Hgr). discriminate.
Qed.

Lemma shown_at_app_inv c (l1 l2 : list widget) i :
  shown_at c (l1 ++ l2) i →
  shown_at c l1 i ∨ shown_at c l2 (i - length l1).
Proof.
  intros (t & h & wd & g & H). apply lookup_app_Some in H as [H|[_ H]].
  - left. by exists t, h, wd, g.
  - right. by exists t, h, wd, g.
Qed.

Lemma shown_at_editing c ws i x :
  c ≠ cmd_change_menu → shown_at c ws i → ws !! i = Some x →
  editing_button x = true.
Proof.
  intros Hc (t & h & wd & g & H) Hx. rewrite H in Hx. injection Hx as <-.
  unfold editing_button. cbn. by rewrite bool_decide_eq_false_2.
Qed.

(** C5, as stated, fails: after "Select File" and "Return" the session state
    is not the one of the launch.  The window still holds the chosen path and
    the preview made from it, neither of which existed at launch; the canvas
    of the editing screen is still managed by the grid, under the new one,
    so four widgets are shown where the launch showed three; and a watermark
    confirmed earlier in the session is still stored.  Nor does "Return"
    always succeed: once a save has overwritten the icon it raises. *)
Lemma return_keeps_selected_path :
  let session :=
    [ SelectFile "/photos/cat.png"; InsertText; EnterText 0 "hello";
      PickColor 0 "Red"; PickSize 0 40; PickFont 0 "Arial"; ApplyChanges 0;
      Return; SelectFile "/photos/cat.png"; Return ] in
  enabled (SelectFile "/photos/cat.png") (launched no_font) = true ∧
  enabled Return (editing no_font) = true ∧
  search_file (self (launched no_font)) = unset ∧
  search_file (self (returned no_font)) = bound "/photos/cat.png" ∧
  new_image (self (launched no_font)) = unset ∧
  new_image (self (returned no_font)) = bound (ImageTk_PhotoImage (resize (600, 600) cat)) ∧
  session_state (returned no_font) ≠ session_state (launched no_font) ∧
  length (shown (launched no_font)) = 3%nat ∧
  length (shown (returned no_font)) = 4%nat ∧
  widgets (returned no_font) !! 0%nat = widgets (editing no_font) !! 0%nat ∧
  watermark_attrs (launched no_font) = (unset, unset, unset, unset) ∧
  watermark_attrs (run no_font session (launched no_font)) =
    (bound "hello", bound (Some "#a32424"), bound "40", bound "Arial") ∧
  (handler no_font Return
     (run no_font [SelectFile "/photos/cat.png";
                   SaveImage (Some "images/watermaker_icon.png")]
        (launched no_font))).1 = Raise TclError.
Proof.
  vm_compute. repeat split; try reflexivity. discriminate.
Qed.

(** C5, amended.  In every session from a launch with the icon in place:
    right after "Select File" with a file chosen, "Return" can be pressed;
    and whenever "Return" is pressed while the icon is as it was at launch,
    the handler runs without error and the landing screen is built anew.
    Three widgets are added to those that exist, and the window now refers
    to them as its canvas, "Select File" button and credit label: they are
    equal to those of the launch, laid out the same way.  Back at their
    launch values are also the screen flag and the title, logo and icon
    attributes; "Select File" is shown and none of the three editing buttons
    is.  The widgets shown are not those of the launch:
    they are the ones shown before, without the editing buttons, followed by
    the three of the launch, so what the editing screen showed besides its
    buttons stays managed by the grid.  Not reset either: the chosen path
    (there is one, the launch had none), the preview, the four watermark
    attributes, the watermark item, the dialogs, the files, the trace. *)
Theorem return_rebuilds_landing_screen (P : Platform) (files : gmap string file)
    (es : list event) (ico : Image) :
  let w0 := (launch P files).2 in
  let w := run P es w0 in
  files !! abspath P icon_path = Some (image_file ico) →
  (∀ p, p ≠ "" → enabled (SelectFile p) w = true →
        enabled Return (dispatch P w (SelectFile p)) = true) ∧
  (enabled Return w = true →
   fs w !! abspath P icon_path = Some (image_file ico) →
   ∃ w', handler P Return w = (Ok tt, w') ∧ dispatch P w Return = w' ∧
     length (widgets w') = (length (widgets w) + 3)%nat ∧
     canvas (self w') = bound (length (widgets w)) ∧
     select_file_button (self w') = bound (S (length (widgets w))) ∧
     credit_label (self w') = bound (S (S (length (widgets w)))) ∧
     in_principal (self w') = in_principal (self w0) ∧
     app_title (self w') = app_title (self w0) ∧
     logo (self w') = logo (self w0) ∧
     app_image (self w') = app_image (self w0) ∧
     widget_of (canvas (self w')) w' = widget_of (canvas (self w0)) w0 ∧
     widget_of (select_file_button (self w')) w'
       = widget_of (select_file_button (self w0)) w0 ∧
     widget_of (credit_label (self w')) w' = widget_of (credit_label (self w0)) w0 ∧
     shows_button cmd_change_menu w' = true ∧
     shows_button cmd_open_text_settings w' = false ∧
     shows_button cmd_save_image w' = false ∧
     shows_button cmd_return_to_principal w' = false ∧
     shown w0 = landing_widgets ico ∧
     shown w' = (filter (λ x, editing_button x = false) (shown w) ++ shown w0)%list ∧
     is_bound (search_file (self w)) ∧ search_file (self w0) = unset ∧
     search_file (self w') = search_file (self w) ∧
     new_image (self w') = new_image (self w) ∧
     watermark_attrs w' = watermark_attrs w ∧
     text_watermarker (self w') = text_watermarker (self w) ∧
     text_menus w' = text_menus w ∧ in_use w' = in_use w ∧
     fs w' = fs w ∧ out w' = out w).
Proof.
  intros w0 w Hico.
  pose proof (run_sound P es _ (launch_sound P files)) as Hs.
  fold w0 in Hs. fold w in Hs. split.
  { intros p Hp Hen. unfold dispatch. rewrite Hen.
    destruct (change_menu_step P p w Hs Hen) as (_ & _ & Hret).
    specialize (Hret Hp). cbn [handler].
    by destruct (change_menu P p w) as [[] w1]. }
  intros Hen Hfs. pose proof Hen as Hen'.
  pose proof (launch_effect P files ico Hico) as Hl.
  assert (E0 : w0 = (launch P files).2) by done. rewrite Hl in E0. cbn in E0.
  (* the three buttons the window refers to are the ones shown *)
  apply shows_button_shown in Hen as [j Hj].
  pose proof Hs as [_ _ Hed _ _ Href Htrio _ _ _ _].
  destruct Htrio as [[b1 Hb1] [b2 Hb2]]; [by exists j|].
  pose proof (Href _ _ Hj) as Rj. pose proof (Href _ _ Hb1) as R1.
  pose proof (Href _ _ Hb2) as R2. cbn in Rj, R1, R2.
  destruct (Hed eq_refl) as [_ Hchosen].
  { destruct Hb1 as (t & h & wd & g & Hb1).
    exists b1, t, h, cmd_open_text_settings, wd, (Some g). split; [done|by left]. }
  pose proof (stage_forget_three _ _ _ _ _ _ _ _ _ _ _ _ b1 j b2 R1 Rj R2 Hs)
    as [_ _ _ _ _ _ _ _ _ _ Hnone].
  specialize (Hnone eq_refl).
  set (hidden := alter _ b2 _) in Hnone.
  assert (Hlen : length hidden = length (widgets w))
    by (unfold hidden; by rewrite !length_alter).
  pose proof (return_to_principal_effect P w ico b1 j b2 R1 Rj R2 Hfs) as Hrun.
  cbn zeta in Hrun. fold hidden in Hrun.
  eexists. split; [exact Hrun|].
  split; [unfold dispatch; rewrite Hen'; cbn [handler]; by rewrite Hrun|].
  rewrite E0. cbn.
  assert (Hno : ∀ c, c ≠ cmd_change_menu →
            shows_button c
              (set_widgets (hidden ++ landing_widgets ico)%list w) = false).
  { intros c Hc. apply not_true_is_false. intros Hsh.
    apply shows_button_shown in Hsh as [i Hi]. cbn in Hi.
    apply shown_at_app_inv in Hi as [Hi|(t & h & wd & g & Hi)].
    - by destruct (Hnone c i).
    - destruct (i - length hidden)%nat as [|[|[|]]]; cbn in Hi; by simplify_eq. }
  split_and!; try done.
  - rewrite length_app, Hlen. cbn. lia.
  - rewrite lookup_app_r by lia. by rewrite Hlen, Nat.sub_diag.
  - rewrite lookup_app_r by lia. rewrite Hlen.
    by replace (S (length (widgets w)) - length (widgets w))%nat with 1%nat by lia.
  - rewrite lookup_app_r by lia. rewrite Hlen.
    by replace (S (S (length (widgets w))) - length (widgets w))%nat with 2%nat by lia.
  - apply (proj2 (shows_button_shown cmd_change_menu
                    (set_widgets (hidden ++ landing_widgets ico)%list w))).
    exists (S (length (widgets w))). cbn.
    eexists _, _, _, _. rewrite lookup_app_r by lia. rewrite Hlen.
    by replace (S (length (widgets w)) - length (widgets w))%nat with 1%nat by lia.
  - exact (Hno cmd_open_text_settings ltac:(done)).
  - exact (Hno cmd_save_image ltac:(done)).
  - exact (Hno cmd_return_to_principal ltac:(done)).
  - unfold shown. cbn. rewrite filter_app. f_equal.
    unfold hidden. rewrite forget_three_imap. apply filter_imap_hide.
    intros i x Hx. case_bool_decide as Hi.
    + right. split; [done|]. intros _.
      destruct Hi as [->|[->| ->]].
      * by apply (shown_at_editing cmd_open_text_settings (widgets w) b1).
      * by apply (shown_at_editing cmd_return_to_principal (widgets w) j).
      * by apply (shown_at_editing cmd_save_image (widgets w) b2).
    + left. split; [done|]. intros [g Hg].
      destruct x as [[cv|t h c wd|t fg ft] g']; cbn in Hg; subst g'; try done.
      unfold editing_button. cbn.
      destruct (decide (c = cmd_change_menu)) as [->|Hc]; [done|].
      assert (Hsh : shown_at c (widgets w) i) by by exists t, h, wd, g.
      apply Href in Hsh. cbn in Hsh. destruct Hi.
      destruct c; cbn in Hsh; [done|left|right; right|right; left]; congruence.
Qed.

Lemma return_rebuilds_landing_screen_witness :
  let es := [SelectFile "/photos/cat.png"; InsertText; EnterText 0 "hello";
             PickColor 0 "Red"; PickSize 0 40; PickFont 0 "Arial"; ApplyChanges 0] in
  let w0 := (launch no_font demo_fs).2 in
  let w := run no_font es w0 in
  demo_fs !! abspath no_font icon_path = Some (image_file icon) ∧
  enabled Return w = true ∧
  fs w !! abspath no_font icon_path = Some (image_file icon) ∧
  ∃ w', handler no_font Return w = (Ok tt, w') ∧
    shown w' = (filter (λ x, editing_button x = false) (shown w) ++ shown w0)%list ∧
    length (shown w') = 4%nat ∧
    watermark_attrs w' =
      (bound "hello", bound (Some "#a32424"), bound "40", bound "Arial").
Proof.
  intros es w0 w.
  assert (Hico : demo_fs !! abspath no_font icon_path = Some (image_file icon))
    by (vm_compute; reflexivity).
  assert (Hen : enabled Return w = true) by (vm_compute; reflexivity).
  assert (Hfs : fs w !! abspath no_font icon_path = Some (image_file icon))
    by (vm_compute; reflexivity).
  split; [exact Hico|]. split; [exact Hen|]. split; [exact Hfs|].
  destruct (proj2 (return_rebuilds_landing_screen no_font demo_fs es icon Hico) Hen Hfs)
    as (w' & Hrun & _ & _ & _ & _ & _ & _ & _ & _ & _ & _ & _ & _ & _ & _ & _ & _
        & _ & Hshown & _ & _ & _ & _ & Hwm & _).
  exists w'. split; [exact Hrun|]. split; [exact Hshown|]. split.
  - rewrite Hshown. vm_compute. reflexivity.
  - rewrite Hwm. vm_compute. reflexivity.
Defined.

(** ** Saving when the font cannot be loaded *)

(** What [save_image] does, step by step, once a watermark is stored and
    loading the font raises [e]. *)
Lemma save_image_font_raises (P : Platform) (w : World) (target f s : string)
    (n : Z) (c t : nat) (cv : Canvas) (g : option grid_opts)
    (fill : option string) (e : exn) :
  search_file (self w) = bound f →
  canvas (self w) = bound c →
  widgets w !! c = Some {| kind := CanvasW cv; grid_info := g |} →
  text_watermarker (self w) = bound t →
  (∀ x y ph, item_at cv t ≠ Some (image_item x y ph)) →
  font_size (self w) = bound s → py_int s = Some n →
  text_color (self w) = bound fill →
  let truncated := <[abspath P target := empty_file]> (fs w) in
  truetype_raises P truncated font_path n = Some e →
  let r := save_image P (Some target) w in
  (open_fails P (fs w) (abspath P target) = true → r = (Raise IOError, w)) ∧
  (open_fails P (fs w) (abspath P target) = false →
   ((∀ im, truncated !! abspath P f ≠ Some (image_file im)) →
    r = (Raise IOError, set_fs truncated w)) ∧
   (∀ orig, truncated !! abspath P f = Some (image_file orig) →
      (e ≠ IOError → r = (Raise e, set_fs truncated w)) ∧
      (e = IOError →
       let im := composed orig (overlay_text cv t) fill DefaultFont in
       (∀ e', save_raises P im (abspath P target) = Some e' →
              r = (Raise e', set_fs truncated w)) ∧
       (save_raises P im (abspath P target) = None →
        r = (Ok tt,
             set_out (out w ++ [showinfo "Image saved" "File saved correctly.";
                                print ("Image saved in: " +:+ abspath P target)])
               (set_fs (<[abspath P target := image_file im]> (fs w)) w)))))).
Proof.
  intros Hsf Hc Hw Ht Hit Hsz Hint Hcol truncated Hfont r. subst r truncated.
  open_world w. subst.
  unfold save_image, asksaveasfile, Image_open, itemcget_text, try_except_IOError,
    int, truetype, Image_save.
  munfold.
  split; [by intros ->|]. intros ->. cbn. split.
  - intros Hno.
    destruct (<[abspath P target := empty_file]> files !! abspath P f)
      as [[|im|]|] eqn:Ef; cbn; try done.
    by destruct (Hno im).
  - intros orig ->. cbn.
    erewrite with_canvas_run by (cbn; exact Hw).
    unfold overlay_text, composed.
    destruct (item_at cv t) as [[x y wd text fl ft|x y ph]|] eqn:Ei;
      [|by destruct (Hit x y ph)|]; cbn;
      rewrite list_insert_id by done; rewrite Hint; munfold; rewrite Hfont; cbn.
    all: split; [intros He; by destruct e|intros ->; cbn].
    all: split; [by intros e' ->|intros ->; cbn].
    all: by rewrite insert_insert_eq, <- app_assoc.
Qed.

(** C6, as stated, fails.  A watermark has been applied and the font
    resource cannot be loaded, yet the save does not complete and the error
    reaches the user: with the photograph itself as the target, the picker
    has emptied it before [save_image] re-opens it, so the handler raises
    [IOError] and the photograph is lost; and when the imaging library cannot
    load any font file, what it raises is not [IOError] and is not caught. *)
Lemma font_fallback_can_fail :
  let w := watermarked no_font 40 "Arial" in
  let w' := dispatch no_font w (SaveImage (Some "/photos/cat.png")) in
  let v := watermarked no_freetype 40 "Arial" in
  let v' := dispatch no_freetype v (SaveImage (Some "/out/marked.png")) in
  enabled (SaveImage (Some "/photos/cat.png")) w = true ∧
  font_size (self w) = bound "40" ∧
  truetype_raises no_font (fs w) font_path 40 = Some IOError ∧
  (save_image no_font (Some "/photos/cat.png") w).1 = Raise IOError ∧
  out w' = (out w ++ [traceback IOError])%list ∧
  fs w !! "/photos/cat.png" = Some (image_file cat) ∧
  fs w' !! "/photos/cat.png" = Some empty_file ∧
  enabled (SaveImage (Some "/out/marked.png")) v = true ∧
  font_size (self v) = bound "40" ∧
  truetype_raises no_freetype (fs v) font_path 40 = Some ImportError ∧
  (save_image no_freetype (Some "/out/marked.png") v).1 = Raise ImportError ∧
  out v' = (out v ++ [traceback ImportError])%list ∧
  fs v' !! "/out/marked.png" = Some empty_file.
Proof.
  vm_compute. repeat split; reflexivity.
Qed.

(** C6, amended.  In every session from launch, when "Save Image" is pressed
    and a name confirmed after a watermark has been applied, and loading the
    hard-coded font at the stored size raises [e]: if the picker cannot open
    the target, [IOError] surfaces and nothing changes; otherwise the target
    is truncated and, if the original cannot be read any more (it may be the
    target itself), [IOError] surfaces; if it can and [e] is not [IOError],
    [e] surfaces; if [e] is [IOError] it is caught and the default font
    takes the place of the resource: then either the library fails to write
    and its error surfaces, or the save completes, the target holds the
    original, resized, with the text of the watermark item drawn in the
    stored colour with the default font, and the trace gains the "Image
    saved" notice and the printed line.  Whenever an error surfaces the
    trace gains nothing and the target, once truncated, stays empty. *)
Theorem save_falls_back_to_default_font (P : Platform) (files : gmap string file)
    (es : list event) (target : string) :
  let w := run P es (launch P files).2 in
  enabled (SaveImage (Some target)) w = true →
  watermark_attrs w ≠ (unset, unset, unset, unset) →
  ∃ (f : string) (t : nat) (fill : option string) (n : Z),
    search_file (self w) = bound f ∧
    text_watermarker (self w) = bound t ∧
    text_color (self w) = bound fill ∧
    font_size (self w) = bound (pretty n) ∧
    (spinbox_from ≤ n ≤ spinbox_to)%Z ∧
    let truncated := <[abspath P target := empty_file]> (fs w) in
    let r := handler P (SaveImage (Some target)) w in
    ∀ e, truetype_raises P truncated font_path n = Some e →
      (open_fails P (fs w) (abspath P target) = true → r = (Raise IOError, w)) ∧
      (open_fails P (fs w) (abspath P target) = false →
       ((∀ im, truncated !! abspath P f ≠ Some (image_file im)) →
        r = (Raise IOError, set_fs truncated w)) ∧
       (∀ orig, truncated !! abspath P f = Some (image_file orig) →
          (e ≠ IOError → r = (Raise e, set_fs truncated w)) ∧
          (e = IOError →
           let im := composed orig (overlay_text (canvas_of w) t) fill DefaultFont in
           (∀ e', save_raises P im (abspath P target) = Some e' →
                  r = (Raise e', set_fs truncated w)) ∧
           (save_raises P im (abspath P target) = None →
            r = (Ok tt,
                 set_out (out w ++ [showinfo "Image saved" "File saved correctly.";
                                    print ("Image saved in: " +:+ abspath P target)])
                   (set_fs (<[abspath P target := image_file im]> (fs w)) w)))))).
Proof.
  intros w Hen Hwm.
  destruct (run_steady P es _ (launch_steady P files)) as (Hs & [_ Hst] & _).
  fold w in Hs, Hst.
  pose proof Hs as [(c & cv & Hc & [g Hcv] & Hlogo & _) Hit Hed _ _ _ _ _ _ _ _].
  cbn in Hen. apply shows_button_shown in Hen as (i & tx & h & wd & g' & Hi).
  destruct (Hed eq_refl) as [[t Ht] [f Hf]].
  { exists i, tx, h, cmd_save_image, wd, (Some g'). split; [done|by right]. }
  destruct Hst as [Hst|(text & nm & hex & n & fam & Hst & _ & _ & Hn & Hint & _)];
    [done|].
  unfold watermark_attrs in Hst. injection Hst as _ Hcol Hsz _.
  exists f, t, (Some hex), n. split_and!; try done; try apply Hn.
  intros truncated r e He.
  assert (Hcan : canvas_of w = cv) by (unfold canvas_of; by rewrite Hc, Hcv).
  rewrite Hcan.
  apply (save_image_font_raises P w target f (pretty n) n c t cv g (Some hex) e);
    try done.
  intros x y ph Hx. apply Hlogo in Hx. specialize (Hit t Ht). lia.
Qed.

Lemma save_falls_back_to_default_font_witness :
  let es := [SelectFile "/photos/cat.png"; InsertText; EnterText 0 "hello";
             PickColor 0 "Red"; PickSize 0 40; PickFont 0 "Arial"; ApplyChanges 0] in
  let w := run no_font es (launch no_font demo_fs).2 in
  enabled (SaveImage (Some "/out/marked.png")) w = true ∧
  watermark_attrs w ≠ (unset, unset, unset, unset) ∧
  handler no_font (SaveImage (Some "/out/marked.png")) w =
    (Ok tt,
     set_out (out w ++ [showinfo "Image saved" "File saved correctly.";
                        print "Image saved in: /out/marked.png"])
       (set_fs (<["/out/marked.png" :=
                    image_file (composed cat "hello" (Some "#a32424") DefaultFont)]>
                  (fs w)) w)).
Proof.
  intros es w.
  assert (Hen : enabled (SaveImage (Some "/out/marked.png")) w = true)
    by (vm_compute; reflexivity).
  assert (Hwm : watermark_attrs w ≠ (unset, unset, unset, unset))
    by (vm_compute; discriminate).
  split; [exact Hen|]. split; [exact Hwm|].
  destruct (save_falls_back_to_default_font no_font demo_fs es "/out/marked.png"
              Hen Hwm)
    as (f & t & fill & n & Hf & Ht & Hfill & Hn & _ & Hrun).
  assert (f = "/photos/cat.png") as -> by (vm_compute in Hf; congruence).
  assert (t = 3%nat) as -> by (vm_compute in Ht; congruence).
  assert (fill = Some "#a32424") as -> by (vm_compute in Hfill; congruence).
  destruct (Hrun IOError eq_refl) as [_ Hopen].
  destruct (Hopen ltac:(vm_compute; reflexivity)) as [_ Hread].
  destruct (Hread cat ltac:(vm_compute; reflexivity)) as [_ Hio].
  destruct (Hio eq_refl) as [_ Hok].
  exact (Hok eq_refl).
Defined.
